(** * Memory-graph scripts: a shallow embedding and its properties

    The development embeds the two scripts of the repository,
    [visualize_memory.py] (static report, NetworkX) and
    [visualize_memory_interactive.py] (interactive report, PyVis), as Rocq
    functions, and proves properties of the record loader, the graph
    builder, the analysis and the redundancy scan.

    Conventions of the embedding.
    - A Python [str] is a Rocq [string], one character per code point; this
      covers the code points below 256.
    - A decoded JSON value is a [json]; numbers are integers (numbers with
      a fraction or an exponent are outside the model).
    - A Python exception is a value of [exn]; a computation that may raise
      is a [result]; a computation that prints and may raise is an [io].
    - [print] calls are kept as structured [line]s: the text of a line
      without its decoration and without number formatting. *)

From Stdlib Require Import List String Ascii Bool Arith ZArith QArith Lia.
From Stdlib Require Import Permutation Sorted.
Import ListNotations.

Local Open Scope string_scope.
Local Open Scope list_scope.
Local Open Scope nat_scope.

(* ================================================================== *)
(** * Python values, exceptions and built-in operations *)
(* ================================================================== *)

Module Py.

(** What [json.loads] returns. *)
#[local] Unset Elimination Schemes.
Inductive json : Type :=
| JNull
| JBool (b : bool)
| JInt (z : Z)
| JStr (s : string)
| JList (l : list json)
| JDict (d : list (string * json)).
#[local] Set Elimination Schemes.

(** A decoded JSON object: its items in insertion order. *)
Definition dict : Type := list (string * json).

Inductive exn : Type :=
| KeyError (key : string)
| TypeError (what : string)
| AttributeError (what : string)
| ValueError (what : string)
| ZeroDivisionError
| JSONDecodeError (msg doc : string) (pos : nat)
| FileNotFoundError
| OSError (what : string)
| RecursionError (what : string).

Inductive result (A : Type) : Type :=
| Ok (a : A)
| Raise (e : exn).
Arguments Ok {A} a.
Arguments Raise {A} e.

Definition bind {A B : Type} (c : result A) (k : A -> result B) : result B :=
  match c with
  | Ok a => k a
  | Raise e => Raise e
  end.

Definition is_ok {A : Type} (c : result A) : bool :=
  match c with Ok _ => true | Raise _ => false end.

(** Monadic left fold: the body of a [for] loop that threads a state and
    stops at the first exception. *)
Fixpoint foldM {A S : Type} (f : S -> A -> result S) (l : list A) (s : S)
  : result S :=
  match l with
  | [] => Ok s
  | x :: rest => bind (f s x) (foldM f rest)
  end.

(** A list comprehension [[f x for x in l]] whose body may raise. *)
Fixpoint mapM {A B : Type} (f : A -> result B) (l : list A) : result (list B) :=
  match l with
  | [] => Ok []
  | x :: rest =>
      bind (f x) (fun y => bind (mapM f rest) (fun ys => Ok (y :: ys)))
  end.

(** ** Strings *)

(** [str.isspace] on one code point below 256. *)
Definition is_space (c : ascii) : bool :=
  let n := nat_of_ascii c in
  ((9 <=? n) && (n <=? 13)) || ((28 <=? n) && (n <=? 32))
  || (n =? 133) || (n =? 160).

Fixpoint lstrip (s : string) : string :=
  match s with
  | EmptyString => EmptyString
  | String c rest => if is_space c then lstrip rest else s
  end.

Fixpoint rstrip (s : string) : string :=
  match s with
  | EmptyString => EmptyString
  | String c rest =>
      match rstrip rest with
      | EmptyString => if is_space c then EmptyString else String c EmptyString
      | r => String c r
      end
  end.

(** [s.strip()] *)
Definition strip (s : string) : string := rstrip (lstrip s).

(** Truth value of a string: non-empty. *)
Definition truthy (s : string) : bool :=
  match s with EmptyString => false | String _ _ => true end.

(** [str.lower] on one code point below 256: the capital letters A-Z and
    the capital letters of Latin-1 (192-222 except the multiplication
    sign 215) move up by 32. *)
Definition lower_char (c : ascii) : ascii :=
  let n := nat_of_ascii c in
  if ((65 <=? n) && (n <=? 90))
     || ((192 <=? n) && (n <=? 222) && negb (n =? 215))
  then ascii_of_nat (n + 32) else c.

Fixpoint lower (s : string) : string :=
  match s with
  | EmptyString => EmptyString
  | String c rest => String (lower_char c) (lower rest)
  end.

(** [needle in hay] on strings: [needle] occurs in [hay]. *)
Fixpoint contains (needle hay : string) : bool :=
  prefix needle hay
  || match hay with
     | EmptyString => false
     | String _ rest => contains needle rest
     end.




(** What stops the decoder on a document: a syntax error, with its
    message and its position, from which the library builds its
    [JSONDecodeError]; or another exception raised while decoding, such
    as [RecursionError] on deep nesting and [ValueError] on an integer
    literal over the digit limit. *)
Inductive failure : Type :=
| Syntax (msg : string) (pos : nat)
| Crash (e : exn).

(** [json.loads(doc)], over the decoder proper: [decoder doc] is the
    decoded value, or what stopped the decoder. *)
Definition json_loads (decoder : string -> json + failure) (doc : string)
  : result json :=
  match decoder doc with
  | inl v => Ok v
  | inr (Syntax msg pos) => Raise (JSONDecodeError msg doc pos)
  | inr (Crash e) => Raise e
  end.

(** ** Dictionaries and values *)

Fixpoint lookup (d : dict) (k : string) : option json :=
  match d with
  | [] => None
  | (k', v) :: rest => if (k' =? k)%string then Some v else lookup rest k
  end.

(** [d[k]] *)
Definition getitem (d : dict) (k : string) : result json :=
  match lookup d k with
  | Some v => Ok v
  | None => Raise (KeyError k)
  end.

(** [d.get(k)] *)
Definition dict_get (d : dict) (k : string) : json :=
  match lookup d k with
  | Some v => v
  | None => JNull
  end.

(** [v == s] for a string literal [s]. *)
Definition eq_str (v : json) (s : string) : bool :=
  match v with
  | JStr t => (t =? s)%string
  | _ => false
  end.

(** [len(v)] *)
Definition len (v : json) : result nat :=
  match v with
  | JStr s => Ok (String.length s)
  | JList l => Ok (List.length l)
  | JDict d => Ok (List.length d)
  | _ => Raise (TypeError "object has no len()")
  end.

(** [v.lower()]: only a [str] has the method. *)
Definition lower_of (v : json) : result string :=
  match v with
  | JStr s => Ok (lower s)
  | _ => Raise (AttributeError "object has no attribute 'lower'")
  end.

(** A hashable value as a dictionary key.  Python identifies keys by
    [==] and [hash], so [True] and [1] are one key: keys are kept in a
    normal form in which a bool is its integer. *)
Inductive hkey : Type :=
| HNone
| HNum (z : Z)
| HStr (s : string).

Definition hkey_eqb (a b : hkey) : bool :=
  match a, b with
  | HNone, HNone => true
  | HNum x, HNum y => (x =? y)%Z
  | HStr s, HStr t => (s =? t)%string
  | _, _ => false
  end.

(** Hashing a value: lists and dicts are unhashable. *)
Definition as_key (v : json) : result hkey :=
  match v with
  | JNull => Ok HNone
  | JBool b => Ok (HNum (if b then 1 else 0)%Z)
  | JInt z => Ok (HNum z)
  | JStr s => Ok (HStr s)
  | JList _ | JDict _ => Raise (TypeError "unhashable type")
  end.

(** [a / b] on numbers. *)
Definition div (a b : Q) : result Q :=
  if Qeq_bool b 0 then Raise ZeroDivisionError else Ok (a / b)%Q.

(** [a < b] on numbers. *)
Definition Qltb (a b : Q) : bool := negb (Qle_bool b a).

(** ** [collections.Counter] and [sorted] *)

(** A [Counter]: keys in order of first occurrence, each with its count. *)
Definition counter : Type := list (hkey * nat).

Fixpoint count_of (c : counter) (k : hkey) : option nat :=
  match c with
  | [] => None
  | (k', n) :: rest => if hkey_eqb k' k then Some n else count_of rest k
  end.

Fixpoint incr (c : counter) (k : hkey) : counter :=
  match c with
  | [] => [(k, 1)]
  | (k', n) :: rest =>
      if hkey_eqb k' k then (k', S n) :: rest else (k', n) :: incr rest k
  end.

(** [Counter(keys)] for keys already hashed. *)
Definition count_keys (keys : list hkey) : counter :=
  fold_left incr keys [].

(** [Counter(values)]: every element is hashed. *)
Definition Counter (values : list json) : result counter :=
  bind (mapM as_key values) (fun keys => Ok (count_keys keys)).

Section Sorted.
Context {A K : Type}.
Variable ltb : K -> K -> bool.
Variable key : A -> K.

(** Insertion of [x], which stood before every element of [l] in the
    input, into the descending list [l]: after the elements with a
    strictly greater key, before the others. *)
Fixpoint insert_desc (x : A) (l : list A) : list A :=
  match l with
  | [] => [x]
  | y :: rest =>
      if ltb (key x) (key y) then y :: insert_desc x rest
      else x :: y :: rest
  end.

(** [sorted(l, key=key, reverse=True)]: descending by key, elements
    with equal keys in their input order (the sort is stable, also
    with [reverse=True]).  A stable sort has one possible result, so
    the insertion sort stands for the library's own algorithm. *)
Fixpoint sorted_reverse (l : list A) : list A :=
  match l with
  | [] => []
  | x :: rest => insert_desc x (sorted_reverse rest)
  end.
End Sorted.

(** [c.most_common()]: descending by count, equal counts in order of
    first occurrence. *)
Definition most_common (c : counter) : list (hkey * nat) :=
  sorted_reverse Nat.ltb snd c.

End Py.

(* ================================================================== *)
(** * [networkx.Graph] *)
(* ================================================================== *)

(** An undirected simple graph as the library keeps it: the nodes with
    their attributes in insertion order, and one entry per undirected
    edge, whichever way round it was added.  The centralities, floats in
    the library, are exact rationals here; the products [d * s] of the
    library keep the order and the ties of the degrees [d] as long as
    the node count stays far below 2^52, so the ranking is the same. *)
Module Nx.
Import Py.

(** The two attributes the scripts store on a node. *)
Record node_attrs : Type := {
  entity_type : json;
  observations : nat
}.

Record Graph : Type := {
  nodes : list (hkey * node_attrs);
  edges : list (hkey * hkey * json)
}.

(** [nx.Graph()] *)
Definition empty : Graph := {| nodes := []; edges := [] |}.

Definition node_keys (G : Graph) : list hkey := map fst (nodes G).

Definition has_key (G : Graph) (k : hkey) : bool :=
  existsb (fun k' => hkey_eqb k' k) (node_keys G).

(** [n in G.nodes]: a lookup in the node dictionary, so [n] is hashed. *)
Definition contains_node (G : Graph) (n : json) : result bool :=
  bind (as_key n) (fun k => Ok (has_key G k)).

Fixpoint set_attrs (l : list (hkey * node_attrs)) (k : hkey) (a : node_attrs)
  : list (hkey * node_attrs) :=
  match l with
  | [] => [(k, a)]
  | (k', a') :: rest =>
      if hkey_eqb k' k then (k', a) :: rest else (k', a') :: set_attrs rest k a
  end.

(** [G.add_node(n, entity_type=..., observations=...)]: a new node goes
    last; a node that exists keeps its place and has both attributes
    overwritten; [None] is refused. *)
Definition add_node (G : Graph) (n : json) (a : node_attrs) : result Graph :=
  bind (as_key n) (fun k =>
    if has_key G k then
      Ok {| nodes := set_attrs (nodes G) k a; edges := edges G |}
    else
      match k with
      | HNone => Raise (ValueError "None cannot be a node")
      | _ => Ok {| nodes := set_attrs (nodes G) k a; edges := edges G |}
      end).

Definition same_edge (a b u v : hkey) : bool :=
  (hkey_eqb a u && hkey_eqb b v) || (hkey_eqb a v && hkey_eqb b u).

Fixpoint set_edge (l : list (hkey * hkey * json)) (u v : hkey) (rt : json)
  : list (hkey * hkey * json) :=
  match l with
  | [] => [(u, v, rt)]
  | (a, b, x) :: rest =>
      if same_edge a b u v then (a, b, rt) :: rest
      else (a, b, x) :: set_edge rest u v rt
  end.

(** [G.add_edge(u, v, relation_type=rt)] for two endpoints that are
    nodes already, which is how the scripts call it: an edge between the
    two, in either direction, has its attribute overwritten; otherwise
    the edge is new. *)
Definition add_edge (G : Graph) (u v : hkey) (rt : json) : Graph :=
  {| nodes := nodes G; edges := set_edge (edges G) u v rt |}.

Definition number_of_nodes (G : Graph) : nat := List.length (nodes G).
Definition number_of_edges (G : Graph) : nat := List.length (edges G).

Definition has_edge (G : Graph) (u v : hkey) : bool :=
  existsb (fun '(a, b, _) => same_edge a b u v) (edges G).

(** [G.degree[k]]: the edges at [k], a self-loop counting twice. *)
Definition degree (G : Graph) (k : hkey) : nat :=
  list_sum (map (fun '(a, b, _) =>
                   (if hkey_eqb a k then 1 else 0)
                   + (if hkey_eqb b k then 1 else 0)) (edges G)).

(** [nx.degree_centrality(G)]:
    [if len(G) <= 1: return {n: 1 for n in G}], else
    [s = 1.0 / (len(G) - 1.0)] and [{n: d * s for n, d in G.degree()}]. *)
Definition degree_centrality (G : Graph) : result (list (hkey * Q)) :=
  if number_of_nodes G <=? 1 then
    Ok (map (fun n => (n, 1%Q)) (node_keys G))
  else
    bind (div 1 (inject_Z (Z.of_nat (number_of_nodes G)) - 1)) (fun s =>
      Ok (map (fun n => (n, (inject_Z (Z.of_nat (degree G n)) * s)%Q))
              (node_keys G))).

(** [nx.isolates(G)]: the nodes of degree 0, in node order. *)
Definition isolates (G : Graph) : list hkey :=
  filter (fun n => degree G n =? 0) (node_keys G).

Definition neighbors (G : Graph) (k : hkey) : list hkey :=
  flat_map (fun '(a, b, _) =>
              (if hkey_eqb a k then [b] else [])
              ++ (if hkey_eqb b k then [a] else [])) (edges G).

Definition mem (k : hkey) (l : list hkey) : bool :=
  existsb (fun k' => hkey_eqb k' k) l.

Definition add_new (seen new : list hkey) : list hkey :=
  fold_left (fun acc k => if mem k acc then acc else acc ++ [k]) new seen.

(** The nodes reached from [seen] in at most [rounds] steps. *)
Fixpoint reach (G : Graph) (rounds : nat) (seen : list hkey) : list hkey :=
  match rounds with
  | 0 => seen
  | S r => reach G r (add_new seen (flat_map (neighbors G) seen))
  end.

Fixpoint count_components (G : Graph) (todo seen : list hkey) : nat :=
  match todo with
  | [] => 0
  | k :: rest =>
      if mem k seen then count_components G rest seen
      else S (count_components G rest
                (add_new seen (reach G (number_of_nodes G) [k])))
  end.

(** [nx.number_connected_components(G)] *)
Definition number_connected_components (G : Graph) : nat :=
  count_components G (node_keys G) [].

End Nx.

(* ================================================================== *)
(** * Printed output *)
(* ================================================================== *)

Module Out.
Import Py.

(** One [print] call of either script. *)
Inductive line : Type :=
| Text (s : string)
| TotalEntities (n : nat)
| TotalRelationships (n : nat)
| ConnectedComponents (n : nat)
| EntityTypeCount (entity_type : hkey) (count : nat)
| IsolatedHeader (n : nat)
| IsolatedItem (node : hkey) (entity_type : json)
| AndMore (n : nat)
| ConnectedItem (node : hkey) (connections : nat)
| SimilarItem (name1 name2 : json)
| AndMorePairs (n : nat)
| SparseHeader (n : nat)
| SparseItem (name : json) (n : nat)
| AndMoreEntities (n : nat)
| Saved (output_file : string)
| NotFound (memory_file : string)
| Error (e : exn).

(** A computation that prints: the lines printed so far, and the value
    returned or the exception that stopped it. *)
Definition io (A : Type) : Type := list line * result A.

Definition ret {A : Type} (a : A) : io A := ([], Ok a).

Definition lift {A : Type} (c : result A) : io A := ([], c).

Definition print (l : line) : io unit := ([l], Ok tt).

Definition bind_io {A B : Type} (c : io A) (k : A -> io B) : io B :=
  match c with
  | (out, Ok a) => let '(out', r) := k a in (out ++ out', r)
  | (out, Raise e) => (out, Raise e)
  end.

(** A [for] loop whose body prints. *)
Fixpoint for_each {A : Type} (l : list A) (body : A -> io unit) : io unit :=
  match l with
  | [] => ret tt
  | x :: rest => bind_io (body x) (fun _ => for_each rest body)
  end.

Definition when (b : bool) (c : io unit) : io unit :=
  if b then c else ret tt.

End Out.

Declare Scope io_scope.
Declare Scope result_scope.
Delimit Scope io_scope with io.
Notation "x <- c ;; k" := (Py.bind c (fun x => k))
  (at level 61, c at next level, right associativity) : result_scope.
Notation "' p <- c ;; k" := (Py.bind c (fun p => k))
  (at level 61, p pattern, c at next level, right associativity) : result_scope.
Notation "x <- c ;; k" := (Out.bind_io c (fun x => k))
  (at level 61, c at next level, right associativity) : io_scope.
Notation "' p <- c ;; k" := (Out.bind_io c (fun p => k))
  (at level 61, p pattern, c at next level, right associativity) : io_scope.
Notation "c ;; k" := (Out.bind_io c (fun _ => k))
  (at level 61, right associativity) : io_scope.
Delimit Scope result_scope with result.

(* ================================================================== *)
(** * visualize_memory.py *)
(* ================================================================== *)

Module Static.
Import Py Nx Out.

Section Script.

(** The JSON decoder behind [json.loads]. *)
Variable decoder : string -> json + failure.

(** Matplotlib and the layout: everything [visualize_graph] does up to
    and including [plt.savefig], and [plt.show]. *)
Variable savefig : Graph -> result unit.
Variable show : Graph -> result unit.

(** The loop over the lines of the file. *)
Fixpoint load_lines (lines : list string) (entities relations : list dict)
  : result (list dict * list dict) :=
  match lines with
  | [] => Ok (entities, relations)
  | line :: rest =>
      if truthy (strip line) then
        (data <- json_loads decoder (strip line) ;;
         match data with
         | JDict d =>
             if eq_str (dict_get d "type") "entity" then
               load_lines rest (entities ++ [d]) relations
             else if eq_str (dict_get d "type") "relation" then
               load_lines rest entities (relations ++ [d])
             else load_lines rest entities relations
         | _ => Raise (AttributeError "object has no attribute 'get'")
         end)%result
      else load_lines rest entities relations
  end.

(** [load_memory_file(file_path)]; [file] is what opening the path and
    [readlines] give: the lines, or the exception of [open]. *)
Definition load_memory_file (file : result (list string))
  : result (list dict * list dict) :=
  (lines <- file ;; load_lines lines [] [])%result.

(** One round of the node loop.  The arguments of [G.add_node] are
    evaluated left to right before the call. *)
Definition add_entity (G : Graph) (entity : dict) : result Graph :=
  (name <- getitem entity "name" ;;
   ty <- getitem entity "entityType" ;;
   obs <- getitem entity "observations" ;;
   n <- len obs ;;
   add_node G name {| entity_type := ty; observations := n |})%result.

(** One round of the edge loop; [and] does not evaluate its right
    operand when the left one is false. *)
Definition add_relation (G : Graph) (relation : dict) : result Graph :=
  (from <- getitem relation "from" ;;
   from_known <- contains_node G from ;;
   if from_known then
     to <- getitem relation "to" ;;
     to_known <- contains_node G to ;;
     if to_known then
       u <- as_key from ;;
       v <- as_key to ;;
       rt <- getitem relation "relationType" ;;
       Ok (add_edge G u v rt)
     else Ok G
   else Ok G)%result.

Definition create_graph (entities relations : list dict) : result Graph :=
  (G <- foldM add_entity entities empty ;;
   foldM add_relation relations G)%result.

(** [G.nodes[node]['entity_type']] *)
Definition node_entity_type (G : Graph) (node : hkey) : result json :=
  match find (fun '(k, _) => hkey_eqb k node) (nodes G) with
  | Some (_, a) => Ok (entity_type a)
  | None => Raise (KeyError "node")
  end.

(** [sorted(degree_centrality.items(), key=lambda x: x[1],
    reverse=True)[:5]] *)
Definition top_connected (G : Graph) : result (list (hkey * Q)) :=
  (degree_centrality <- degree_centrality G ;;
   Ok (firstn 5 (sorted_reverse Qltb snd degree_centrality)))%result.

Definition analyze_graph (G : Graph) : io unit :=
  (print (Text "=== MEMORY GRAPH ANALYSIS ===") ;;
   print (TotalEntities (number_of_nodes G)) ;;
   print (TotalRelationships (number_of_edges G)) ;;
   print (ConnectedComponents (number_connected_components G)) ;;
   type_counts <-
     lift (Counter (map (fun '(_, a) => entity_type a) (nodes G))) ;;
   print (Text "Entity Types:") ;;
   for_each (most_common type_counts)
     (fun '(entity_type, count) => print (EntityTypeCount entity_type count)) ;;
   let isolated := isolates G in
   when (negb (List.length isolated =? 0))
     (print (IsolatedHeader (List.length isolated)) ;;
      for_each (firstn 5 isolated)
        (fun node =>
           ty <- lift (node_entity_type G node) ;;
           print (IsolatedItem node ty)) ;;
      when (5 <? List.length isolated)
        (print (AndMore (List.length isolated - 5)))) ;;
   top_connected <- lift (top_connected G) ;;
   print (Text "Most connected entities:") ;;
   for_each top_connected
     (fun '(node, centrality) => print (ConnectedItem node (degree G node))) ;;
   print (Text "========================================"))%io.

Definition visualize_graph (G : Graph) (output_file : string) : io unit :=
  (lift (savefig G) ;;
   print (Saved output_file) ;;
   lift (show G))%io.

(** [names = [entity['name'] for entity in entities]] *)
Definition names (entities : list dict) : result (list json) :=
  mapM (fun entity => getitem entity "name") entities.

(** [name1 != name2], reached only after both [lower] calls went through,
    that is on two strings. *)
Definition ne (name1 name2 : json) : bool :=
  match name1, name2 with
  | JStr s1, JStr s2 => negb (s1 =? s2)%string
  | _, _ => true
  end.

(** The body of the inner loop: the pair is appended when one lowercase
    name occurs in the other and the names differ. *)
Definition compare_names (name1 : json) (similar_pairs : list (json * json))
  (name2 : json) : result (list (json * json)) :=
  (l1 <- lower_of name1 ;;
   l2 <- lower_of name2 ;;
   if contains l1 l2 || contains l2 l1 then
     if ne name1 name2 then Ok (similar_pairs ++ [(name1, name2)])
     else Ok similar_pairs
   else Ok similar_pairs)%result.

(** The two loops: [name1] runs over the names, [name2] over
    [names[i+1:]], the names after [name1]. *)
Fixpoint similar_loop (names : list json) (similar_pairs : list (json * json))
  : result (list (json * json)) :=
  match names with
  | [] => Ok similar_pairs
  | name1 :: rest =>
      (similar_pairs <- foldM (compare_names name1) rest similar_pairs ;;
       similar_loop rest similar_pairs)%result
  end.

Definition similar_pairs (names : list json) : result (list (json * json)) :=
  similar_loop names [].

(** [[e for e in entities if len(e['observations']) <= 1]] *)
Fixpoint sparse_entities (entities : list dict) : result (list dict) :=
  match entities with
  | [] => Ok []
  | e :: rest =>
      (obs <- getitem e "observations" ;;
       n <- len obs ;;
       sparse <- sparse_entities rest ;;
       Ok (if n <=? 1 then e :: sparse else sparse))%result
  end.

Definition find_redundancies (entities relations : list dict) : io unit :=
  (print (Text "=== REDUNDANCY ANALYSIS ===") ;;
   names <- lift (names entities) ;;
   similar_pairs <- lift (similar_pairs names) ;;
   when (negb (List.length similar_pairs =? 0))
     (print (Text "Potentially similar entities (consider merging):") ;;
      for_each (firstn 5 similar_pairs)
        (fun pair => print (SimilarItem (fst pair) (snd pair))) ;;
      when (5 <? List.length similar_pairs)
        (print (AndMorePairs (List.length similar_pairs - 5)))) ;;
   sparse_entities <- lift (sparse_entities entities) ;;
   when (negb (List.length sparse_entities =? 0))
     (print (SparseHeader (List.length sparse_entities)) ;;
      for_each (firstn 5 sparse_entities)
        (fun entity =>
           name <- lift (getitem entity "name") ;;
           obs <- lift (getitem entity "observations") ;;
           n <- lift (len obs) ;;
           print (SparseItem name n)) ;;
      when (5 <? List.length sparse_entities)
        (print (AndMoreEntities (List.length sparse_entities - 5)))))%io.

(** The [try] block of [main]. *)
Definition main_body (file : result (list string)) : io unit :=
  ('(entities, relations) <- lift (load_memory_file file) ;;
   G <- lift (create_graph entities relations) ;;
   analyze_graph G ;;
   find_redundancies entities relations ;;
   print (Text "Creating static visualization...") ;;
   visualize_graph G "memory_graph.png" ;;
   print (Text "--------------------------------------------------") ;;
   print (Text "ANALYSIS COMPLETE:") ;;
   print (Text "Network statistics calculated") ;;
   print (Text "Redundancy patterns identified") ;;
   print (Text "High-resolution graph exported") ;;
   print (Text "Entity relationships mapped") ;;
   print (Text "--------------------------------------------------"))%io.

(** [main()]: everything it prints.  [file] is the outcome of opening
    and reading [memory.json]. *)
Definition main (file : result (list string)) : list line :=
  match main_body file with
  | (out, Ok _) => out
  | (out, Raise FileNotFoundError) =>
      out ++ [NotFound "memory.json";
              Text "Please update the memory_file path in the script."]
  | (out, Raise e) => out ++ [Error e]
  end.

End Script.
End Static.

(* ================================================================== *)
(** * visualize_memory_interactive.py *)
(* ================================================================== *)

(** The loader and the redundancy scan of this script are those of the
    static one; its analysis works on the records, without a graph. *)
Module Interactive.
Import Py Out.

(** [to_counts.get(entity, 0)] *)
Definition get_count (c : counter) (entity : hkey) : nat :=
  match count_of c entity with
  | Some n => n
  | None => 0
  end.

(** The two loops that fill [total_connections]. *)
Definition total_connections (from_counts to_counts : counter)
  : list (hkey * nat) :=
  let total :=
    fold_left (fun total '(entity, n) =>
                 total ++ [(entity, n + get_count to_counts entity)])
              from_counts [] in
  fold_left (fun total '(entity, n) =>
               match count_of total entity with
               | Some _ => total
               | None => total ++ [(entity, n)]
               end)
            to_counts total.

(** [sorted(total_connections.items(), key=lambda x: x[1],
    reverse=True)[:5]] *)
Definition most_connected (relations : list dict)
  : result (list (hkey * nat)) :=
  (froms <- mapM (fun r => getitem r "from") relations ;;
   from_counts <- Counter froms ;;
   tos <- mapM (fun r => getitem r "to") relations ;;
   to_counts <- Counter tos ;;
   Ok (firstn 5 (sorted_reverse Nat.ltb snd
                   (total_connections from_counts to_counts))))%result.

Definition print_analysis (entities relations : list dict) : io unit :=
  (print (Text "=== MEMORY GRAPH ANALYSIS ===") ;;
   print (TotalEntities (List.length entities)) ;;
   print (TotalRelationships (List.length relations)) ;;
   entity_types <- lift (mapM (fun e => getitem e "entityType") entities) ;;
   type_counts <- lift (Counter entity_types) ;;
   print (Text "Entity Types:") ;;
   for_each (most_common type_counts)
     (fun '(entity_type, count) => print (EntityTypeCount entity_type count)) ;;
   most_connected <- lift (most_connected relations) ;;
   print (Text "Most connected entities:") ;;
   for_each most_connected
     (fun '(entity, count) => print (ConnectedItem entity count)) ;;
   print (Text "========================================"))%io.

(** The label of a node in [create_interactive_graph], for a name that
    is a [str]: [label = entity['name']], and [label[:17] + "..."] when
    it is longer than 20. *)
Definition node_label (name : string) : string :=
  if 20 <? String.length name then (substring 0 17 name ++ "...")%string
  else name.

(** The label of an edge, for a relation type that is a [str]:
    [edge_label[:9] + "..."] when it is longer than 12. *)
Definition edge_label (relation_type : string) : string :=
  if 12 <? String.length relation_type
  then (substring 0 9 relation_type ++ "...")%string
  else relation_type.

(** [node_size = len(entity['observations']) * 3 + 15] *)
Definition node_size (entity : dict) : result nat :=
  (obs <- getitem entity "observations" ;;
   n <- len obs ;;
   Ok (n * 3 + 15))%result.

(** [find_redundancies] of this script: the scan of the static script,
    with all the similar pairs printed and no "more" lines. *)
Definition find_redundancies (entities relations : list dict) : io unit :=
  (print (Text "=== REDUNDANCY ANALYSIS ===") ;;
   names <- lift (Static.names entities) ;;
   similar_pairs <- lift (Static.similar_pairs names) ;;
   when (negb (List.length similar_pairs =? 0))
     (print (Text "Potentially similar entities (consider merging):") ;;
      for_each similar_pairs
        (fun pair => print (SimilarItem (fst pair) (snd pair)))) ;;
   sparse_entities <- lift (Static.sparse_entities entities) ;;
   when (negb (List.length sparse_entities =? 0))
     (print (SparseHeader (List.length sparse_entities)) ;;
      for_each (firstn 5 sparse_entities)
        (fun entity =>
           name <- lift (getitem entity "name") ;;
           obs <- lift (getitem entity "observations") ;;
           n <- lift (len obs) ;;
           print (SparseItem name n))))%io.

Section Script.

(** The JSON decoder behind [json.loads]. *)
Variable decoder : string -> json + failure.

(** PyVis: everything [create_interactive_graph] does up to and
    including [net.save_graph], and [webbrowser.open]. *)
Variable save_graph : list dict -> list dict -> result unit.
Variable open_browser : string -> result unit.

(** The loader, the same text as in the static script. *)
Definition load_memory_file (file : result (list string))
  : result (list dict * list dict) :=
  Static.load_memory_file decoder file.

(** The bare [except] around the browser catches every exception; both
    branches print that the graph was saved. *)
Definition create_interactive_graph (entities relations : list dict)
  (output_file : string) : io unit :=
  (lift (save_graph entities relations) ;;
   match open_browser output_file with
   | Ok _ =>
       print (Saved output_file) ;;
       print (Text "Opening in your default browser...")
   | Raise _ =>
       print (Saved output_file) ;;
       print (Text
         "Open this file in your browser to view the interactive network")
   end)%io.

(** The [try] block of [main]. *)
Definition main_body (file : result (list string)) : io unit :=
  ('(entities, relations) <- lift (load_memory_file file) ;;
   print_analysis entities relations ;;
   find_redundancies entities relations ;;
   print (Text "Creating interactive visualization...") ;;
   create_interactive_graph entities relations
     "memory_graph_interactive.html" ;;
   print (Text "--------------------------------------------------") ;;
   print (Text "INTERACTIVE FEATURES:") ;;
   print (Text "Drag nodes to reorganize the layout") ;;
   print (Text "Hover over nodes for detailed information") ;;
   print (Text "Click and drag to pan around the graph") ;;
   print (Text "Scroll to zoom in and out") ;;
   print (Text "Physics simulation for natural movement") ;;
   print (Text "--------------------------------------------------"))%io.

(** [main()] of the interactive script: everything it prints. *)
Definition main (file : result (list string)) : list line :=
  match main_body file with
  | (out, Ok _) => out
  | (out, Raise FileNotFoundError) =>
      out ++ [NotFound "memory.json";
              Text "Please update the memory_file path in the script."]
  | (out, Raise e) => out ++ [Error e]
  end.

End Script.

End Interactive.

(** The "most connected" lines of a report: entity and connection count. *)
Fixpoint connected_items (out : list Out.line) : list (Py.hkey * nat) :=
  match out with
  | [] => []
  | Out.ConnectedItem node n :: rest => (node, n) :: connected_items rest
  | _ :: rest => connected_items rest
  end.

(* ================================================================== *)
(** * Notions used in the statements *)
(* ================================================================== *)

Import Py Nx Out.

(** A line of white space only. *)
Fixpoint blank (line : string) : bool :=
  match line with
  | EmptyString => true
  | String c rest => is_space c && blank rest
  end.

(** The record has the given ["type"]. *)
Definition has_type (t : string) (d : dict) : bool :=
  match lookup d "type" with
  | Some (JStr s) => (s =? t)%string
  | _ => false
  end.

(** The JSON objects of the non-blank lines, in the order of the lines. *)
Definition objects (decoder : string -> json + failure)
  (lines : list string) : list dict :=
  flat_map (fun line =>
              if blank line then []
              else match decoder (strip line) with
                   | inl (JDict d) => [d]
                   | _ => []
                   end) lines.

(** A line the loader gets through: blank, or a JSON object. *)
Definition loadable (decoder : string -> json + failure) (line : string)
  : Prop :=
  blank line = true \/ exists d, decoder (strip line) = inl (JDict d).


(** A renderer that succeeds. *)
Definition sample_render (G : Graph) : result unit := Ok tt.

(** The newline that ends a line of [readlines]. *)
Definition nl : string := String (ascii_of_nat 10) EmptyString.

(** A line of text as [readlines] returns it. *)
Definition text_line (s : string) : string := s ++ nl.

(** The double quote, and a quoted JSON string. *)
Definition dq : string := String (ascii_of_nat 34) EmptyString.
Definition quoted (s : string) : string := dq ++ s ++ dq.

(** One JSON object of string fields, as text. *)
Fixpoint fields_text (fields : list (string * string)) : string :=
  match fields with
  | [] => EmptyString
  | [(k, v)] => quoted k ++ ": " ++ quoted v
  | (k, v) :: rest => quoted k ++ ": " ++ quoted v ++ ", " ++ fields_text rest
  end.
Definition object_text (fields : list (string * string)) : string :=
  "{" ++ fields_text fields ++ "}".

Definition object_value (fields : list (string * string)) : dict :=
  map (fun '(k, v) => (k, JStr v)) fields.

(** Three records of a memory file. *)
Definition alice_fields : list (string * string) :=
  [("type", "entity"); ("name", "Alice"); ("entityType", "person")].
Definition knows_fields : list (string * string) :=
  [("type", "relation"); ("from", "Alice"); ("to", "Bob");
   ("relationType", "knows")].
Definition note_fields : list (string * string) :=
  [("type", "note"); ("text", "hello")].

(** A decoder that agrees with [json.loads] on the documents of the
    examples: the three records above and the empty object decode to
    their values, and [oops] is refused at its first character. *)
Definition table_decoder (doc : string) : json + failure :=
  if (doc =? "{}")%string then inl (JDict [])
  else if (doc =? object_text alice_fields)%string
       then inl (JDict (object_value alice_fields))
  else if (doc =? object_text knows_fields)%string
       then inl (JDict (object_value knows_fields))
  else if (doc =? object_text note_fields)%string
       then inl (JDict (object_value note_fields))
  else inr (Syntax "Expecting value" 0).

(** An entity record and a relation record with all their fields. *)
Definition entity (name ty : string) (obs : list string) : dict :=
  [("type", JStr "entity"); ("name", JStr name); ("entityType", JStr ty);
   ("observations", JList (map JStr obs))].
Definition relation (from to rt : string) : dict :=
  [("type", JStr "relation"); ("from", JStr from); ("to", JStr to);
   ("relationType", JStr rt)].

(** The two names of a relation record, as node keys. *)
Definition endpoints (r : dict) : option (hkey * hkey) :=
  match lookup r "from", lookup r "to" with
  | Some f, Some t =>
      match as_key f, as_key t with
      | Ok u, Ok v => Some (u, v)
      | _, _ => None
      end
  | _, _ => None
  end.

(** Both names of the record are names of nodes of [G]. *)
Definition known (G : Graph) (r : dict) : bool :=
  match endpoints r with
  | Some (u, v) => has_key G u && has_key G v
  | None => false
  end.

(** The record has both names, and one of them is not a node of [G]. *)
Definition dangling (G : Graph) (r : dict) : bool :=
  match endpoints r with
  | Some (u, v) => negb (has_key G u && has_key G v)
  | None => false
  end.

(** The number of relation records dropped for an unknown name. *)
Definition dropped (G : Graph) (relations : list dict) : nat :=
  List.length (filter (dangling G) relations).

(** Two records join the same two names, in either direction. *)
Definition same_link (r1 r2 : dict) : bool :=
  match endpoints r1, endpoints r2 with
  | Some (a, b), Some (u, v) => same_edge a b u v
  | _, _ => false
  end.

(** No edge of [G] joins the two names of the record. *)
Definition fresh (G : Graph) (r : dict) : bool :=
  match endpoints r with
  | Some (u, v) => negb (has_edge G u v)
  | None => true
  end.

(** The degree of a node, counted on the edges of the graph: the edges
    that touch the node, and once more those that join it to itself. *)
Definition touches (k : hkey) (e : hkey * hkey * json) : bool :=
  hkey_eqb (fst (fst e)) k || hkey_eqb (snd (fst e)) k.
Definition loops_at (k : hkey) (e : hkey * hkey * json) : bool :=
  hkey_eqb (fst (fst e)) k && hkey_eqb (snd (fst e)) k.
Definition edge_ends (G : Graph) (k : hkey) : nat :=
  List.length (filter (touches k) (edges G))
  + List.length (filter (loops_at k) (edges G)).

(** Degree centrality as the library defines it for a graph of two nodes
    or more, degree over node count less one, and its value 1 below. *)
Definition centrality (G : Graph) (n : hkey) : Q :=
  if number_of_nodes G <=? 1 then 1%Q
  else (inject_Z (Z.of_nat (edge_ends G n))
        / (inject_Z (Z.of_nat (number_of_nodes G)) - 1))%Q.

(** Position [i] precedes position [j] in the ranking by the keys [c]: a
    higher key, or the same key and an earlier place. *)
Definition precedes (c : nat -> Q) (i j : nat) : Prop :=
  (c j < c i)%Q \/ ((c i == c j)%Q /\ i < j).

(** The ranking of the positions of a list of centralities. *)
Definition ranks_before (items : list (hkey * Q)) : nat -> nat -> Prop :=
  precedes (fun i => snd (nth i items (HNone, 0%Q))).

(** [a] occurs in [b] as a substring. *)
Definition occurs_in (a b : string) : Prop :=
  exists p q : string, b = (p ++ a ++ q)%string.

(** Two names are similar: unequal, and the lowercase form of one occurs
    in the lowercase form of the other. *)
Definition similar_names (a b : string) : Prop :=
  a <> b /\ (occurs_in (lower a) (lower b) \/ occurs_in (lower b) (lower a)).


(** The test of the inner loop on two strings. *)
Definition flagged (a b : string) : bool :=
  (contains (lower a) (lower b) || contains (lower b) (lower a))
  && negb (a =? b)%string.

(** The names with their positions, from [start]. *)
Definition enumerate (start : nat) (names : list string)
  : list (nat * string) :=
  combine (seq start (List.length names)) names.

(** The flagged pairs of an enumerated list, each with its two
    positions: a name against every name after it. *)
Fixpoint scan (l : list (nat * string))
  : list ((nat * nat) * (string * string)) :=
  match l with
  | [] => []
  | (i, a) :: rest =>
      map (fun '(j, b) => ((i, j), (a, b)))
          (filter (fun '(j, b) => flagged a b) rest)
      ++ scan rest
  end.

(** The observations of an entity record, when the field is a list. *)
Definition observation_list (e : dict) : option (list json) :=
  match lookup e "observations" with
  | Some (JList l) => Some l
  | _ => None
  end.

(** At most one observation. *)
Definition sparse (e : dict) : bool :=
  match observation_list e with
  | Some l => List.length l <=? 1
  | None => false
  end.

(** A memory file with a malformed third line. *)
Definition bad_file : list string :=
  [text_line (object_text alice_fields); nl; text_line "oops"; text_line "{}"].

(** The graph of one entity. *)
Definition alice_graph : Graph :=
  {| nodes := [(HStr "Alice",
                {| entity_type := JStr "person"; observations := 0 |})];
     edges := [] |}.

(** Six entities, the first three in a chain that Bob is the middle of. *)
Definition team_entities : list dict :=
  [entity "Carol" "person" []; entity "Alice" "person" [];
   entity "Bob" "person" []; entity "Dave" "person" [];
   entity "Eve" "person" []; entity "Frank" "person" []].
Definition team_relations : list dict :=
  [relation "Alice" "Bob" "knows"; relation "Bob" "Carol" "knows"].

(** An entity record the node loop accepts: a hashable name other than
    [None], a type, and observations that have a length. *)
Definition well_formed_entity (e : dict) : Prop :=
  (exists name k, lookup e "name" = Some name /\ as_key name = Ok k
                  /\ k <> HNone)
  /\ lookup e "entityType" <> None
  /\ exists obs n, lookup e "observations" = Some obs /\ len obs = Ok n.

(** A relation record the edge loop accepts: two hashable names and a
    relation type. *)
Definition well_formed_relation (r : dict) : Prop :=
  endpoints r <> None /\ lookup r "relationType" <> None.

(* ================================================================== *)
(** * Further notions *)
(* ================================================================== *)

(** Equality of node keys is decidable. *)
Definition hkey_eq_dec (a b : hkey) : {a = b} + {a <> b}.
Proof.
  decide equality; [apply Z.eq_dec | apply string_dec].
Defined.

(** The name of an entity record, as a node key. *)
Definition name_key (e : dict) : option hkey :=
  match lookup e "name" with
  | Some name =>
      match as_key name with
      | Ok k => Some k
      | Raise _ => None
      end
  | None => None
  end.

(** The names of the entity records that have one, as node keys. *)
Definition entity_keys (entities : list dict) : list hkey :=
  flat_map (fun e => match name_key e with
                     | Some k => [k]
                     | None => []
                     end) entities.

(** The attributes the node loop stores for an entity record. *)
Definition attrs_of (e : dict) : option node_attrs :=
  match lookup e "entityType", lookup e "observations" with
  | Some ty, Some obs =>
      match len obs with
      | Ok n => Some {| entity_type := ty; observations := n |}
      | Raise _ => None
      end
  | _, _ => None
  end.

(** The relation type of a relation record. *)
Definition relation_type (r : dict) : option json := lookup r "relationType".

(** The record joins the two keys, in either direction. *)
Definition joins (r : dict) (u v : hkey) : bool :=
  match endpoints r with
  | Some (a, b) => same_edge a b u v
  | None => false
  end.

(** Two edges join the same two nodes. *)
Definition parallel (e1 e2 : hkey * hkey * json) : bool :=
  same_edge (fst (fst e1)) (snd (fst e1)) (fst (fst e2)) (snd (fst e2)).

(** The ['from'] name of a relation record, as a node key. *)
Definition from_key (r : dict) : option hkey :=
  match lookup r "from" with
  | Some f =>
      match as_key f with
      | Ok k => Some k
      | Raise _ => None
      end
  | None => None
  end.

(** The value can be a dictionary key. *)
Definition hashable (v : json) : bool :=
  match v with
  | JList _ | JDict _ => false
  | _ => true
  end.

(** The entity type stored on a node, [None] for a key that is no
    node. *)
Definition type_of (G : Graph) (node : hkey) : json :=
  match find (fun '(k, _) => hkey_eqb k node) (nodes G) with
  | Some (_, a) => entity_type a
  | None => JNull
  end.

(** The lines about isolated entities in the static report. *)
Definition isolated_lines (G : Graph) : list line :=
  match isolates G with
  | [] => []
  | _ =>
      IsolatedHeader (List.length (isolates G))
      :: map (fun node => IsolatedItem node (type_of G node))
             (firstn 5 (isolates G))
      ++ (if 5 <? List.length (isolates G)
          then [AndMore (List.length (isolates G) - 5)] else [])
  end.

(** The counts of the entity-type lines of a report. *)
Fixpoint type_counts (out : list line) : list nat :=
  match out with
  | [] => []
  | EntityTypeCount _ n :: rest => n :: type_counts rest
  | _ :: rest => type_counts rest
  end.

(** The four lines that open the static report. *)
Definition opening_lines (G : Graph) : list line :=
  [Text "=== MEMORY GRAPH ANALYSIS ===";
   TotalEntities (number_of_nodes G);
   TotalRelationships (number_of_edges G);
   ConnectedComponents (number_connected_components G)].

(** The value is a [str]. *)
Definition is_str (v : json) : bool :=
  match v with
  | JStr _ => true
  | _ => false
  end.

(** The similar-pair lines and the sparse-entity lines of a report. *)
Fixpoint similar_items (out : list line) : list (json * json) :=
  match out with
  | [] => []
  | SimilarItem a b :: rest => (a, b) :: similar_items rest
  | _ :: rest => similar_items rest
  end.

Fixpoint sparse_items (out : list line) : list (json * nat) :=
  match out with
  | [] => []
  | SparseItem name n :: rest => (name, n) :: sparse_items rest
  | _ :: rest => sparse_items rest
  end.

(** The line printed for a sparse entity. *)
Definition sparse_line (e : dict) : line :=
  SparseItem (dict_get e "name")
    (match len (dict_get e "observations") with
     | Ok n => n
     | Raise _ => 0
     end).

(** The block of similar pairs, in the static script and in the
    interactive one. *)
Definition similar_lines (pairs : list (json * json)) : list line :=
  if List.length pairs =? 0 then []
  else Text "Potentially similar entities (consider merging):"
       :: map (fun p => SimilarItem (fst p) (snd p)) (firstn 5 pairs)
       ++ (if 5 <? List.length pairs
           then [AndMorePairs (List.length pairs - 5)] else []).

Definition similar_lines_all (pairs : list (json * json)) : list line :=
  if List.length pairs =? 0 then []
  else Text "Potentially similar entities (consider merging):"
       :: map (fun p => SimilarItem (fst p) (snd p)) pairs.

(** The block of sparse entities, with and without the closing line. *)
Definition sparse_lines (more : bool) (sparse : list dict) : list line :=
  if List.length sparse =? 0 then []
  else SparseHeader (List.length sparse)
       :: map sparse_line (firstn 5 sparse)
       ++ (if more && (5 <? List.length sparse)
           then [AndMoreEntities (List.length sparse - 5)] else []).

(** The observations of the record have a length. *)
Definition sized (e : dict) : bool :=
  match lookup e "observations" with
  | Some v => is_ok (len v)
  | None => false
  end.

(** The length of the observations of the record is at most 1. *)
Definition short (e : dict) : bool :=
  match len (dict_get e "observations") with
  | Ok n => n <=? 1
  | Raise _ => false
  end.

(** The ['to'] name of a relation record, as a node key. *)
Definition to_key (r : dict) : option hkey :=
  match lookup r "to" with
  | Some t =>
      match as_key t with
      | Ok k => Some k
      | Raise _ => None
      end
  | None => None
  end.

(** How many relation records have the key as their ['from'] name, and
    how many as their ['to'] name. *)
Definition from_count (relations : list dict) (k : hkey) : nat :=
  List.length (filter (fun r => match from_key r with
                                | Some k' => hkey_eqb k' k
                                | None => false
                                end) relations).
Definition to_count (relations : list dict) (k : hkey) : nat :=
  List.length (filter (fun r => match to_key r with
                                | Some k' => hkey_eqb k' k
                                | None => false
                                end) relations).

(** The dictionary [total_connections] of [print_analysis], before it is
    sorted and cut. *)
Definition connections (relations : list dict) : result (list (hkey * nat)) :=
  (froms <- mapM (fun r => getitem r "from") relations ;;
   from_counts <- Counter froms ;;
   tos <- mapM (fun r => getitem r "to") relations ;;
   to_counts <- Counter tos ;;
   Ok (Interactive.total_connections from_counts to_counts))%result.

(** What [main] prints for an exception caught. *)
Definition error_lines (e : exn) : list line :=
  match e with
  | FileNotFoundError =>
      [NotFound "memory.json";
       Text "Please update the memory_file path in the script."]
  | _ => [Error e]
  end.

(** The lines that close the static report. *)
Definition closing_lines : list line :=
  [Text "--------------------------------------------------";
   Text "ANALYSIS COMPLETE:";
   Text "Network statistics calculated";
   Text "Redundancy patterns identified";
   Text "High-resolution graph exported";
   Text "Entity relationships mapped";
   Text "--------------------------------------------------"].

(** An entity record with a string for a name, a hashable type and a
    list of observations. *)
Definition plain_entity (e : dict) : Prop :=
  (exists name, lookup e "name" = Some (JStr name))
  /\ (exists ty, lookup e "entityType" = Some ty /\ hashable ty = true)
  /\ exists obs, lookup e "observations" = Some (JList obs).

(** A complete entity record as a line of a memory file, and a decoder
    that knows it beside the records of [table_decoder]. *)
Definition bob_text : string :=
  "{" ++ fields_text [("type", "entity"); ("name", "Bob");
                      ("entityType", "person")]
      ++ ", " ++ quoted "observations" ++ ": [" ++ quoted "a friend" ++ "]}".
Definition bob_decoder (doc : string) : json + failure :=
  if (doc =? bob_text)%string
  then inl (JDict (entity "Bob" "person" ["a friend"]))
  else table_decoder doc.

(** A renderer that finds no directory to write to. *)
Definition lost_render (G : Graph) : result unit := Raise FileNotFoundError.

(* ================================================================== *)
(** * The loader *)
(* ================================================================== *)

Section Strip.

Lemma lstrip_blank (s : string) : blank s = true -> lstrip s = EmptyString.
Proof.
  induction s as [|c s IH]; simpl; intros H; [reflexivity|].
  apply andb_true_iff in H as [Hc Hs]. rewrite Hc. auto.
Qed.

Lemma lstrip_not_blank (s : string) :
  blank s = false -> exists c r, lstrip s = String c r /\ is_space c = false.
Proof.
  induction s as [|c s IH]; simpl; intros H; [discriminate|].
  destruct (is_space c) eqn:Hc; simpl in H.
  - auto.
  - exists c, s. auto.
Qed.

Lemma rstrip_head (c : ascii) (r : string) :
  is_space c = false -> exists r', rstrip (String c r) = String c r'.
Proof.
  intros Hc. simpl. destruct (rstrip r); rewrite ?Hc; eauto.
Qed.

(** [line.strip()] is falsy exactly on the blank lines. *)
Lemma truthy_strip (s : string) : truthy (strip s) = negb (blank s).
Proof.
  unfold strip. destruct (blank s) eqn:Hb.
  - rewrite lstrip_blank by assumption. reflexivity.
  - destruct (lstrip_not_blank s Hb) as (c & r & -> & Hc).
    destruct (rstrip_head c r Hc) as [r' ->]. reflexivity.
Qed.

End Strip.

Section Loader.

Variable decoder : string -> json + failure.
Variable savefig show : Graph -> result unit.

Lemma eq_str_has_type (d : dict) (t : string) :
  eq_str (dict_get d "type") t = has_type t d.
Proof.
  unfold dict_get, has_type. destruct (lookup d "type") as [[]|]; reflexivity.
Qed.

Lemma load_lines_blank line rest es rs :
  blank line = true ->
  Static.load_lines decoder (line :: rest) es rs
  = Static.load_lines decoder rest es rs.
Proof.
  intros Hb. simpl. rewrite truthy_strip, Hb. reflexivity.
Qed.

Lemma load_lines_object line rest es rs d :
  blank line = false -> decoder (strip line) = inl (JDict d) ->
  Static.load_lines decoder (line :: rest) es rs
  = Static.load_lines decoder rest
      (es ++ filter (has_type "entity") [d])
      (rs ++ filter (has_type "relation") [d]).
Proof.
  intros Hb Hd. simpl. rewrite truthy_strip, Hb. simpl.
  unfold json_loads. rewrite Hd. simpl.
  rewrite !eq_str_has_type.
  destruct (has_type "entity" d) eqn:He.
  - assert (has_type "relation" d = false) as ->.
    { unfold has_type in *.
      destruct (lookup d "type") as [[]|]; try discriminate.
      apply String.eqb_eq in He. subst. reflexivity. }
    rewrite app_nil_r. reflexivity.
  - destruct (has_type "relation" d); rewrite ?app_nil_r; reflexivity.
Qed.

Lemma load_lines_loadable lines : forall es rs,
  Forall (loadable decoder) lines ->
  Static.load_lines decoder lines es rs
  = Ok (es ++ filter (has_type "entity") (objects decoder lines),
        rs ++ filter (has_type "relation") (objects decoder lines)).
Proof.
  induction lines as [|line rest IH]; intros es rs Hall.
  - simpl. rewrite !app_nil_r. reflexivity.
  - inversion Hall as [|? ? Hline Hrest]; subst.
    change (objects decoder (line :: rest))
      with ((if blank line then []
             else match decoder (strip line) with
                  | inl (JDict d) => [d]
                  | _ => []
                  end) ++ objects decoder rest).
    destruct (blank line) eqn:Hb.
    + rewrite load_lines_blank by assumption. simpl. auto.
    + destruct Hline as [Hline | [d Hd]]; [congruence|].
      rewrite (load_lines_object _ _ _ _ d) by assumption.
      rewrite Hd, IH by assumption.
      rewrite !filter_app, <- !app_assoc. reflexivity.
Qed.

(** The loader stops at the first line it cannot get through. *)
Lemma load_lines_stops pre line post es rs :
  Forall (loadable decoder) pre ->
  blank line = false ->
  Static.load_lines decoder (pre ++ line :: post) es rs
  = match decoder (strip line) with
    | inl (JDict d) =>
        Static.load_lines decoder (line :: post)
          (es ++ filter (has_type "entity") (objects decoder pre))
          (rs ++ filter (has_type "relation") (objects decoder pre))
    | inl _ => Raise (AttributeError "object has no attribute 'get'")
    | inr (Syntax msg pos) => Raise (JSONDecodeError msg (strip line) pos)
    | inr (Crash e) => Raise e
    end.
Proof.
  revert es rs. induction pre as [|l pre IH]; intros es rs Hpre Hb.
  - simpl. rewrite truthy_strip, Hb. simpl. unfold json_loads.
    rewrite !app_nil_r.
    destruct (decoder (strip line)) as [[]|[msg pos|e]]; reflexivity.
  - inversion Hpre as [|? ? Hl Hrest]; subst.
    rewrite <- app_comm_cons.
    change (objects decoder (l :: pre))
      with ((if blank l then []
             else match decoder (strip l) with
                  | inl (JDict d) => [d]
                  | _ => []
                  end) ++ objects decoder pre).
    destruct (blank l) eqn:Hbl.
    + rewrite load_lines_blank by assumption. simpl. apply IH; assumption.
    + destruct Hl as [Hl | [d Hd]]; [congruence|].
      rewrite (load_lines_object _ _ _ _ d) by assumption.
      rewrite Hd, IH by assumption.
      rewrite !filter_app, <- !app_assoc. reflexivity.
Qed.

End Loader.

Section LoaderTheorems.

Variable decoder : string -> json + failure.
Variable savefig show : Graph -> result unit.

(** C8.  When every non-blank line is a JSON object, [load_memory_file]
    returns as entities exactly the objects whose type is "entity" and as
    relations exactly those whose type is "relation", both in the order
    of the lines; blank lines and objects with another type or with no
    type are passed over without an error. *)
Theorem load_memory_file_records (lines : list string) :
  Forall (loadable decoder) lines ->
  Static.load_memory_file decoder (Ok lines)
  = Ok (filter (has_type "entity") (objects decoder lines),
        filter (has_type "relation") (objects decoder lines)).
Proof.
  intros Hall. unfold Static.load_memory_file. simpl.
  rewrite load_lines_loadable by assumption. reflexivity.
Qed.

Lemma first_unloadable (lines : list string) :
  Forall (loadable decoder) lines
  \/ exists pre line post,
       lines = pre ++ line :: post
       /\ Forall (loadable decoder) pre
       /\ blank line = false
       /\ forall d, decoder (strip line) <> inl (JDict d).
Proof.
  induction lines as [|l rest IH].
  - left. constructor.
  - assert (loadable decoder l
            \/ (blank l = false
                /\ forall d, decoder (strip l) <> inl (JDict d))) as [Hl | Hl].
    { unfold loadable. destruct (blank l); [auto|].
      destruct (decoder (strip l)) as [[]|] eqn:Hd;
        try (right; split; [reflexivity | intros d' Hd'; discriminate]).
      left. right. eauto. }
    + destruct IH as [IH | (pre & line & post & -> & Hpre & Hb & Hd)].
      * left. constructor; assumption.
      * right. exists (l :: pre), line, post. repeat split; auto.
    + right. exists [], l, rest. destruct Hl. repeat split; auto.
Qed.




End LoaderTheorems.

(** The loader on four lines of a memory file and a blank one. *)
Lemma load_memory_file_records_witness :
  Static.load_memory_file table_decoder
    (Ok [text_line (object_text alice_fields); nl;
         text_line (object_text note_fields);
         text_line ("  " ++ object_text knows_fields); text_line "{}"])
  = Ok ([object_value alice_fields], [object_value knows_fields]).
Proof.
  apply (load_memory_file_records table_decoder
           [text_line (object_text alice_fields); nl;
            text_line (object_text note_fields);
            text_line ("  " ++ object_text knows_fields); text_line "{}"]).
  repeat (apply Forall_cons;
          [first [ left; reflexivity
                 | right; eexists; vm_compute; reflexivity ] |]).
  apply Forall_nil.
Defined.



(* ================================================================== *)
(** * The graph builder *)
(* ================================================================== *)

Lemma hkey_eqb_eq (a b : hkey) : hkey_eqb a b = true <-> a = b.
Proof.
  destruct a, b; simpl; split; intros H; try discriminate; try reflexivity.
  - apply Z.eqb_eq in H. congruence.
  - inversion H. apply Z.eqb_refl.
  - apply String.eqb_eq in H. congruence.
  - inversion H. apply String.eqb_refl.
Qed.

Lemma hkey_eqb_refl (a : hkey) : hkey_eqb a a = true.
Proof. apply hkey_eqb_eq. reflexivity. Qed.

Lemma bind_ok {A B : Type} (c : result A) (k : A -> result B) (b : B) :
  bind c k = Ok b -> exists a, c = Ok a /\ k a = Ok b.
Proof. destruct c; simpl; intros H; [eauto | discriminate]. Qed.

Lemma foldM_app {A S : Type} (f : S -> A -> result S) (l1 l2 : list A) (s : S) :
  foldM f (l1 ++ l2) s = bind (foldM f l1 s) (foldM f l2).
Proof.
  revert s. induction l1 as [|x l1 IH]; intros s; simpl; [reflexivity|].
  destruct (f s x); simpl; auto.
Qed.

Lemma foldM_raises {A S : Type} (f : S -> A -> result S) (l : list A) (x : A) :
  In x l -> (forall s, is_ok (f s x) = false) ->
  forall s, is_ok (foldM f l s) = false.
Proof.
  intros Hin Hx. induction l as [|y l IH]; intros s; [contradiction|].
  simpl. destruct Hin as [-> | Hin].
  - specialize (Hx s). destruct (f s x); [discriminate | reflexivity].
  - destruct (f s y); simpl; auto.
Qed.

Section Edges.

Lemma same_edge_trans (a b u v x y : hkey) :
  same_edge a b u v = true -> same_edge u v x y = same_edge a b x y.
Proof.
  unfold same_edge. intros H.
  apply orb_true_iff in H as [H | H]; apply andb_true_iff in H as [H1 H2];
    apply hkey_eqb_eq in H1, H2; subst; [reflexivity|].
  destruct (hkey_eqb u x), (hkey_eqb v y), (hkey_eqb u y), (hkey_eqb v x);
    reflexivity.
Qed.

Lemma length_set_edge l u v rt :
  List.length (set_edge l u v rt)
  = List.length l
    + (if existsb (fun '(a, b, _) => same_edge a b u v) l then 0 else 1).
Proof.
  induction l as [|[[a b] x] l IH]; simpl; [reflexivity|].
  destruct (same_edge a b u v); simpl; [lia|]. rewrite IH. lia.
Qed.

Lemma existsb_set_edge l u v rt x y :
  existsb (fun '(a, b, _) => same_edge a b x y) (set_edge l u v rt)
  = existsb (fun '(a, b, _) => same_edge a b x y) l || same_edge u v x y.
Proof.
  induction l as [|[[a b] w] l IH]; simpl.
  - apply orb_false_r.
  - destruct (same_edge a b u v) eqn:Hab; simpl.
    + rewrite (same_edge_trans a b u v x y Hab).
      destruct (same_edge a b x y); simpl; [reflexivity|].
      symmetry. apply orb_false_r.
    + rewrite IH. apply orb_assoc.
Qed.

Lemma number_of_edges_add_edge G u v rt :
  number_of_edges (add_edge G u v rt)
  = number_of_edges G + (if has_edge G u v then 0 else 1).
Proof. apply length_set_edge. Qed.

Lemma has_edge_add_edge G u v rt x y :
  has_edge (add_edge G u v rt) x y = has_edge G x y || same_edge u v x y.
Proof. apply existsb_set_edge. Qed.

End Edges.

Section Builder.

(** The outcome of one round of the edge loop that does not raise: the
    nodes stay, and the record is either joined or passed over. *)
Lemma add_relation_ok G r G' :
  Static.add_relation G r = Ok G' ->
  (known G r = true
   /\ exists u v rt, endpoints r = Some (u, v) /\ G' = add_edge G u v rt)
  \/ (known G r = false /\ G' = G).
Proof.
  unfold Static.add_relation, known, endpoints, getitem, contains_node.
  destruct (lookup r "from") as [f|]; simpl; [|discriminate].
  destruct (as_key f) as [u|]; simpl; [|discriminate].
  destruct (has_key G u) eqn:Hu.
  - destruct (lookup r "to") as [t|]; simpl; [|discriminate].
    destruct (as_key t) as [v|]; simpl; [|discriminate].
    destruct (has_key G v) eqn:Hv; simpl.
    + destruct (lookup r "relationType") as [rt|]; simpl; [|discriminate].
      intros [= <-]. left. rewrite ?Hu, ?Hv. split; [reflexivity|]. eauto.
    + intros [= <-]. right. rewrite ?Hu, ?Hv. auto.
  - intros [= <-]. right. split; [|reflexivity].
    destruct (lookup r "to") as [t|]; [|reflexivity].
    destruct (as_key t); rewrite ?Hu; reflexivity.
Qed.

(** A record with an unknown name is passed over. *)
Lemma add_relation_dangling G r :
  dangling G r = true -> Static.add_relation G r = Ok G.
Proof.
  unfold Static.add_relation, dangling, endpoints, getitem, contains_node.
  destruct (lookup r "from") as [f|]; simpl; [|discriminate].
  destruct (lookup r "to") as [t|]; simpl; [|discriminate].
  destruct (as_key f) as [u|]; simpl; [|discriminate].
  destruct (as_key t) as [v|]; simpl; [|discriminate].
  destruct (has_key G u); simpl; [|reflexivity].
  destruct (has_key G v); simpl; [discriminate | reflexivity].
Qed.

Lemma add_relation_nodes G r G' :
  Static.add_relation G r = Ok G' -> nodes G' = nodes G.
Proof.
  intros H. destruct (add_relation_ok G r G' H)
    as [(_ & u & v & rt & _ & ->) | (_ & ->)]; reflexivity.
Qed.

Lemma add_relations_nodes rs : forall G G',
  foldM Static.add_relation rs G = Ok G' -> nodes G' = nodes G.
Proof.
  induction rs as [|r rs IH]; simpl; intros G G' H.
  - inversion H. reflexivity.
  - apply bind_ok in H as (G1 & H1 & H2).
    rewrite (IH _ _ H2). eapply add_relation_nodes; eassumption.
Qed.

Lemma known_nodes G G' r : nodes G' = nodes G -> known G' r = known G r.
Proof.
  intros H. unfold known, has_key, node_keys. rewrite H. reflexivity.
Qed.

Lemma dangling_nodes G G' r :
  nodes G' = nodes G -> dangling G' r = dangling G r.
Proof.
  intros H. unfold dangling, has_key, node_keys. rewrite H. reflexivity.
Qed.

Lemma add_entity_edges G e G' :
  Static.add_entity G e = Ok G' -> edges G' = edges G.
Proof.
  unfold Static.add_entity, add_node. intros H.
  apply bind_ok in H as (name & _ & H).
  apply bind_ok in H as (ty & _ & H).
  apply bind_ok in H as (obs & _ & H).
  apply bind_ok in H as (n & _ & H).
  apply bind_ok in H as (k & _ & H).
  destruct (has_key G k); [injection H as <-; reflexivity|].
  destruct k; try discriminate; injection H as <-; reflexivity.
Qed.

Lemma add_entities_edges es : forall G G',
  foldM Static.add_entity es G = Ok G' -> edges G' = edges G.
Proof.
  induction es as [|e es IH]; simpl; intros G G' H.
  - inversion H. reflexivity.
  - apply bind_ok in H as (G1 & H1 & H2).
    rewrite (IH _ _ H2). eapply add_entity_edges; eassumption.
Qed.

(** The builder returns a graph on well-formed records. *)
Lemma add_entities_total es : forall G,
  Forall well_formed_entity es ->
  exists G', foldM Static.add_entity es G = Ok G'.
Proof.
  induction es as [|e es IH]; intros G Hall; simpl; [eauto|].
  inversion Hall as [|? ? He Hes]; subst.
  destruct He as ((name & k & Hname & Hk & Hnone) & Hty & obs & n & Hobs & Hn).
  destruct (lookup e "entityType") as [ty|] eqn:Hty'; [|congruence].
  assert (exists G1, Static.add_entity G e = Ok G1) as [G1 H1].
  { unfold Static.add_entity, getitem, add_node.
    rewrite Hname, Hty', Hobs. simpl. rewrite Hn. simpl. rewrite Hk. simpl.
    destruct (has_key G k); [eauto|].
    destruct k; [congruence | eauto | eauto]. }
  rewrite H1. simpl. apply IH. assumption.
Qed.

Lemma add_relations_total rs : forall G,
  Forall well_formed_relation rs ->
  exists G', foldM Static.add_relation rs G = Ok G'.
Proof.
  induction rs as [|r rs IH]; intros G Hall; simpl; [eauto|].
  inversion Hall as [|? ? [He Hrt] Hrs]; subst.
  assert (exists G1, Static.add_relation G r = Ok G1) as [G1 H1].
  { unfold Static.add_relation, getitem, contains_node.
    unfold endpoints in He.
    destruct (lookup r "from") as [f|]; [|congruence].
    destruct (lookup r "to") as [t|]; [|congruence].
    destruct (lookup r "relationType") as [rt|]; [|congruence].
    simpl.
    destruct (as_key f) as [u|]; [|congruence].
    destruct (as_key t) as [v|]; [|congruence].
    simpl. destruct (has_key G u); simpl; [|eauto].
    destruct (has_key G v); simpl; eauto. }
  rewrite H1. simpl. apply IH. assumption.
Qed.

Lemma create_graph_total (entities relations : list dict) :
  Forall well_formed_entity entities ->
  Forall well_formed_relation relations ->
  exists G, Static.create_graph entities relations = Ok G.
Proof.
  intros Hes Hrs. unfold Static.create_graph.
  destruct (add_entities_total entities empty Hes) as [G0 H0].
  rewrite H0. simpl. apply add_relations_total. assumption.
Qed.

End Builder.

Section EdgeCount.

Lemma fresh_add_edge G u v rt r :
  endpoints r <> None ->
  fresh (add_edge G u v rt) r
  = fresh G r && negb (match endpoints r with
                       | Some (x, y) => same_edge u v x y
                       | None => false
                       end).
Proof.
  unfold fresh. destruct (endpoints r) as [[x y]|]; [|congruence].
  intros _. rewrite has_edge_add_edge. apply negb_orb.
Qed.

Lemma known_endpoints G r : known G r = true -> endpoints r <> None.
Proof. unfold known. destruct (endpoints r); [discriminate | discriminate]. Qed.

(** The edge loop from any graph: the count of edges grows by at most the
    number of records, and by exactly that number when every record
    joins two nodes not joined before, by the graph or by a record
    before it. *)
Lemma add_relations_count rs : forall G G',
  foldM Static.add_relation rs G = Ok G' ->
  number_of_edges G <= number_of_edges G'
  /\ number_of_edges G' <= number_of_edges G + List.length rs
  /\ (number_of_edges G' = number_of_edges G + List.length rs
      <-> Forall (fun r => known G r = true /\ fresh G r = true) rs
          /\ ForallOrdPairs (fun r1 r2 => same_link r1 r2 = false) rs).
Proof.
  induction rs as [|r rs IH]; intros G G' H.
  - simpl in H. injection H as <-. simpl.
    split; [lia | split; [lia | split; [intros _; split; constructor | lia]]].
  - simpl in H. apply bind_ok in H as (G1 & H1 & H2).
    destruct (IH _ _ H2) as (Hlo & Hhi & Heq).
    destruct (add_relation_ok _ _ _ H1)
      as [(Hk & u & v & rt & He & ->) | (Hk & ->)].
    + rewrite number_of_edges_add_edge in *.
      assert (fresh G r = negb (has_edge G u v)) as Hf
        by (unfold fresh; rewrite He; reflexivity).
      destruct (has_edge G u v) eqn:Hedge; simpl in *.
      * split; [lia | split; [lia | split]].
        -- intros Hc. lia.
        -- intros [Hall _]. inversion Hall as [|? ? [_ Hfr] _]; subst.
           rewrite Hf in Hfr. discriminate.
      * split; [lia | split; [lia | split]].
        -- intros Hc.
           assert (number_of_edges G' = number_of_edges G + 1 + List.length rs)
             as Hn by lia.
           apply Heq in Hn as [Hall Hpairs]. split.
           ++ constructor; [auto|].
              eapply Forall_impl; [|exact Hall]. intros r' [Hk' Hf'].
              rewrite (known_nodes G) in Hk' by reflexivity.
              split; [assumption|].
              rewrite fresh_add_edge in Hf'
                by (eapply known_endpoints; eassumption).
              apply andb_true_iff in Hf' as [Hf' _]. assumption.
           ++ constructor; [|assumption].
              eapply Forall_impl; [|exact Hall]. intros r' [Hk' Hf'].
              rewrite fresh_add_edge in Hf'
                by (eapply known_endpoints; eassumption).
              apply andb_true_iff in Hf' as [_ Hf'].
              unfold same_link. rewrite He.
              destruct (endpoints r') as [[x y]|]; [|reflexivity].
              apply negb_true_iff in Hf'. assumption.
        -- intros [Hall Hpairs].
           inversion Hall as [|? ? _ Hrest]; subst.
           inversion Hpairs as [|? ? Hr Hpairs']; subst.
           assert (number_of_edges G' = number_of_edges G + 1 + List.length rs)
             as Hn; [|lia].
           apply Heq. split; [|assumption].
           rewrite Forall_forall in *. intros r' Hin.
           destruct (Hrest r' Hin) as [Hk' Hf']. specialize (Hr r' Hin).
           rewrite (known_nodes G) by reflexivity. split; [assumption|].
           rewrite fresh_add_edge by (eapply known_endpoints; eassumption).
           rewrite Hf'. simpl. unfold same_link in Hr. rewrite He in Hr.
           destruct (endpoints r') as [[x y]|]; [|reflexivity].
           rewrite Hr. reflexivity.
    + simpl. split; [lia | split; [lia | split]].
      * intros Hc. lia.
      * intros [Hall _]. inversion Hall as [|? ? [Hk' _] _]; subst. congruence.
Qed.

End EdgeCount.

(** C1, as the code has it.  The graph built has at most as many edges as
    there are relation records, and as many exactly when every record
    names two nodes of the graph and no two records join the same two
    nodes, in either direction. *)
Theorem create_graph_edge_count (entities relations : list dict) (G : Graph) :
  Static.create_graph entities relations = Ok G ->
  number_of_edges G <= List.length relations
  /\ (number_of_edges G = List.length relations
      <-> Forall (fun r => known G r = true) relations
          /\ ForallOrdPairs (fun r1 r2 => same_link r1 r2 = false) relations).
Proof.
  unfold Static.create_graph. intros H.
  apply bind_ok in H as (G0 & Hnodes & Hedges).
  pose proof (add_entities_edges _ _ _ Hnodes) as He0. simpl in He0.
  pose proof (add_relations_nodes _ _ _ Hedges) as Hn.
  destruct (add_relations_count _ _ _ Hedges) as (_ & Hhi & Heq).
  assert (number_of_edges G0 = 0) as Hz
    by (unfold number_of_edges; rewrite He0; reflexivity).
  rewrite Hz in *. simpl in *. split; [assumption|].
  rewrite Heq. split; intros [Hall Hpairs]; (split; [|assumption]);
    (eapply Forall_impl; [|exact Hall]); simpl.
  - intros r [Hk _]. rewrite (known_nodes G0) by assumption. assumption.
  - intros r Hk. rewrite (known_nodes G0) in Hk by assumption.
    split; [assumption|]. unfold fresh, has_edge. rewrite He0.
    destruct (endpoints r) as [[u v]|]; reflexivity.
Qed.

(** Two entities and one relation between them. *)
Lemma create_graph_edge_count_witness :
  exists G,
    Static.create_graph
      [entity "Alice" "person" []; entity "Bob" "person" []]
      [relation "Alice" "Bob" "knows"] = Ok G
    /\ number_of_edges G <= 1
    /\ (number_of_edges G = 1
        <-> Forall (fun r => known G r = true) [relation "Alice" "Bob" "knows"]
            /\ ForallOrdPairs (fun r1 r2 => same_link r1 r2 = false)
                 [relation "Alice" "Bob" "knows"]).
Proof.
  eexists. split; [reflexivity|].
  apply (create_graph_edge_count
           [entity "Alice" "person" []; entity "Bob" "person" []]
           [relation "Alice" "Bob" "knows"]).
  reflexivity.
Defined.

(** C1 as stated fails: two records between the same two known entities
    give one edge. *)
Lemma create_graph_parallel_relations :
  exists G,
    Static.create_graph
      [entity "Alice" "person" []; entity "Bob" "person" []]
      [relation "Alice" "Bob" "knows"; relation "Bob" "Alice" "likes"] = Ok G
    /\ Forall (fun r => known G r = true)
         [relation "Alice" "Bob" "knows"; relation "Bob" "Alice" "likes"]
    /\ number_of_edges G = 1
    /\ List.length [relation "Alice" "Bob" "knows";
                    relation "Bob" "Alice" "likes"] = 2.
Proof.
  eexists. split; [reflexivity|]. repeat split; repeat constructor.
Qed.

(** C4, as the code has it.  The builder returns the graph only.  A
    relation record with a name that is not a node is passed over: with
    it or without it, the outcome of [create_graph] is the same. *)
Theorem create_graph_drops_silently
  (entities rs1 rs2 : list dict) (r : dict) (G0 : Graph) :
  foldM Static.add_entity entities empty = Ok G0 ->
  dangling G0 r = true ->
  Static.create_graph entities (rs1 ++ r :: rs2)
  = Static.create_graph entities (rs1 ++ rs2).
Proof.
  intros Hnodes Hd. unfold Static.create_graph. rewrite Hnodes. simpl.
  rewrite !foldM_app.
  destruct (foldM Static.add_relation rs1 G0) as [G1|] eqn:H1; [|reflexivity].
  simpl. rewrite add_relation_dangling; [reflexivity|].
  rewrite (dangling_nodes G0); [assumption|].
  eapply add_relations_nodes; eassumption.
Qed.

(** A relation to an entity that is not there, among two that hold. *)
Lemma create_graph_drops_silently_witness :
  Static.create_graph
    [entity "Alice" "person" []; entity "Bob" "person" []]
    ([relation "Alice" "Bob" "knows"]
     ++ relation "Alice" "Zed" "knows" :: [relation "Bob" "Alice" "likes"])
  = Static.create_graph
      [entity "Alice" "person" []; entity "Bob" "person" []]
      ([relation "Alice" "Bob" "knows"] ++ [relation "Bob" "Alice" "likes"]).
Proof.
  eapply (create_graph_drops_silently
            [entity "Alice" "person" []; entity "Bob" "person" []]
            [relation "Alice" "Bob" "knows"]
            [relation "Bob" "Alice" "likes"]
            (relation "Alice" "Zed" "knows")).
  - reflexivity.
  - reflexivity.
Defined.

(** C4 as stated fails: with one dropped relation and with none,
    [create_graph] returns the same value, a graph and no count. *)
Lemma create_graph_returns_no_count :
  exists G,
    Static.create_graph [entity "Alice" "person" []] [] = Ok G
    /\ Static.create_graph [entity "Alice" "person" []]
         [relation "Alice" "Zed" "knows"] = Ok G
    /\ dropped G [] = 0
    /\ dropped G [relation "Alice" "Zed" "knows"] = 1.
Proof.
  eexists. split; [reflexivity|]. repeat split.
Qed.

(* ================================================================== *)
(** * Records without observations *)
(* ================================================================== *)

Section MissingObservations.

Lemma bind_io_ok {A B : Type} (c : io A) (k : A -> io B) :
  is_ok (snd (bind_io c k)) = true ->
  exists a, snd c = Ok a /\ is_ok (snd (k a)) = true.
Proof.
  destruct c as [out [a|e]]; simpl; [|discriminate].
  destruct (k a) as [out' r] eqn:Hk. simpl. intros H. exists a.
  rewrite Hk. auto.
Qed.

Lemma add_entity_no_observations G e :
  lookup e "observations" = None -> is_ok (Static.add_entity G e) = false.
Proof.
  intros H. unfold Static.add_entity, getitem. rewrite H.
  destruct (lookup e "name"); simpl; [|reflexivity].
  destruct (lookup e "entityType"); reflexivity.
Qed.

Lemma sparse_entities_no_observations entities e :
  In e entities -> lookup e "observations" = None ->
  is_ok (Static.sparse_entities entities) = false.
Proof.
  intros Hin H. induction entities as [|x rest IH]; [contradiction|].
  simpl. destruct Hin as [-> | Hin].
  - unfold getitem. rewrite H. reflexivity.
  - destruct (getitem x "observations") as [obs|]; simpl; [|reflexivity].
    destruct (len obs); simpl; [|reflexivity].
    specialize (IH Hin).
    destruct (Static.sparse_entities rest); [discriminate | reflexivity].
Qed.

End MissingObservations.

(** C3, as the code has it.  An entity record without the field
    "observations" is not read as a record with no observation: the
    graph builder and the sparse-entity scan both raise, and
    [find_redundancies] ends with an exception.  The exception of the
    node loop at such a record is the [KeyError] of the field when the
    record has its name and its type. *)
Theorem missing_observations_raise
  (entities relations : list dict) (e : dict) :
  In e entities ->
  lookup e "observations" = None ->
  is_ok (Static.create_graph entities relations) = false
  /\ is_ok (Static.sparse_entities entities) = false
  /\ is_ok (snd (Static.find_redundancies entities relations)) = false
  /\ forall G name ty,
       lookup e "name" = Some name ->
       lookup e "entityType" = Some ty ->
       Static.add_entity G e = Raise (KeyError "observations").
Proof.
  intros Hin Hobs.
  pose proof (sparse_entities_no_observations entities e Hin Hobs) as Hsparse.
  repeat split.
  - unfold Static.create_graph.
    pose proof (foldM_raises Static.add_entity entities e Hin
                  (fun G => add_entity_no_observations G e Hobs) empty) as H.
    destruct (foldM Static.add_entity entities empty);
      [discriminate | reflexivity].
  - assumption.
  - destruct (is_ok (snd (Static.find_redundancies entities relations)))
      eqn:Hok; [exfalso | reflexivity].
    unfold Static.find_redundancies in Hok.
    apply bind_io_ok in Hok as (? & _ & Hok).
    apply bind_io_ok in Hok as (? & _ & Hok).
    apply bind_io_ok in Hok as (? & _ & Hok).
    apply bind_io_ok in Hok as (? & _ & Hok).
    apply bind_io_ok in Hok as (sparse & Hs & _).
    simpl in Hs. rewrite Hs in Hsparse. discriminate.
  - intros G name ty Hname Hty. unfold Static.add_entity, getitem.
    rewrite Hname, Hty, Hobs. reflexivity.
Qed.

(** A record without observations after one that has them. *)
Lemma missing_observations_raise_witness :
  is_ok (Static.create_graph
           [entity "Bob" "person" ["tall"]; object_value alice_fields] [])
  = false
  /\ is_ok (Static.sparse_entities
              [entity "Bob" "person" ["tall"]; object_value alice_fields])
     = false
  /\ is_ok (snd (Static.find_redundancies
                   [entity "Bob" "person" ["tall"]; object_value alice_fields]
                   []))
     = false
  /\ forall G name ty,
       lookup (object_value alice_fields) "name" = Some name ->
       lookup (object_value alice_fields) "entityType" = Some ty ->
       Static.add_entity G (object_value alice_fields)
       = Raise (KeyError "observations").
Proof.
  apply (missing_observations_raise
           [entity "Bob" "person" ["tall"]; object_value alice_fields] []
           (object_value alice_fields)).
  - right. left. reflexivity.
  - reflexivity.
Defined.

(** C3 as stated fails: for a record without observations no node with
    0 observations is built and the record is not reported as sparse;
    both computations raise [KeyError]. *)
Lemma missing_observations_not_empty :
  lookup (object_value alice_fields) "observations" = None
  /\ Static.create_graph [object_value alice_fields] []
     = Raise (KeyError "observations")
  /\ Static.sparse_entities [object_value alice_fields]
     = Raise (KeyError "observations")
  /\ Static.create_graph
       [object_value alice_fields ++ [("observations", JList [])]] []
     = Ok {| nodes := [(HStr "Alice",
                        {| entity_type := JStr "person"; observations := 0 |})];
             edges := [] |}.
Proof. repeat split. Qed.

(* ================================================================== *)
(** * Degree centrality and the ranking *)
(* ================================================================== *)

Lemma Forall_perm {A : Type} (P : A -> Prop) (l l' : list A) :
  Permutation l l' -> Forall P l -> Forall P l'.
Proof.
  intros Hp Hl. rewrite Forall_forall in *. intros x Hx.
  apply Hl. eapply Permutation_in; [apply Permutation_sym|]; eassumption.
Qed.

Section StableSort.

Context {A : Type}.
Variable key : A -> Q.

Lemma Qltb_lt (a b : Q) : Qltb a b = true <-> (a < b)%Q.
Proof.
  unfold Qltb. rewrite negb_true_iff. split.
  - intros H. apply Qnot_le_lt. intros Hle.
    apply Qle_bool_iff in Hle. congruence.
  - intros H. destruct (Qle_bool b a) eqn:Hle; [|reflexivity].
    apply Qle_bool_iff in Hle. exfalso. exact (Qlt_not_le _ _ H Hle).
Qed.

Lemma Qltb_ge (a b : Q) : Qltb a b = false <-> (b <= a)%Q.
Proof.
  unfold Qltb. rewrite negb_false_iff. apply Qle_bool_iff.
Qed.

Lemma insert_desc_perm (x : A) (l : list A) :
  Permutation (insert_desc Qltb key x l) (x :: l).
Proof.
  induction l as [|y l IH]; simpl; [reflexivity|].
  destruct (Qltb (key x) (key y)); [|reflexivity].
  rewrite IH. apply perm_swap.
Qed.

Lemma sorted_reverse_perm (l : list A) :
  Permutation (sorted_reverse Qltb key l) l.
Proof.
  induction l as [|x l IH]; simpl; [reflexivity|].
  rewrite insert_desc_perm. constructor. assumption.
Qed.

Lemma insert_desc_map {B : Type} (f : B -> A) (x : B) (l : list B) :
  map f (insert_desc Qltb (fun b => key (f b)) x l)
  = insert_desc Qltb key (f x) (map f l).
Proof.
  induction l as [|y l IH]; simpl; [reflexivity|].
  destruct (Qltb (key (f x)) (key (f y))); simpl; [rewrite IH|]; reflexivity.
Qed.

Lemma sorted_reverse_map {B : Type} (f : B -> A) (l : list B) :
  map f (sorted_reverse Qltb (fun b => key (f b)) l)
  = sorted_reverse Qltb key (map f l).
Proof.
  induction l as [|x l IH]; simpl; [reflexivity|].
  rewrite insert_desc_map, IH. reflexivity.
Qed.

End StableSort.

Section Ranking.

(** The key of each position. *)
Variable c : nat -> Q.

(** Inserting a position that precedes all the others keeps the
    ranking. *)
Lemma insert_desc_ranked (x : nat) (l : list nat) :
  Forall (fun y => x < y) l ->
  StronglySorted (precedes c) l ->
  StronglySorted (precedes c) (insert_desc Qltb c x l).
Proof.
  intros Hx Hs. induction Hs as [|y l Hs IH Hy]; simpl.
  - repeat constructor.
  - inversion Hx as [|? ? Hxy Hxl]; subst.
    destruct (Qltb (c x) (c y)) eqn:Hlt.
    + constructor; [auto|].
      apply Qltb_lt in Hlt.
      apply (Forall_perm _ (x :: l));
        [apply Permutation_sym, insert_desc_perm|].
      constructor; [left; assumption | assumption].
    + apply Qltb_ge in Hlt. unfold precedes in *.
      assert (precedes c x y) as Hbxy.
      { destruct (Qle_lt_or_eq _ _ Hlt) as [H | H]; [left; assumption|].
        right. split; [symmetry; assumption | assumption]. }
      constructor; [constructor; assumption|].
      constructor; [assumption|].
      rewrite Forall_forall in *. intros z Hz.
      specialize (Hy z Hz). specialize (Hxl z Hz).
      destruct Hy as [Hzy | [Hyz _]].
      * left. eapply Qlt_le_trans; eassumption.
      * destruct Hbxy as [Hyx | [Hxy' _]].
        -- left. rewrite <- Hyz. assumption.
        -- right. split; [rewrite Hxy'; assumption | assumption].
Qed.

Lemma sorted_reverse_ranked (l : list nat) :
  StronglySorted lt l ->
  StronglySorted (precedes c) (sorted_reverse Qltb c l).
Proof.
  intros Hs. induction Hs as [|x l Hs IH Hx]; simpl; [constructor|].
  apply insert_desc_ranked; [|assumption].
  apply (Forall_perm _ l); [apply Permutation_sym, sorted_reverse_perm|].
  assumption.
Qed.

End Ranking.

Lemma seq_increasing (len : nat) : forall start,
  StronglySorted lt (seq start len).
Proof.
  induction len as [|len IH]; intros start; simpl; constructor; [apply IH|].
  apply Forall_forall. intros y Hy. apply in_seq in Hy. lia.
Qed.

Lemma map_nth_seq {A : Type} (l : list A) (d : A) :
  map (fun i => nth i l d) (seq 0 (List.length l)) = l.
Proof.
  induction l as [|x l IH]; simpl; [reflexivity|].
  rewrite <- seq_shift, map_map. simpl. rewrite IH. reflexivity.
Qed.

(** [sorted(l, key=key, reverse=True)] is [l] read in the order of the
    ranking of its positions. *)
Lemma sorted_reverse_by_ranking {A : Type} (key : A -> Q) (l : list A) (d : A) :
  exists order,
    Permutation order (seq 0 (List.length l))
    /\ StronglySorted (precedes (fun i => key (nth i l d))) order
    /\ sorted_reverse Qltb key l = map (fun i => nth i l d) order.
Proof.
  exists (sorted_reverse Qltb (fun i => key (nth i l d))
            (seq 0 (List.length l))).
  split; [apply sorted_reverse_perm|]. split.
  - apply sorted_reverse_ranked, seq_increasing.
  - rewrite (sorted_reverse_map key (fun i => nth i l d)), map_nth_seq.
    reflexivity.
Qed.

Section Centrality.

(** [G.degree] counts the edge ends. *)
Lemma degree_edge_ends (G : Graph) (k : hkey) :
  degree G k = edge_ends G k.
Proof.
  unfold degree, edge_ends, touches, loops_at.
  induction (edges G) as [|[[a b] x] l IH]; [reflexivity|].
  simpl in *. destruct (hkey_eqb a k), (hkey_eqb b k); simpl; lia.
Qed.

Lemma node_count_nonzero (n : nat) :
  2 <= n -> Qeq_bool (inject_Z (Z.of_nat n) - 1) 0 = false.
Proof.
  intros Hn. destruct (Qeq_bool (inject_Z (Z.of_nat n) - 1) 0) eqn:H;
    [|reflexivity].
  apply Qeq_bool_iff in H. unfold Qeq in H. simpl in H. lia.
Qed.

(** The dictionary of centralities, for two nodes or more. *)
Lemma degree_centrality_large (G : Graph) :
  2 <= number_of_nodes G ->
  degree_centrality G
  = Ok (map (fun n =>
               (n, (inject_Z (Z.of_nat (degree G n))
                    * (1 / (inject_Z (Z.of_nat (number_of_nodes G)) - 1)))%Q))
            (node_keys G)).
Proof.
  intros Hn. unfold degree_centrality, div.
  destruct (number_of_nodes G <=? 1) eqn:Hle; [apply Nat.leb_le in Hle; lia|].
  rewrite node_count_nonzero by assumption. reflexivity.
Qed.

Lemma degree_centrality_small (G : Graph) :
  number_of_nodes G <= 1 ->
  degree_centrality G = Ok (map (fun n => (n, 1%Q)) (node_keys G)).
Proof.
  intros Hn. unfold degree_centrality.
  apply Nat.leb_le in Hn. rewrite Hn. reflexivity.
Qed.

Lemma degree_centrality_values (G : Graph) :
  exists items,
    degree_centrality G = Ok items
    /\ Forall2 (fun n item => fst item = n /\ (snd item == centrality G n)%Q)
         (node_keys G) items.
Proof.
  destruct (le_lt_dec (number_of_nodes G) 1) as [Hn | Hn].
  - eexists. split; [apply degree_centrality_small; assumption|].
    unfold centrality. apply Nat.leb_le in Hn. rewrite Hn.
    induction (node_keys G); simpl; constructor; auto. split; reflexivity.
  - eexists. split; [apply degree_centrality_large; lia|].
    unfold centrality.
    destruct (number_of_nodes G <=? 1) eqn:Hle; [apply Nat.leb_le in Hle; lia|].
    induction (node_keys G); simpl; constructor; auto.
    split; [reflexivity|]. simpl. rewrite degree_edge_ends.
    unfold Qdiv. rewrite Qmult_1_l. reflexivity.
Qed.

End Centrality.

(** C5, as the library has it.  The centrality computation never divides
    by zero, and for a graph of 0 or 1 nodes it gives every node the
    centrality 1. *)
Theorem degree_centrality_small_graph (G : Graph) :
  number_of_nodes G <= 1 ->
  is_ok (degree_centrality G) = true
  /\ degree_centrality G = Ok (map (fun n => (n, 1%Q)) (node_keys G))
  /\ forall n c' items,
       degree_centrality G = Ok items -> In (n, c') items -> c' = 1%Q.
Proof.
  intros Hn. rewrite degree_centrality_small by assumption.
  split; [reflexivity|]. split; [reflexivity|].
  intros n c' items [= <-] Hin.
  apply in_map_iff in Hin as (k & [= _ <-] & _). reflexivity.
Qed.

(** The graph of one entity. *)
Lemma degree_centrality_small_graph_witness :
  is_ok (degree_centrality alice_graph) = true
  /\ degree_centrality alice_graph = Ok [(HStr "Alice", 1%Q)]
  /\ forall n c' items,
       degree_centrality alice_graph = Ok items ->
       In (n, c') items -> c' = 1%Q.
Proof.
  apply (degree_centrality_small_graph alice_graph).
  vm_compute. lia.
Defined.

(** C5 as stated fails: the only node of a graph of one entity has
    centrality 1, not 0. *)
Lemma degree_centrality_single_node :
  exists G,
    Static.create_graph [entity "Alice" "person" []] [] = Ok G
    /\ number_of_nodes G = 1
    /\ degree_centrality G = Ok [(HStr "Alice", 1%Q)]
    /\ ~ (1 == 0)%Q.
Proof.
  eexists. split; [reflexivity|]. repeat split. discriminate.
Qed.

(** C7.  The centralities are computed for all the nodes of the graph,
    each from the edge ends counted at the node, and [top_connected] is
    the first five entries (all of them when there are fewer) of their
    ranking: descending centrality, nodes of equal centrality in
    insertion order. *)
Theorem top_connected_ranking (G : Graph) :
  exists items order,
    degree_centrality G = Ok items
    /\ Forall2 (fun n item => fst item = n /\ (snd item == centrality G n)%Q)
         (node_keys G) items
    /\ Permutation order (seq 0 (number_of_nodes G))
    /\ StronglySorted (ranks_before items) order
    /\ Static.top_connected G
       = Ok (map (fun i => nth i items (HNone, 0%Q)) (firstn 5 order))
    /\ (forall items', Static.top_connected G = Ok items' ->
        List.length items' = Nat.min 5 (number_of_nodes G)).
Proof.
  destruct (degree_centrality_values G) as (items & Hdc & Hvals).
  destruct (sorted_reverse_by_ranking snd items (HNone, 0%Q))
    as (order & Hperm & Hsorted & Heq).
  assert (List.length items = number_of_nodes G) as Hlen.
  { apply Forall2_length in Hvals. unfold number_of_nodes, node_keys in *.
    rewrite length_map in Hvals. congruence. }
  assert (Static.top_connected G
          = Ok (map (fun i => nth i items (HNone, 0%Q)) (firstn 5 order)))
    as Htop.
  { unfold Static.top_connected. rewrite Hdc. unfold bind.
    rewrite Heq, firstn_map. reflexivity. }
  exists items, order. rewrite <- Hlen.
  repeat split; try assumption.
  intros items' Hi.
  assert (items' = map (fun i => nth i items (HNone, 0%Q)) (firstn 5 order))
    as -> by congruence.
  rewrite length_map, length_firstn.
  rewrite (Permutation_length Hperm), length_seq. reflexivity.
Qed.

(** Six entities in the order Carol, Alice, Bob, Dave, Eve, Frank, with
    Alice and Carol both related to Bob: Bob comes first, Carol and
    Alice tie and keep their order, and Frank, the last of the
    unconnected three, is cut. *)
Lemma top_connected_ranking_witness :
  exists G,
    Static.create_graph team_entities team_relations = Ok G
    /\ node_keys G
       = [HStr "Carol"; HStr "Alice"; HStr "Bob"; HStr "Dave"; HStr "Eve";
          HStr "Frank"]
    /\ (exists items order,
          degree_centrality G = Ok items
          /\ Forall2 (fun n item =>
                        fst item = n /\ (snd item == centrality G n)%Q)
               (node_keys G) items
          /\ Permutation order (seq 0 (number_of_nodes G))
          /\ StronglySorted (ranks_before items) order
          /\ Static.top_connected G
             = Ok (map (fun i => nth i items (HNone, 0%Q)) (firstn 5 order))
          /\ (forall items', Static.top_connected G = Ok items' ->
              List.length items' = Nat.min 5 (number_of_nodes G)))
    /\ exists top,
         Static.top_connected G = Ok top
         /\ map fst top
            = [HStr "Bob"; HStr "Carol"; HStr "Alice"; HStr "Dave";
               HStr "Eve"]
         /\ Forall2 Qeq (map snd top) [2 # 5; 1 # 5; 1 # 5; 0; 0]%Q.
Proof.
  eexists. split; [vm_compute; reflexivity|].
  split; [reflexivity|].
  split; [apply top_connected_ranking|].
  eexists. split; [vm_compute; reflexivity|].
  split; [reflexivity|].
  repeat (constructor; [reflexivity|]). constructor.
Defined.

(* ================================================================== *)
(** * The redundancy scan *)
(* ================================================================== *)

Section Substring.

Lemma prefix_spec (a : string) : forall b,
  prefix a b = true <-> exists q, b = (a ++ q)%string.
Proof.
  induction a as [|c a IH]; intros b.
  - split; [intros _; exists b; reflexivity|].
    intros _. destruct b; reflexivity.
  - destruct b as [|c' b]; simpl.
    + split; [discriminate | intros [q Hq]; discriminate].
    + destruct (ascii_dec c c') as [-> | Hne].
      * rewrite IH. split; intros [q Hq]; exists q; congruence.
      * split; [discriminate | intros [q Hq]; congruence].
Qed.

Lemma contains_eq (a b : string) :
  contains a b
  = prefix a b
    || match b with
       | EmptyString => false
       | String _ rest => contains a rest
       end.
Proof. destruct b; reflexivity. Qed.

Lemma contains_spec (a b : string) : contains a b = true <-> occurs_in a b.
Proof.
  unfold occurs_in. split.
  - induction b as [|c b IH]; rewrite contains_eq, orb_true_iff; intros [H | H].
    + apply prefix_spec in H as [q Hq]. exists EmptyString, q. exact Hq.
    + discriminate.
    + apply prefix_spec in H as [q Hq]. exists EmptyString, q. exact Hq.
    + destruct (IH H) as (p & q & ->). exists (String c p), q. reflexivity.
  - intros (p & q & ->). induction p as [|c p IH].
    + rewrite contains_eq. apply orb_true_iff. left.
      apply prefix_spec. exists q. reflexivity.
    + change (String c p ++ a ++ q)%string with (String c (p ++ a ++ q)).
      rewrite contains_eq, IH. apply orb_true_r.
Qed.

Lemma flagged_spec (a b : string) : flagged a b = true <-> similar_names a b.
Proof.
  unfold flagged, similar_names.
  rewrite andb_true_iff, orb_true_iff, negb_true_iff, !contains_spec,
    String.eqb_neq.
  tauto.
Qed.

End Substring.

Section Scan.

Lemma compare_names_strings (a b : string) (acc : list (json * json)) :
  Static.compare_names (JStr a) acc (JStr b)
  = Ok (if flagged a b then acc ++ [(JStr a, JStr b)] else acc).
Proof.
  unfold Static.compare_names, flagged. simpl.
  destruct (contains (lower a) (lower b) || contains (lower b) (lower a));
    [|reflexivity].
  destruct (negb (a =? b)%string); reflexivity.
Qed.

Lemma inner_loop (a : string) (bs : list string) : forall acc,
  foldM (Static.compare_names (JStr a)) (map JStr bs) acc
  = Ok (acc ++ map (fun b => (JStr a, JStr b)) (filter (flagged a) bs)).
Proof.
  induction bs as [|b bs IH]; intros acc; simpl.
  - rewrite app_nil_r. reflexivity.
  - rewrite compare_names_strings. simpl. rewrite IH.
    destruct (flagged a b); simpl; [rewrite <- app_assoc|]; reflexivity.
Qed.

Lemma scan_row (i : nat) (a : string) (bs : list string) : forall start,
  map (fun x : nat * nat * (string * string) =>
         (JStr (fst (snd x)), JStr (snd (snd x))))
      (map (fun '(j, b) => ((i, j), (a, b)))
           (filter (fun '(j, b) => flagged a b) (enumerate start bs)))
  = map (fun b => (JStr a, JStr b)) (filter (flagged a) bs).
Proof.
  unfold enumerate.
  induction bs as [|b bs IH]; intros start; simpl; [reflexivity|].
  destruct (flagged a b); simpl; rewrite IH; reflexivity.
Qed.

Lemma outer_loop (ns : list string) : forall start acc,
  Static.similar_loop (map JStr ns) acc
  = Ok (acc ++ map (fun x : nat * nat * (string * string) =>
                      (JStr (fst (snd x)), JStr (snd (snd x))))
                   (scan (enumerate start ns))).
Proof.
  induction ns as [|a ns IH]; intros start acc.
  - simpl. rewrite app_nil_r. reflexivity.
  - change (enumerate start (a :: ns))
      with ((start, a) :: enumerate (S start) ns).
    simpl. rewrite inner_loop. simpl. rewrite (IH (S start)).
    rewrite map_app, scan_row, app_assoc. reflexivity.
Qed.

Lemma in_enumerate (ns : list string) : forall start i a,
  In (i, a) (enumerate start ns)
  <-> start <= i < start + List.length ns /\ nth (i - start) ns EmptyString = a.
Proof.
  unfold enumerate.
  induction ns as [|b ns IH]; intros start i a; simpl.
  - split; [contradiction | lia].
  - rewrite IH. split.
    + intros [[= <- <-] | [Hi Ha]].
      * rewrite Nat.sub_diag. split; [lia | reflexivity].
      * split; [lia|].
        replace (i - start) with (S (i - S start)) by lia. assumption.
    + intros [Hi Ha]. destruct (Nat.eq_dec i start) as [-> | Hne].
      * left. rewrite Nat.sub_diag in Ha. congruence.
      * right. split; [lia|].
        replace (i - start) with (S (i - S start)) in Ha by lia. assumption.
Qed.

Lemma enumerate_tags (ns : list string) : forall start,
  map fst (enumerate start ns) = seq start (List.length ns).
Proof.
  unfold enumerate.
  induction ns as [|b ns IH]; intros start; simpl; [|rewrite IH]; reflexivity.
Qed.

(** With increasing tags, the scan holds exactly the flagged pairs of an
    entry and a later entry. *)
Lemma in_scan (l : list (nat * string)) :
  StronglySorted lt (map fst l) ->
  forall i j a b,
    In ((i, j), (a, b)) (scan l)
    <-> In (i, a) l /\ In (j, b) l /\ i < j /\ flagged a b = true.
Proof.
  induction l as [|[i0 a0] l IH]; intros Hs i j a b; simpl.
  - tauto.
  - simpl in Hs. apply StronglySorted_inv in Hs as [Hs Hlt].
    rewrite Forall_forall in Hlt.
    assert (forall k x, In (k, x) l -> i0 < k) as Htag.
    { intros k x Hin. apply Hlt. change k with (fst (k, x)).
      apply in_map. assumption. }
    rewrite in_app_iff, (IH Hs), in_map_iff. split.
    + intros [([j' b'] & [= <- <- <- <-] & Hin) | (Hi & Hj & Hij & Hf)].
      * apply filter_In in Hin as [Hin Hf]. pose proof (Htag _ _ Hin). auto.
      * auto.
    + intros ([[= <- <-] | Hi] & [[= <- <-] | Hj] & Hij & Hf).
      * lia.
      * left. exists (j, b). split; [reflexivity|].
        apply filter_In. auto.
      * pose proof (Htag _ _ Hi). lia.
      * right. auto.
Qed.




End Scan.


Section Sparse.


End Sparse.



(* ================================================================== *)
(** * The two reports side by side *)
(* ================================================================== *)

(** C10.  The two scripts do not print the same "most connected" lines.
    For three entities and two relation records between the first two,
    the static report counts one connection for each of the two and
    lists the third with none; the interactive report counts two for
    each and does not list the third. *)
Theorem most_connected_reports_differ :
  exists G,
    Static.create_graph
      [entity "Alice" "person" ["a"]; entity "Bob" "person" ["b"];
       entity "Carol" "person" ["c"]]
      [relation "Alice" "Bob" "knows"; relation "Alice" "Bob" "likes"] = Ok G
    /\ connected_items (fst (Static.analyze_graph G))
       = [(HStr "Alice", 1); (HStr "Bob", 1); (HStr "Carol", 0)]
    /\ connected_items
         (fst (Interactive.print_analysis
                 [entity "Alice" "person" ["a"]; entity "Bob" "person" ["b"];
                  entity "Carol" "person" ["c"]]
                 [relation "Alice" "Bob" "knows";
                  relation "Alice" "Bob" "likes"]))
       = [(HStr "Alice", 2); (HStr "Bob", 2)].
Proof.
  eexists. split; [reflexivity|]. split; vm_compute; reflexivity.
Qed.

(* ================================================================== *)
(** * The nodes of the graph built *)
(* ================================================================== *)

Section Nodes.

Lemma hkey_eqb_neq (a b : hkey) : hkey_eqb a b = false <-> a <> b.
Proof.
  split.
  - intros H Heq. apply hkey_eqb_eq in Heq. congruence.
  - intros H. destruct (hkey_eqb a b) eqn:E; [|reflexivity].
    apply hkey_eqb_eq in E. contradiction.
Qed.

Lemma hkey_eqb_sym (a b : hkey) : hkey_eqb a b = hkey_eqb b a.
Proof.
  destruct (hkey_eqb a b) eqn:E.
  - apply hkey_eqb_eq in E. subst. symmetry. apply hkey_eqb_refl.
  - symmetry. apply hkey_eqb_neq. apply hkey_eqb_neq in E. congruence.
Qed.

Lemma mem_in (k : hkey) (l : list hkey) :
  existsb (fun k' => hkey_eqb k' k) l = true <-> In k l.
Proof.
  rewrite existsb_exists. split.
  - intros (x & Hx & He). apply hkey_eqb_eq in He. subst. assumption.
  - intros H. exists k. split; [assumption | apply hkey_eqb_refl].
Qed.

Lemma has_key_in (G : Graph) (k : hkey) :
  has_key G k = true <-> In k (node_keys G).
Proof. apply mem_in. Qed.

Lemma set_attrs_keys l k a :
  map fst (set_attrs l k a)
  = if existsb (fun k' => hkey_eqb k' k) (map fst l) then map fst l
    else map fst l ++ [k].
Proof.
  induction l as [|[k' a'] l IH]; simpl; [reflexivity|].
  destruct (hkey_eqb k' k) eqn:E; simpl; [reflexivity|].
  rewrite IH. destruct (existsb _ (map fst l)); reflexivity.
Qed.

Lemma set_attrs_in l k a : In (k, a) (set_attrs l k a).
Proof.
  induction l as [|[k' a'] l IH]; simpl; [auto|].
  destruct (hkey_eqb k' k) eqn:E; simpl; [|auto].
  apply hkey_eqb_eq in E. subst. auto.
Qed.

Lemma set_attrs_other l k a k' a' :
  k' <> k -> In (k, a) l -> In (k, a) (set_attrs l k' a').
Proof.
  intros Hne. induction l as [|[k0 a0] l IH]; simpl; [contradiction|].
  intros [[= -> ->] | Hin].
  - apply hkey_eqb_neq in Hne. rewrite hkey_eqb_sym in Hne.
    rewrite Hne. simpl. auto.
  - destruct (hkey_eqb k0 k'); simpl; auto.
Qed.

Lemma NoDup_append {A : Type} (l1 l2 : list A) :
  NoDup l1 -> NoDup l2 -> (forall x, In x l1 -> In x l2 -> False) ->
  NoDup (l1 ++ l2).
Proof.
  intros H1 H2 H. induction H1 as [|x l1 Hx H1 IH]; simpl; [assumption|].
  constructor.
  - rewrite in_app_iff. intros [Hin | Hin]; [contradiction|].
    apply (H x); simpl; auto.
  - apply IH. intros y Hy. apply H. simpl. auto.
Qed.

(** One round of the node loop that does not raise. *)
Lemma add_entity_ok G e G' :
  Static.add_entity G e = Ok G' ->
  exists k a,
    name_key e = Some k /\ attrs_of e = Some a
    /\ nodes G' = set_attrs (nodes G) k a /\ edges G' = edges G.
Proof.
  unfold Static.add_entity, add_node, name_key, attrs_of, getitem.
  destruct (lookup e "name") as [name|]; simpl; [|discriminate].
  destruct (lookup e "entityType") as [ty|]; simpl; [|discriminate].
  destruct (lookup e "observations") as [obs|]; simpl; [|discriminate].
  destruct (len obs) as [n|]; simpl; [|discriminate].
  destruct (as_key name) as [k|]; simpl; [|discriminate].
  intros H. exists k, {| entity_type := ty; observations := n |}.
  destruct (has_key G k); [injection H as <-; auto|].
  destruct k; try discriminate; injection H as <-; auto.
Qed.

Lemma add_entity_keys G e G' k :
  Static.add_entity G e = Ok G' -> name_key e = Some k ->
  node_keys G'
  = if has_key G k then node_keys G else node_keys G ++ [k].
Proof.
  intros H Hk. apply add_entity_ok in H as (k' & a & Hk' & _ & Hn & _).
  assert (k' = k) as -> by congruence.
  unfold node_keys, has_key, node_keys. rewrite Hn. apply set_attrs_keys.
Qed.

Lemma add_entities_keys es : forall G G',
  foldM Static.add_entity es G = Ok G' ->
  (NoDup (node_keys G) -> NoDup (node_keys G'))
  /\ (forall k, In k (node_keys G')
                <-> In k (node_keys G) \/ In k (entity_keys es))
  /\ List.length (entity_keys es) = List.length es.
Proof.
  induction es as [|e es IH]; intros G G' H; simpl in H.
  - injection H as <-. simpl. repeat split; auto. tauto.
  - apply bind_ok in H as (G1 & H1 & H2).
    destruct (IH _ _ H2) as (Hnd & Hin & Hlen).
    destruct (add_entity_ok _ _ _ H1) as (k & a & Hk & _ & _ & _).
    pose proof (add_entity_keys _ _ _ k H1 Hk) as Hkeys.
    unfold entity_keys in *. simpl. rewrite Hk. simpl.
    split; [|split].
    + intros HG. apply Hnd. rewrite Hkeys.
      destruct (has_key G k) eqn:Hh; [assumption|].
      apply NoDup_append; [assumption | repeat constructor; auto |].
      intros x Hx [<- | []]. apply has_key_in in Hx. congruence.
    + intros x. rewrite Hin, Hkeys.
      destruct (has_key G k) eqn:Hh.
      * apply has_key_in in Hh. split; [tauto|].
        intros [H | [<- | H]]; auto.
      * rewrite in_app_iff. simpl. tauto.
    + rewrite Hlen. reflexivity.
Qed.

End Nodes.

Section NodeAttributes.

Lemma add_entities_keep es : forall G G' k a,
  foldM Static.add_entity es G = Ok G' ->
  In (k, a) (nodes G) ->
  (forall e, In e es -> name_key e <> Some k) ->
  In (k, a) (nodes G').
Proof.
  induction es as [|e es IH]; intros G G' k a H Hin Hother; simpl in H.
  - injection H as <-. assumption.
  - apply bind_ok in H as (G1 & H1 & H2).
    apply (IH G1 G' k a H2); [|intros e' He'; apply Hother; simpl; auto].
    destruct (add_entity_ok _ _ _ H1) as (k' & a' & Hk' & _ & Hn & _).
    rewrite Hn. apply set_attrs_other; [|assumption].
    intros ->. apply (Hother e); simpl; auto.
Qed.

Lemma unique_attrs (l : list (hkey * node_attrs)) k a a' :
  NoDup (map fst l) -> In (k, a) l -> In (k, a') l -> a = a'.
Proof.
  induction l as [|[k0 a0] l IH]; simpl; [contradiction|].
  intros Hnd H1 H2. apply NoDup_cons_iff in Hnd as [Hnot Hnd].
  assert (forall x, In (k0, x) l -> False) as Hk0.
  { intros x Hx. apply Hnot. change k0 with (fst (k0, x)).
    apply in_map. assumption. }
  destruct H1 as [H1 | H1], H2 as [H2 | H2].
  - congruence.
  - injection H1 as -> ->. exfalso. eauto.
  - injection H2 as -> ->. exfalso. eauto.
  - auto.
Qed.

End NodeAttributes.

Lemma built_nodes (entities relations : list dict) (G : Graph) :
  Static.create_graph entities relations = Ok G ->
  NoDup (node_keys G)
  /\ (forall k, In k (node_keys G) <-> In k (entity_keys entities))
  /\ number_of_nodes G
     = List.length (nodup hkey_eq_dec (entity_keys entities))
  /\ number_of_nodes G <= List.length entities.
Proof.
  unfold Static.create_graph. intros H.
  apply bind_ok in H as (G0 & Hnodes & Hedges).
  pose proof (add_relations_nodes _ _ _ Hedges) as Hn.
  destruct (add_entities_keys _ _ _ Hnodes) as (Hnd & Hin & Hlen).
  assert (node_keys G = node_keys G0) as Hk
    by (unfold node_keys; rewrite Hn; reflexivity).
  assert (NoDup (node_keys G)) as HndG
    by (rewrite Hk; apply Hnd; constructor).
  assert (forall k, In k (node_keys G) <-> In k (entity_keys entities)) as HinG.
  { intros k. rewrite Hk, Hin. simpl. tauto. }
  assert (number_of_nodes G
          = List.length (nodup hkey_eq_dec (entity_keys entities))) as Hcount.
  { unfold number_of_nodes. rewrite <- (length_map fst).
    apply Permutation_length, NoDup_Permutation.
    - exact HndG.
    - apply NoDup_nodup.
    - intros k. rewrite nodup_In. apply HinG. }
  repeat split; try assumption; try apply HinG.
  rewrite Hcount, <- Hlen.
  apply NoDup_incl_length; [apply NoDup_nodup|].
  intros k Hk'. apply nodup_In in Hk'. assumption.
Qed.

(** The nodes of the graph built are the distinct names of the entity
    records: no node twice, a node for every name and no other, so that
    the node count is the number of distinct names and at most the
    number of records. *)
Theorem create_graph_nodes (entities relations : list dict) (G : Graph) :
  Static.create_graph entities relations = Ok G ->
  NoDup (node_keys G)
  /\ (forall k, In k (node_keys G) <-> In k (entity_keys entities))
  /\ number_of_nodes G
     = List.length (nodup hkey_eq_dec (entity_keys entities))
  /\ number_of_nodes G <= List.length entities.
Proof. apply built_nodes. Qed.

(** Three records, two of them with the same name. *)
Lemma create_graph_nodes_witness :
  exists G,
    Static.create_graph
      [entity "Alice" "person" []; entity "Bob" "person" [];
       entity "Alice" "robot" ["x"]] [] = Ok G
    /\ NoDup (node_keys G)
    /\ (forall k, In k (node_keys G)
                  <-> In k (entity_keys
                              [entity "Alice" "person" [];
                               entity "Bob" "person" [];
                               entity "Alice" "robot" ["x"]]))
    /\ number_of_nodes G = 2
    /\ number_of_nodes G <= 3.
Proof.
  eexists. split; [reflexivity|].
  apply (create_graph_nodes
           [entity "Alice" "person" []; entity "Bob" "person" [];
            entity "Alice" "robot" ["x"]] []).
  reflexivity.
Defined.

(** Last write wins: the attributes of a node are those of the last
    entity record with its name, and the node has no other
    attributes. *)
Theorem create_graph_last_entity_wins
  (pre post relations : list dict) (e : dict) (k : hkey) (G : Graph) :
  Static.create_graph (pre ++ e :: post) relations = Ok G ->
  name_key e = Some k ->
  (forall e', In e' post -> name_key e' <> Some k) ->
  exists a,
    attrs_of e = Some a
    /\ In (k, a) (nodes G)
    /\ forall a', In (k, a') (nodes G) -> a' = a.
Proof.
  unfold Static.create_graph. intros H Hk Hpost.
  apply bind_ok in H as (G0 & Hnodes & Hedges).
  pose proof (add_relations_nodes _ _ _ Hedges) as Hn.
  destruct (add_entities_keys _ _ _ Hnodes) as (Hnd & _ & _).
  rewrite foldM_app in Hnodes. apply bind_ok in Hnodes as (G1 & _ & Hrest).
  simpl in Hrest. apply bind_ok in Hrest as (G2 & H2 & H3).
  destruct (add_entity_ok _ _ _ H2) as (k' & a & Hk' & Ha & Hn2 & _).
  assert (k' = k) as -> by congruence.
  assert (In (k, a) (nodes G0)) as Hin.
  { apply (add_entities_keep post G2 G0 k a H3); [|assumption].
    rewrite Hn2. apply set_attrs_in. }
  exists a. rewrite Hn. repeat split; try assumption.
  intros a' Ha'. apply (unique_attrs (nodes G0) k); try assumption.
  apply Hnd. constructor.
Qed.

(** The second Alice overwrites the first. *)
Lemma create_graph_last_entity_wins_witness :
  exists G a,
    Static.create_graph
      ([entity "Alice" "person" []]
       ++ entity "Alice" "robot" ["x"] :: [entity "Bob" "person" []]) []
    = Ok G
    /\ attrs_of (entity "Alice" "robot" ["x"]) = Some a
    /\ In (HStr "Alice", a) (nodes G)
    /\ forall a', In (HStr "Alice", a') (nodes G) -> a' = a.
Proof.
  eexists.
  destruct (create_graph_last_entity_wins
              [entity "Alice" "person" []] [entity "Bob" "person" []] []
              (entity "Alice" "robot" ["x"]) (HStr "Alice") _ eq_refl eq_refl)
    as (a & Ha).
  - intros e' [<- | []]. discriminate.
  - exists a. split; [reflexivity | exact Ha].
Defined.

(* ================================================================== *)
(** * The edges of the graph built *)
(* ================================================================== *)

Section EdgeInvariant.

Lemma existsb_same {A : Type} (f g : A -> bool) (l : list A) :
  (forall x, f x = g x) -> existsb f l = existsb g l.
Proof.
  intros H. induction l as [|x l IH]; simpl; [|rewrite H, IH]; reflexivity.
Qed.

Lemma set_edge_Forall (q : hkey * hkey -> Prop) l u v rt :
  Forall (fun e => q (fst e)) l -> q (u, v) ->
  Forall (fun e => q (fst e)) (set_edge l u v rt).
Proof.
  intros Hl Hq. induction Hl as [|[[a b] x] l Hx Hl IH]; simpl.
  - repeat constructor. assumption.
  - destruct (same_edge a b u v); constructor; auto.
Qed.

Lemma set_edge_simple l u v rt :
  ForallOrdPairs (fun e1 e2 => parallel e1 e2 = false) l ->
  ForallOrdPairs (fun e1 e2 => parallel e1 e2 = false) (set_edge l u v rt).
Proof.
  intros H. induction H as [|[[a b] x] l Hx Hl IH]; simpl.
  - repeat constructor.
  - destruct (same_edge a b u v) eqn:Hab.
    + constructor; assumption.
    + constructor; [|assumption].
      apply (set_edge_Forall (fun p => same_edge a b (fst p) (snd p) = false));
        assumption.
Qed.

Lemma set_edge_in l u v rt :
  exists a b, In (a, b, rt) (set_edge l u v rt) /\ same_edge a b u v = true.
Proof.
  induction l as [|[[a b] x] l IH]; simpl.
  - exists u, v. split; [auto|]. unfold same_edge.
    rewrite !hkey_eqb_refl. reflexivity.
  - destruct (same_edge a b u v) eqn:Hab.
    + exists a, b. simpl. auto.
    + destruct IH as (a' & b' & Hin & Hs). exists a', b'. simpl. auto.
Qed.

Lemma set_edge_other l u v rt a b x :
  same_edge a b u v = false ->
  In (a, b, x) l -> In (a, b, x) (set_edge l u v rt).
Proof.
  intros Hs. induction l as [|[[a' b'] x'] l IH]; simpl; [contradiction|].
  intros [[= -> -> ->] | Hin].
  - rewrite Hs. simpl. auto.
  - destruct (same_edge a' b' u v); simpl; auto.
Qed.

(** The edge loop keeps the graph simple, with edges between nodes. *)
Lemma add_relations_simple rs : forall G G',
  foldM Static.add_relation rs G = Ok G' ->
  Forall (fun e => has_key G (fst (fst e)) = true
                   /\ has_key G (snd (fst e)) = true) (edges G) ->
  ForallOrdPairs (fun e1 e2 => parallel e1 e2 = false) (edges G) ->
  Forall (fun e => has_key G' (fst (fst e)) = true
                   /\ has_key G' (snd (fst e)) = true) (edges G')
  /\ ForallOrdPairs (fun e1 e2 => parallel e1 e2 = false) (edges G').
Proof.
  induction rs as [|r rs IH]; intros G G' H Hn Hs; simpl in H.
  - injection H as <-. auto.
  - apply bind_ok in H as (G1 & H1 & H2).
    apply (IH _ _ H2);
      destruct (add_relation_ok _ _ _ H1)
        as [(Hk & u & v & rt & He & ->) | (_ & ->)]; try assumption.
    + unfold known in Hk. rewrite He in Hk.
      apply andb_true_iff in Hk as [Hu Hv]. simpl.
      apply (set_edge_Forall
               (fun p => has_key G (fst p) = true /\ has_key G (snd p) = true));
        [assumption | auto].
    + simpl. apply set_edge_simple. assumption.
Qed.

(** The edge loop, seen from the pairs joined. *)
Lemma add_relations_has_edge rs : forall G G' u v,
  foldM Static.add_relation rs G = Ok G' ->
  has_edge G' u v
  = has_edge G u v || existsb (fun r => known G r && joins r u v) rs.
Proof.
  induction rs as [|r rs IH]; intros G G' u v H; simpl in H.
  - injection H as <-. simpl. rewrite orb_false_r. reflexivity.
  - apply bind_ok in H as (G1 & H1 & H2).
    rewrite (IH _ _ u v H2). simpl.
    destruct (add_relation_ok _ _ _ H1)
      as [(Hk & a & b & rt & He & ->) | (Hk & ->)].
    + assert (existsb (fun r' => known (add_edge G a b rt) r' && joins r' u v) rs
              = existsb (fun r' => known G r' && joins r' u v) rs) as ->.
      { apply existsb_same. intros r'. rewrite (known_nodes G); reflexivity. }
      assert (joins r u v = same_edge a b u v) as ->
        by (unfold joins; rewrite He; reflexivity).
      rewrite has_edge_add_edge, Hk. simpl. symmetry. apply orb_assoc.
    + rewrite Hk. reflexivity.
Qed.

End EdgeInvariant.

Lemma built_simple (entities relations : list dict) (G : Graph) :
  Static.create_graph entities relations = Ok G ->
  (forall a b rt, In (a, b, rt) (edges G) ->
                  In a (node_keys G) /\ In b (node_keys G))
  /\ ForallOrdPairs (fun e1 e2 => parallel e1 e2 = false) (edges G).
Proof.
  unfold Static.create_graph. intros H.
  apply bind_ok in H as (G0 & Hnodes & Hedges).
  pose proof (add_entities_edges _ _ _ Hnodes) as He0. simpl in He0.
  destruct (add_relations_simple _ _ _ Hedges) as (Hn & Hs).
  - rewrite He0. constructor.
  - rewrite He0. constructor.
  - split; [|assumption]. intros a b rt Hin.
    rewrite Forall_forall in Hn. destruct (Hn _ Hin) as [Ha Hb].
    simpl in *. split; apply has_key_in; assumption.
Qed.

(** The graph built is simple and closed: every edge joins two nodes of
    the graph, and no two edges join the same two nodes, in either
    direction. *)
Theorem create_graph_simple (entities relations : list dict) (G : Graph) :
  Static.create_graph entities relations = Ok G ->
  (forall a b rt, In (a, b, rt) (edges G) ->
                  In a (node_keys G) /\ In b (node_keys G))
  /\ ForallOrdPairs (fun e1 e2 => parallel e1 e2 = false) (edges G).
Proof. apply built_simple. Qed.

(** Two entities and two relations between them, one to a third name. *)
Lemma create_graph_simple_witness :
  exists G,
    Static.create_graph
      [entity "Alice" "person" []; entity "Bob" "person" []]
      [relation "Alice" "Bob" "knows"; relation "Bob" "Alice" "likes";
       relation "Alice" "Zed" "knows"] = Ok G
    /\ (forall a b rt, In (a, b, rt) (edges G) ->
                       In a (node_keys G) /\ In b (node_keys G))
    /\ ForallOrdPairs (fun e1 e2 => parallel e1 e2 = false) (edges G).
Proof.
  eexists. split; [reflexivity|].
  apply (create_graph_simple
           [entity "Alice" "person" []; entity "Bob" "person" []]
           [relation "Alice" "Bob" "knows"; relation "Bob" "Alice" "likes";
            relation "Alice" "Zed" "knows"]).
  reflexivity.
Defined.

Lemma built_has_edge
  (entities relations : list dict) (G : Graph) (u v : hkey) :
  Static.create_graph entities relations = Ok G ->
  (has_edge G u v = true
   <-> exists r, In r relations /\ known G r = true /\ joins r u v = true).
Proof.
  unfold Static.create_graph. intros H.
  apply bind_ok in H as (G0 & Hnodes & Hedges).
  pose proof (add_entities_edges _ _ _ Hnodes) as He0. simpl in He0.
  pose proof (add_relations_nodes _ _ _ Hedges) as Hn.
  rewrite (add_relations_has_edge _ _ _ u v Hedges).
  assert (has_edge G0 u v = false) as ->
    by (unfold has_edge; rewrite He0; reflexivity).
  simpl. rewrite existsb_exists. split.
  - intros (r & Hin & Hr). apply andb_true_iff in Hr as [Hk Hj].
    exists r. rewrite (known_nodes G0) by assumption. auto.
  - intros (r & Hin & Hk & Hj). exists r. split; [assumption|].
    rewrite (known_nodes G0) in Hk by assumption. rewrite Hk, Hj. reflexivity.
Qed.

(** Two nodes are joined by an edge of the graph built exactly when some
    relation record names the two of them, in either direction, and both
    are nodes. *)
Theorem create_graph_edges_from_relations
  (entities relations : list dict) (G : Graph) (u v : hkey) :
  Static.create_graph entities relations = Ok G ->
  (has_edge G u v = true
   <-> exists r, In r relations /\ known G r = true /\ joins r u v = true).
Proof. apply built_has_edge. Qed.

(** Bob and Alice are joined by the relation from Alice to Bob. *)
Lemma create_graph_edges_from_relations_witness :
  exists G,
    Static.create_graph
      [entity "Alice" "person" []; entity "Bob" "person" []]
      [relation "Alice" "Bob" "knows"] = Ok G
    /\ (has_edge G (HStr "Bob") (HStr "Alice") = true
        <-> exists r, In r [relation "Alice" "Bob" "knows"]
                      /\ known G r = true
                      /\ joins r (HStr "Bob") (HStr "Alice") = true).
Proof.
  eexists. split; [reflexivity|].
  apply (create_graph_edges_from_relations
           [entity "Alice" "person" []; entity "Bob" "person" []]
           [relation "Alice" "Bob" "knows"]).
  reflexivity.
Defined.

Section LastRelation.

Lemma add_relations_keep rs : forall G G' a b x u v,
  foldM Static.add_relation rs G = Ok G' ->
  In (a, b, x) (edges G) ->
  same_edge a b u v = true ->
  (forall r, In r rs -> joins r u v = false) ->
  In (a, b, x) (edges G').
Proof.
  induction rs as [|r rs IH]; intros G G' a b x u v H Hin Hs Hno; simpl in H.
  - injection H as <-. assumption.
  - apply bind_ok in H as (G1 & H1 & H2).
    apply (IH G1 G' a b x u v H2); try assumption;
      [|intros r' Hr'; apply Hno; simpl; auto].
    destruct (add_relation_ok _ _ _ H1)
      as [(Hk & u' & v' & rt & He & ->) | (_ & ->)]; [|assumption].
    simpl. apply set_edge_other; [|assumption].
    assert (joins r u v = false) as Hj by (apply Hno; simpl; auto).
    unfold joins in Hj. rewrite He in Hj.
    destruct (same_edge a b u' v') eqn:Hab; [|reflexivity].
    rewrite (same_edge_trans a b u' v' u v Hab) in Hj. congruence.
Qed.

Lemma same_edge_sym (a b u v : hkey) : same_edge a b u v = same_edge u v a b.
Proof.
  unfold same_edge.
  rewrite (hkey_eqb_sym a u), (hkey_eqb_sym b v),
    (hkey_eqb_sym a v), (hkey_eqb_sym b u).
  destruct (hkey_eqb u a), (hkey_eqb v b), (hkey_eqb v a), (hkey_eqb u b);
    reflexivity.
Qed.

(** A round of the edge loop on a record with two known names. *)
Lemma add_relation_joined G r G' :
  Static.add_relation G r = Ok G' ->
  known G r = true ->
  exists u v rt,
    endpoints r = Some (u, v) /\ relation_type r = Some rt
    /\ G' = add_edge G u v rt.
Proof.
  unfold Static.add_relation, known, endpoints, relation_type, getitem,
    contains_node.
  destruct (lookup r "from") as [f|]; simpl; [|discriminate].
  destruct (as_key f) as [u|]; simpl; [|discriminate].
  destruct (lookup r "to") as [t|]; simpl;
    [|destruct (has_key G u); simpl; intros; congruence].
  destruct (as_key t) as [v|]; simpl;
    [|destruct (has_key G u); simpl; intros; congruence].
  destruct (has_key G u); simpl; [|intros; congruence].
  destruct (has_key G v); simpl; [|intros; congruence].
  destruct (lookup r "relationType") as [rt|]; simpl; [|discriminate].
  intros [= <-] _. exists u, v, rt. auto.
Qed.

End LastRelation.

(** Parallel relations collapse, last one wins: the edge between two
    nodes carries the relation type of the last relation record that
    joins them. *)
Theorem create_graph_last_relation_wins
  (entities pre post : list dict) (r : dict) (u v : hkey) (G : Graph) :
  Static.create_graph entities (pre ++ r :: post) = Ok G ->
  known G r = true ->
  endpoints r = Some (u, v) ->
  (forall r', In r' post -> joins r' u v = false) ->
  exists a b rt,
    relation_type r = Some rt
    /\ In (a, b, rt) (edges G)
    /\ same_edge a b u v = true.
Proof.
  unfold Static.create_graph. intros H Hk He Hpost.
  apply bind_ok in H as (G0 & Hnodes & Hedges).
  pose proof (add_relations_nodes _ _ _ Hedges) as Hn.
  rewrite foldM_app in Hedges. apply bind_ok in Hedges as (G1 & Hpre & Hrest).
  simpl in Hrest. apply bind_ok in Hrest as (G2 & H2 & H3).
  pose proof (add_relations_nodes _ _ _ Hpre) as Hn1.
  assert (known G1 r = true) as Hk1.
  { rewrite <- Hk. symmetry. apply known_nodes. congruence. }
  destruct (add_relation_joined _ _ _ H2 Hk1)
    as (u' & v' & rt & He' & Hrt & ->).
  assert (u' = u /\ v' = v) as [-> ->] by (split; congruence).
  destruct (set_edge_in (edges G1) u v rt) as (a & b & Hin & Hs).
  exists a, b, rt. split; [assumption|]. split; [|assumption].
  apply (add_relations_keep post (add_edge G1 u v rt) G a b rt u v);
    assumption.
Qed.

(** Alice knows Bob, then Bob likes Alice: the edge says "likes". *)
Lemma create_graph_last_relation_wins_witness :
  exists G a b rt,
    Static.create_graph
      [entity "Alice" "person" []; entity "Bob" "person" []]
      ([relation "Alice" "Bob" "knows"]
       ++ relation "Bob" "Alice" "likes" :: [relation "Alice" "Zed" "knows"])
    = Ok G
    /\ relation_type (relation "Bob" "Alice" "likes") = Some rt
    /\ In (a, b, rt) (edges G)
    /\ same_edge a b (HStr "Bob") (HStr "Alice") = true.
Proof.
  eexists.
  destruct (create_graph_last_relation_wins
              [entity "Alice" "person" []; entity "Bob" "person" []]
              [relation "Alice" "Bob" "knows"]
              [relation "Alice" "Zed" "knows"]
              (relation "Bob" "Alice" "likes") (HStr "Bob") (HStr "Alice")
              _ eq_refl eq_refl eq_refl)
    as (a & b & rt & H).
  - intros r' [<- | []]. reflexivity.
  - exists a, b, rt. split; [reflexivity | exact H].
Defined.

Section Handshake.

Lemma list_sum_add {A : Type} (f g : A -> nat) (l : list A) :
  list_sum (map (fun x => f x + g x) l)
  = list_sum (map f l) + list_sum (map g l).
Proof.
  induction l as [|x l IH]; simpl; [reflexivity|]. rewrite IH. lia.
Qed.

Lemma indicator_sum (keys : list hkey) (a : hkey) :
  NoDup keys -> In a keys ->
  list_sum (map (fun k => if hkey_eqb a k then 1 else 0) keys) = 1.
Proof.
  intros Hnd. induction Hnd as [|k keys Hk Hnd IH]; simpl; [contradiction|].
  intros [-> | Hin].
  - rewrite hkey_eqb_refl.
    assert (list_sum (map (fun k => if hkey_eqb a k then 1 else 0) keys) = 0)
      as ->; [|reflexivity].
    clear IH Hnd. induction keys as [|k keys IH]; simpl; [reflexivity|].
    destruct (hkey_eqb a k) eqn:E.
    + apply hkey_eqb_eq in E. subst. exfalso. apply Hk. simpl. auto.
    + apply IH. intros H. apply Hk. simpl. auto.
  - destruct (hkey_eqb a k) eqn:E.
    + apply hkey_eqb_eq in E. subst. contradiction.
    + auto.
Qed.

Lemma degree_sum (keys : list hkey) (l : list (hkey * hkey * json)) :
  NoDup keys ->
  (forall a b rt, In (a, b, rt) l -> In a keys /\ In b keys) ->
  list_sum (map (fun k =>
                   list_sum (map (fun '(a, b, _) =>
                                    (if hkey_eqb a k then 1 else 0)
                                    + (if hkey_eqb b k then 1 else 0)) l))
                keys)
  = 2 * List.length l.
Proof.
  intros Hnd. induction l as [|[[a b] rt] l IH]; intros Hin; simpl.
  - clear. induction keys as [|k keys IH]; simpl; auto.
  - rewrite list_sum_add, IH by (intros; eapply Hin; simpl; eauto).
    rewrite list_sum_add.
    destruct (Hin a b rt) as [Ha Hb]; [simpl; auto|].
    rewrite !indicator_sum by assumption. lia.
Qed.

End Handshake.

(** Handshake: in the graph built, the degrees of the nodes add up to
    twice the number of edges. *)
Theorem create_graph_degree_sum (entities relations : list dict) (G : Graph) :
  Static.create_graph entities relations = Ok G ->
  list_sum (map (degree G) (node_keys G)) = 2 * number_of_edges G.
Proof.
  intros H.
  destruct (built_simple _ _ _ H) as [Hclosed _].
  destruct (built_nodes _ _ _ H) as [Hnd _].
  unfold degree, number_of_edges. apply degree_sum; assumption.
Qed.

(** A graph with a self-loop: degrees 3, 1 and 0, two edges. *)
Lemma create_graph_degree_sum_witness :
  exists G,
    Static.create_graph
      [entity "Alice" "person" []; entity "Bob" "person" [];
       entity "Carol" "person" []]
      [relation "Alice" "Bob" "knows"; relation "Alice" "Alice" "is"] = Ok G
    /\ map (degree G) (node_keys G) = [3; 1; 0]
    /\ list_sum (map (degree G) (node_keys G)) = 2 * number_of_edges G.
Proof.
  eexists. split; [reflexivity|]. split; [reflexivity|].
  apply (create_graph_degree_sum
           [entity "Alice" "person" []; entity "Bob" "person" [];
            entity "Carol" "person" []]
           [relation "Alice" "Bob" "knows"; relation "Alice" "Alice" "is"]).
  reflexivity.
Defined.

Section ShortCircuit.

Lemma create_graph_split entities pre G1 :
  Static.create_graph entities pre = Ok G1 ->
  forall rest,
    Static.create_graph entities (pre ++ rest)
    = foldM Static.add_relation rest G1.
Proof.
  unfold Static.create_graph. intros H rest.
  apply bind_ok in H as (G0 & Hnodes & Hedges).
  rewrite Hnodes. simpl. rewrite foldM_app, Hedges. reflexivity.
Qed.

End ShortCircuit.

(** The test of the edge loop stops at the first name that fails.  After
    relation records that went through, a record whose 'from' is not a
    node is passed over whatever else it holds or lacks; a record whose
    'from' is a node and that has no 'to' raises [KeyError]; so does a
    record with no 'from'. *)
Theorem create_graph_short_circuit
  (entities pre post : list dict) (r : dict) (G1 : Graph) :
  Static.create_graph entities pre = Ok G1 ->
  (forall k, from_key r = Some k -> has_key G1 k = false ->
     Static.create_graph entities (pre ++ r :: post)
     = Static.create_graph entities (pre ++ post))
  /\ (forall k, from_key r = Some k -> has_key G1 k = true ->
        lookup r "to" = None ->
        Static.create_graph entities (pre ++ r :: post)
        = Raise (KeyError "to"))
  /\ (lookup r "from" = None ->
      Static.create_graph entities (pre ++ r :: post)
      = Raise (KeyError "from")).
Proof.
  intros H. rewrite !(create_graph_split _ _ _ H). simpl.
  unfold Static.add_relation, from_key, getitem, contains_node.
  repeat split.
  - intros k Hk Hh. destruct (lookup r "from") as [f|]; [|discriminate].
    simpl. destruct (as_key f) as [k'|]; [|discriminate].
    injection Hk as ->. simpl. rewrite Hh. reflexivity.
  - intros k Hk Hh Hto. destruct (lookup r "from") as [f|]; [|discriminate].
    simpl. destruct (as_key f) as [k'|]; [|discriminate].
    injection Hk as ->. simpl. rewrite Hh, Hto. reflexivity.
  - intros Hfrom. rewrite Hfrom. reflexivity.
Qed.

(** A record with an unknown 'from' and nothing else, and one with a
    known 'from' and no 'to'. *)
Lemma create_graph_short_circuit_witness :
  Static.create_graph [entity "Alice" "person" []]
    ([relation "Alice" "Alice" "is"] ++ [("from", JStr "Zed")] :: [])
  = Static.create_graph [entity "Alice" "person" []]
      ([relation "Alice" "Alice" "is"] ++ [])
  /\ Static.create_graph [entity "Alice" "person" []]
       ([relation "Alice" "Alice" "is"] ++ [("from", JStr "Alice")] :: [])
     = Raise (KeyError "to").
Proof.
  destruct (create_graph_short_circuit
              [entity "Alice" "person" []] [relation "Alice" "Alice" "is"] []
              [("from", JStr "Zed")] _ eq_refl) as (H1 & _ & _).
  destruct (create_graph_short_circuit
              [entity "Alice" "person" []] [relation "Alice" "Alice" "is"] []
              [("from", JStr "Alice")] _ eq_refl) as (_ & H2 & _).
  split.
  - apply (H1 (HStr "Zed")); reflexivity.
  - apply (H2 (HStr "Alice")); reflexivity.
Defined.

(* ================================================================== *)
(** * Degrees *)
(* ================================================================== *)

Section Degree.

Lemma same_edge_loop (x y a : hkey) :
  same_edge x y a a = true -> x = a /\ y = a.
Proof.
  unfold same_edge. intros H.
  apply orb_true_iff in H as [H | H]; apply andb_true_iff in H as [H1 H2];
    apply hkey_eqb_eq in H1, H2; auto.
Qed.

Lemma in_edges_has_edge (G : Graph) a b rt :
  In (a, b, rt) (edges G) -> has_edge G a b = true.
Proof.
  intros H. unfold has_edge. apply existsb_exists.
  exists (a, b, rt). split; [assumption|].
  unfold same_edge. rewrite !hkey_eqb_refl. reflexivity.
Qed.

Lemma has_edge_in_edges (G : Graph) u v :
  has_edge G u v = true ->
  exists a b rt, In (a, b, rt) (edges G) /\ same_edge a b u v = true.
Proof.
  unfold has_edge. intros H.
  apply existsb_exists in H as ([[a b] rt] & Hin & Hs). eauto.
Qed.

Lemma degree_length_neighbors (G : Graph) (k : hkey) :
  degree G k = List.length (neighbors G k).
Proof.
  unfold degree, neighbors.
  induction (edges G) as [|[[a b] rt] l IH]; simpl; [reflexivity|].
  rewrite length_app, length_app, IH.
  destruct (hkey_eqb a k), (hkey_eqb b k); reflexivity.
Qed.

Lemma in_neighbors (l : list (hkey * hkey * json)) (k x : hkey) :
  In x (flat_map (fun '(a, b, _) =>
                    (if hkey_eqb a k then [b] else [])
                    ++ (if hkey_eqb b k then [a] else [])) l)
  <-> exists a b rt, In (a, b, rt) l /\ same_edge a b k x = true.
Proof.
  rewrite in_flat_map. split.
  - intros ([[a b] rt] & Hin & Hx). exists a, b, rt. split; [assumption|].
    unfold same_edge. apply in_app_or in Hx as [Hx | Hx].
    + destruct (hkey_eqb a k) eqn:Ea; [|contradiction].
      destruct Hx as [<- | []]. rewrite hkey_eqb_refl. reflexivity.
    + destruct (hkey_eqb b k) eqn:Eb; [|contradiction].
      destruct Hx as [<- | []]. rewrite hkey_eqb_refl. apply orb_true_r.
  - intros (a & b & rt & Hin & Hs). exists (a, b, rt). split; [assumption|].
    unfold same_edge in Hs. apply in_or_app.
    apply orb_true_iff in Hs as [Hs | Hs];
      apply andb_true_iff in Hs as [H1 H2]; apply hkey_eqb_eq in H2.
    + left. rewrite H1. subst. simpl. auto.
    + right. rewrite H2 in *. apply hkey_eqb_eq in H1. subst.
      rewrite hkey_eqb_refl. simpl. auto.
Qed.

(** Without a loop at [k], the neighbours of [k] in a simple graph are
    distinct. *)
Lemma neighbors_nodup (l : list (hkey * hkey * json)) (k : hkey) :
  ForallOrdPairs (fun e1 e2 => parallel e1 e2 = false) l ->
  (forall rt, ~ In (k, k, rt) l) ->
  NoDup (flat_map (fun '(a, b, _) =>
                     (if hkey_eqb a k then [b] else [])
                     ++ (if hkey_eqb b k then [a] else [])) l).
Proof.
  intros Hs. induction Hs as [|[[a b] rt] l Hx Hs IH]; intros Hloop; simpl.
  - constructor.
  - assert (NoDup (flat_map (fun '(a, b, _) =>
                               (if hkey_eqb a k then [b] else [])
                               ++ (if hkey_eqb b k then [a] else [])) l))
      as Hrest by (apply IH; intros rt' H; apply (Hloop rt'); simpl; auto).
    apply NoDup_append; [| assumption |].
    + destruct (hkey_eqb a k) eqn:Ea, (hkey_eqb b k) eqn:Eb; simpl;
        repeat constructor; simpl; auto.
      apply hkey_eqb_eq in Ea, Eb. subst. exfalso.
      apply (Hloop rt). simpl. auto.
    + intros x Hx1 Hx2.
      apply in_neighbors in Hx2 as (a' & b' & rt' & Hin & Hs').
      rewrite Forall_forall in Hx. specialize (Hx _ Hin).
      unfold parallel in Hx. simpl in Hx.
      assert (same_edge a b k x = true) as Hab.
      { assert (In x (flat_map (fun '(a, b, _) =>
                                  (if hkey_eqb a k then [b] else [])
                                  ++ (if hkey_eqb b k then [a] else []))
                               [(a, b, rt)])) as Hone
          by (simpl; rewrite app_nil_r; assumption).
        apply in_neighbors in Hone
          as (a0 & b0 & rt0 & [[= <- <- <-] | []] & Hone').
        assumption. }
      rewrite <- (same_edge_trans a b k x a' b' Hab) in Hx.
      rewrite same_edge_sym in Hx. congruence.
Qed.

End Degree.

Section DegreeBound.

Lemma same_edge_member (a b k x : hkey) :
  same_edge a b k x = true -> (a = k \/ b = k) /\ (x = a \/ x = b).
Proof.
  unfold same_edge. intros H.
  apply orb_true_iff in H as [H | H]; apply andb_true_iff in H as [H1 H2];
    apply hkey_eqb_eq in H1, H2; subst; auto.
Qed.

Lemma built_no_loop (entities relations : list dict) (G : Graph) :
  Static.create_graph entities relations = Ok G ->
  (forall r u, In r relations -> endpoints r <> Some (u, u)) ->
  forall k rt, ~ In (k, k, rt) (edges G).
Proof.
  intros H Hno k rt Hin.
  apply in_edges_has_edge in Hin.
  apply (built_has_edge _ _ _ k k H) in Hin as (r & Hr & _ & Hj).
  unfold joins in Hj. destruct (endpoints r) as [[x y]|] eqn:He; [|discriminate].
  apply same_edge_loop in Hj as [-> ->]. exact (Hno r k Hr He).
Qed.

Lemma centrality_le_1 (G : Graph) (k : hkey) :
  degree G k <= number_of_nodes G - 1 ->
  (0 <= centrality G k <= 1)%Q.
Proof.
  intros Hd. unfold centrality. rewrite <- degree_edge_ends.
  destruct (number_of_nodes G <=? 1) eqn:Hn.
  - split; discriminate.
  - apply Nat.leb_gt in Hn.
    assert (0 < inject_Z (Z.of_nat (number_of_nodes G)) - 1)%Q as Hpos.
    { unfold Qlt. simpl. lia. }
    split.
    + apply Qle_shift_div_l; [assumption|].
      rewrite Qmult_0_l. unfold Qle. simpl. lia.
    + apply Qle_shift_div_r; [assumption|].
      rewrite Qmult_1_l. unfold Qle. simpl. lia.
Qed.

End DegreeBound.

(** When no relation record names one entity twice, a node of the graph
    built has at most one edge to each other node: its degree is at
    most the node count less one, and its centrality lies between 0
    and 1. *)
Theorem create_graph_degree_bound
  (entities relations : list dict) (G : Graph) (k : hkey) :
  Static.create_graph entities relations = Ok G ->
  (forall r u, In r relations -> endpoints r <> Some (u, u)) ->
  In k (node_keys G) ->
  degree G k <= number_of_nodes G - 1
  /\ (0 <= centrality G k <= 1)%Q.
Proof.
  intros H Hno Hk.
  assert (degree G k <= number_of_nodes G - 1) as Hd;
    [|split; [assumption | apply centrality_le_1; assumption]].
  destruct (built_simple _ _ _ H) as [Hclosed Hsimple].
  destruct (built_nodes _ _ _ H) as [Hnd _].
  pose proof (built_no_loop _ _ _ H Hno) as Hloop.
  rewrite degree_length_neighbors.
  assert (List.length (neighbors G k)
          <= List.length (remove hkey_eq_dec k (node_keys G))) as Hle.
  { apply NoDup_incl_length.
    - apply neighbors_nodup; [assumption | apply Hloop].
    - intros x Hx. apply in_neighbors in Hx as (a & b & rt & Hin & Hs).
      apply in_in_remove.
      + intros Hxk. subst x. apply same_edge_loop in Hs as [-> ->].
        exact (Hloop _ _ Hin).
      + destruct (Hclosed _ _ _ Hin) as [Ha Hb].
        apply same_edge_member in Hs as [_ [-> | ->]]; assumption. }
  pose proof (remove_length_lt hkey_eq_dec (node_keys G) k Hk) as Hlt.
  unfold number_of_nodes, node_keys in *. rewrite length_map in Hlt. lia.
Qed.

(** A triangle less one side. *)
Lemma create_graph_degree_bound_witness :
  exists G,
    Static.create_graph
      [entity "Alice" "person" []; entity "Bob" "person" [];
       entity "Carol" "person" []]
      [relation "Alice" "Bob" "knows"; relation "Carol" "Alice" "knows"]
    = Ok G
    /\ degree G (HStr "Alice") <= number_of_nodes G - 1
    /\ (0 <= centrality G (HStr "Alice") <= 1)%Q.
Proof.
  eexists. split; [reflexivity|].
  apply (create_graph_degree_bound
           [entity "Alice" "person" []; entity "Bob" "person" [];
            entity "Carol" "person" []]
           [relation "Alice" "Bob" "knows"; relation "Carol" "Alice" "knows"]).
  - reflexivity.
  - intros r u [<- | [<- | []]] E; vm_compute in E; congruence.
  - simpl. auto.
Defined.

(** An entity is reported as isolated exactly when it is a node and no
    relation record between two nodes names it. *)
Theorem isolates_unrelated
  (entities relations : list dict) (G : Graph) (k : hkey) :
  Static.create_graph entities relations = Ok G ->
  (In k (isolates G)
   <-> In k (node_keys G)
       /\ forall r u v,
            In r relations -> known G r = true ->
            endpoints r = Some (u, v) -> u <> k /\ v <> k).
Proof.
  intros H. unfold isolates. rewrite filter_In, Nat.eqb_eq.
  rewrite degree_length_neighbors.
  split; intros [Hk Hd]; (split; [assumption|]).
  - intros r u v Hr Hkn He.
    assert (has_edge G u v = true) as Hedge.
    { apply (built_has_edge _ _ _ u v H). exists r.
      repeat split; try assumption. unfold joins. rewrite He.
      unfold same_edge. rewrite !hkey_eqb_refl. reflexivity. }
    apply has_edge_in_edges in Hedge as (a & b & rt & Hin & Hs).
    assert (forall x, ~ In x (neighbors G k)) as Hnone.
    { intros x Hx. destruct (neighbors G k); [contradiction | discriminate]. }
    split; intros ->.
    + apply (Hnone v). apply in_neighbors. eauto.
    + apply (Hnone u). apply in_neighbors. exists a, b, rt.
      split; [assumption|]. rewrite <- Hs.
      unfold same_edge.
      destruct (hkey_eqb a k), (hkey_eqb b u), (hkey_eqb a u), (hkey_eqb b k);
        reflexivity.
  - destruct (neighbors G k) as [|x l] eqn:Hn; [reflexivity|]. exfalso.
    assert (In x (neighbors G k)) as Hx by (rewrite Hn; simpl; auto).
    apply in_neighbors in Hx as (a & b & rt & Hin & Hs).
    assert (has_edge G k x = true) as Hedge.
    { unfold has_edge. apply existsb_exists. exists (a, b, rt). auto. }
    apply (built_has_edge _ _ _ k x H) in Hedge as (r & Hr & Hkn & Hj).
    unfold joins in Hj.
    destruct (endpoints r) as [[u v]|] eqn:He; [|discriminate].
    destruct (Hd r u v Hr Hkn He) as [Hu Hv].
    apply same_edge_member in Hj as [[-> | ->] _]; contradiction.
Qed.

(** Carol is isolated: the only relation that names her names an entity
    that is not there. *)
Lemma isolates_unrelated_witness :
  exists G,
    Static.create_graph
      [entity "Alice" "person" []; entity "Bob" "person" [];
       entity "Carol" "person" []]
      [relation "Alice" "Bob" "knows"; relation "Carol" "Zed" "knows"]
    = Ok G
    /\ isolates G = [HStr "Carol"]
    /\ (In (HStr "Carol") (isolates G)
        <-> In (HStr "Carol") (node_keys G)
            /\ forall r u v,
                 In r [relation "Alice" "Bob" "knows";
                       relation "Carol" "Zed" "knows"] ->
                 known G r = true ->
                 endpoints r = Some (u, v) ->
                 u <> HStr "Carol" /\ v <> HStr "Carol").
Proof.
  eexists. split; [reflexivity|]. split; [reflexivity|].
  apply (isolates_unrelated
           [entity "Alice" "person" []; entity "Bob" "person" [];
            entity "Carol" "person" []]
           [relation "Alice" "Bob" "knows"; relation "Carol" "Zed" "knows"]).
  reflexivity.
Defined.

(* ================================================================== *)
(** * When the builder goes through *)
(* ================================================================== *)

Section BuilderSuccess.

Lemma add_entity_well_formed G e G' :
  ~ In HNone (node_keys G) ->
  Static.add_entity G e = Ok G' ->
  well_formed_entity e /\ ~ In HNone (node_keys G').
Proof.
  intros Hnone H.
  destruct (add_entity_ok _ _ _ H) as (k & a & Hk & Ha & _ & _).
  pose proof (add_entity_keys _ _ _ k H Hk) as Hkeys.
  unfold Static.add_entity, add_node, getitem in H.
  unfold name_key in Hk. unfold well_formed_entity.
  destruct (lookup e "name") as [name|]; [|discriminate].
  destruct (lookup e "entityType") as [ty|]; [|discriminate].
  destruct (lookup e "observations") as [obs|]; [|discriminate].
  simpl in H. destruct (len obs) as [n|] eqn:Hlen; [|discriminate].
  simpl in H. destruct (as_key name) as [k'|] eqn:Hname; [|discriminate].
  injection Hk as ->. simpl in H.
  assert (k <> HNone) as Hk.
  { intros ->. destruct (has_key G HNone) eqn:Hh; [|discriminate].
    apply has_key_in in Hh. contradiction. }
  split.
  - split; [eauto|]. split; [discriminate | eauto].
  - rewrite Hkeys. destruct (has_key G k); [assumption|].
    rewrite in_app_iff. simpl. intros [Hin | [Heq | []]]; auto.
Qed.

Lemma add_entities_well_formed es : forall G G',
  ~ In HNone (node_keys G) ->
  foldM Static.add_entity es G = Ok G' ->
  Forall well_formed_entity es.
Proof.
  induction es as [|e es IH]; intros G G' Hnone H; [constructor|].
  simpl in H. apply bind_ok in H as (G1 & H1 & H2).
  destruct (add_entity_well_formed _ _ _ Hnone H1) as [He Hnone1].
  constructor; [assumption|]. eapply IH; eassumption.
Qed.

End BuilderSuccess.

(** The builder returns a graph when every entity record has a hashable
    name other than [None], a type and observations with a length, and
    every relation record has two hashable names and a relation type;
    and it returns a graph only when the entity records are so. *)
Theorem create_graph_succeeds (entities relations : list dict) :
  (Forall well_formed_entity entities ->
   Forall well_formed_relation relations ->
   exists G, Static.create_graph entities relations = Ok G)
  /\ (forall G, Static.create_graph entities relations = Ok G ->
                Forall well_formed_entity entities).
Proof.
  split; [apply create_graph_total|].
  unfold Static.create_graph. intros G H.
  apply bind_ok in H as (G0 & Hnodes & _).
  apply (add_entities_well_formed entities empty G0); [|assumption].
  simpl. auto.
Qed.

(** Two entities and a relation, all fields present. *)
Lemma create_graph_succeeds_witness :
  (exists G,
     Static.create_graph
       [entity "Alice" "person" ["a"]; entity "Bob" "person" []]
       [relation "Alice" "Bob" "knows"] = Ok G)
  /\ Forall well_formed_entity
       [entity "Alice" "person" ["a"]; entity "Bob" "person" []].
Proof.
  destruct (create_graph_succeeds
              [entity "Alice" "person" ["a"]; entity "Bob" "person" []]
              [relation "Alice" "Bob" "knows"]) as [Hok Hwf].
  split.
  - apply Hok.
    + repeat constructor; unfold well_formed_entity; simpl;
        repeat split; try discriminate; eauto;
        eexists; eexists; repeat split; try reflexivity; discriminate.
    + repeat constructor; discriminate.
  - destruct Hok as [G HG].
    + repeat constructor; unfold well_formed_entity; simpl;
        repeat split; try discriminate; eauto;
        eexists; eexists; repeat split; try reflexivity; discriminate.
    + repeat constructor; discriminate.
    + exact (Hwf G HG).
Defined.

(* ================================================================== *)
(** * The static report *)
(* ================================================================== *)

Section Printing.

Lemma bind_io_print {B : Type} (l : line) (k : unit -> io B) :
  bind_io (print l) k = (l :: fst (k tt), snd (k tt)).
Proof. unfold bind_io, print. destruct (k tt). reflexivity. Qed.

Lemma bind_io_lift_ok {A B : Type} (a : A) (k : A -> io B) :
  bind_io (lift (Ok a)) k = k a.
Proof. unfold bind_io, lift. destruct (k a). reflexivity. Qed.

Lemma bind_io_lift_raise {A B : Type} (e : exn) (k : A -> io B) :
  bind_io (lift (@Raise A e)) k = ([], Raise e).
Proof. reflexivity. Qed.

Lemma bind_io_done {A B : Type} (out : list line) (a : A) (k : A -> io B) :
  bind_io (out, Ok a) k = (out ++ fst (k a), snd (k a)).
Proof. unfold bind_io. destruct (k a). reflexivity. Qed.

Lemma bind_io_raised {A B : Type} (out : list line) (e : exn)
  (k : A -> io B) :
  bind_io (out, @Raise A e) k = (out, Raise e).
Proof. reflexivity. Qed.

(** A loop whose body prints one line. *)
Lemma for_each_lines {A : Type} (f : A -> line) (body : A -> io unit)
  (l : list A) :
  (forall x, In x l -> body x = ([f x], Ok tt)) ->
  for_each l body = (map f l, Ok tt).
Proof.
  induction l as [|x l IH]; intros H; simpl; [reflexivity|].
  rewrite (H x) by (simpl; auto). rewrite bind_io_done.
  rewrite IH by (intros; apply H; simpl; auto). reflexivity.
Qed.

Lemma in_firstn {A : Type} (n : nat) (l : list A) (x : A) :
  In x (firstn n l) -> In x l.
Proof.
  intros H. rewrite <- (firstn_skipn n l). apply in_or_app. auto.
Qed.

End Printing.

Section Histogram.

Lemma mapM_as_key (values : list json) :
  (forallb hashable values = true
   /\ exists keys, mapM as_key values = Ok keys
                   /\ List.length keys = List.length values)
  \/ (forallb hashable values = false
      /\ mapM as_key values = Raise (TypeError "unhashable type")).
Proof.
  induction values as [|v values IH]; simpl.
  - left. split; [reflexivity|]. exists []. auto.
  - destruct v; simpl;
      try (right; split; reflexivity);
      (destruct IH as [(Hh & keys & -> & Hlen) | (Hh & ->)];
       [left; split; [assumption|]; eexists; split; [reflexivity|];
        simpl; rewrite Hlen; reflexivity
       | right; split; [assumption | reflexivity]]).
Qed.

Lemma incr_sum (c : counter) (k : hkey) :
  list_sum (map snd (incr c k)) = S (list_sum (map snd c)).
Proof.
  induction c as [|[k' n] c IH]; simpl; [reflexivity|].
  destruct (hkey_eqb k' k); simpl; [reflexivity|]. rewrite IH. lia.
Qed.

Lemma count_keys_sum (keys : list hkey) :
  list_sum (map snd (count_keys keys)) = List.length keys.
Proof.
  unfold count_keys.
  assert (forall c, list_sum (map snd (fold_left incr keys c))
                    = list_sum (map snd c) + List.length keys) as H.
  { induction keys as [|k keys IH]; intros c; simpl; [lia|].
    rewrite IH, incr_sum. lia. }
  rewrite H. reflexivity.
Qed.

Lemma insert_desc_permutation {A K : Type} (ltb : K -> K -> bool)
  (key : A -> K) (x : A) (l : list A) :
  Permutation (insert_desc ltb key x l) (x :: l).
Proof.
  induction l as [|y l IH]; simpl; [reflexivity|].
  destruct (ltb (key x) (key y)); [|reflexivity].
  rewrite IH. apply perm_swap.
Qed.

Lemma sorted_reverse_permutation {A K : Type} (ltb : K -> K -> bool)
  (key : A -> K) (l : list A) :
  Permutation (sorted_reverse ltb key l) l.
Proof.
  induction l as [|x l IH]; simpl; [reflexivity|].
  rewrite insert_desc_permutation. constructor. assumption.
Qed.

Lemma list_sum_perm (l l' : list nat) :
  Permutation l l' -> list_sum l = list_sum l'.
Proof. intros H. induction H; simpl; lia. Qed.

End Histogram.

Section ReportOutput.

Lemma node_entity_type_ok (G : Graph) (node : hkey) :
  In node (node_keys G) ->
  Static.node_entity_type G node = Ok (type_of G node).
Proof.
  unfold Static.node_entity_type, type_of, node_keys. intros Hin.
  destruct (find (fun '(k, _) => hkey_eqb k node) (nodes G))
    as [[k a]|] eqn:Hf; [reflexivity|].
  exfalso. apply in_map_iff in Hin as ([k a] & Hk & Hin). simpl in Hk. subst.
  apply (find_none _ _ Hf) in Hin. simpl in Hin.
  rewrite hkey_eqb_refl in Hin. discriminate.
Qed.

Lemma isolates_are_nodes (G : Graph) (node : hkey) :
  In node (isolates G) -> In node (node_keys G).
Proof. unfold isolates. intros H. apply filter_In in H. tauto. Qed.

Lemma top_connected_ok (G : Graph) :
  exists top, Static.top_connected G = Ok top.
Proof.
  destruct (degree_centrality_values G) as (items & Hdc & _).
  unfold Static.top_connected. rewrite Hdc. simpl. eauto.
Qed.

(** The block about isolated entities. *)
Lemma isolated_block (G : Graph) :
  when (negb (List.length (isolates G) =? 0))
    (bind_io (print (IsolatedHeader (List.length (isolates G))))
       (fun _ =>
          bind_io
            (for_each (firstn 5 (isolates G))
               (fun node =>
                  bind_io (lift (Static.node_entity_type G node))
                    (fun ty => print (IsolatedItem node ty))))
            (fun _ =>
               when (5 <? List.length (isolates G))
                 (print (AndMore (List.length (isolates G) - 5))))))
  = (isolated_lines G, Ok tt).
Proof.
  unfold isolated_lines.
  destruct (isolates G) as [|n0 l0] eqn:Hiso; [reflexivity|].
  rewrite <- Hiso.
  assert (negb (List.length (isolates G) =? 0) = true) as ->
    by (rewrite Hiso; reflexivity).
  unfold when at 1. rewrite bind_io_print.
  rewrite (for_each_lines (fun node => IsolatedItem node (type_of G node))).
  - rewrite bind_io_done. cbn [fst snd].
    destruct (5 <? List.length (isolates G)); reflexivity.
  - intros node Hin. apply in_firstn, isolates_are_nodes in Hin.
    rewrite node_entity_type_ok by assumption.
    rewrite bind_io_lift_ok. reflexivity.
Qed.

(** The report stops after its opening lines when an entity type cannot
    be counted. *)
Lemma analyze_graph_raised (G : Graph) (e : exn) :
  Counter (map (fun '(_, a) => entity_type a) (nodes G)) = Raise e ->
  Static.analyze_graph G = (opening_lines G, Raise e).
Proof.
  intros H. unfold Static.analyze_graph, opening_lines.
  rewrite !bind_io_print, H, bind_io_lift_raise. reflexivity.
Qed.

(** The report in full. *)
Lemma analyze_graph_printed (G : Graph) (counts : counter)
  (top : list (hkey * Q)) :
  Counter (map (fun '(_, a) => entity_type a) (nodes G)) = Ok counts ->
  Static.top_connected G = Ok top ->
  Static.analyze_graph G
  = (opening_lines G
     ++ Text "Entity Types:"
     :: map (fun p => EntityTypeCount (fst p) (snd p)) (most_common counts)
     ++ isolated_lines G
     ++ Text "Most connected entities:"
     :: map (fun p => ConnectedItem (fst p) (degree G (fst p))) top
     ++ [Text "========================================"],
     Ok tt).
Proof.
  intros Hc Ht. unfold Static.analyze_graph, opening_lines. cbv zeta.
  set (block := when (negb _) _).
  rewrite !bind_io_print, Hc, bind_io_lift_ok, bind_io_print.
  rewrite (for_each_lines (fun p => EntityTypeCount (fst p) (snd p)))
    by (intros [t c] _; reflexivity).
  rewrite bind_io_done. cbv beta. subst block.
  rewrite isolated_block, bind_io_done.
  cbv beta. rewrite Ht, bind_io_lift_ok, bind_io_print.
  rewrite (for_each_lines
             (fun p => ConnectedItem (fst p) (degree G (fst p))))
    by (intros [n c] _; reflexivity).
  rewrite bind_io_done. reflexivity.
Qed.

End ReportOutput.

Section ReportLines.

Lemma type_counts_app (l1 l2 : list line) :
  type_counts (l1 ++ l2) = type_counts l1 ++ type_counts l2.
Proof.
  induction l1 as [|x l1 IH]; simpl; [reflexivity|].
  destruct x; simpl; rewrite ?IH; reflexivity.
Qed.

Lemma connected_items_app (l1 l2 : list line) :
  connected_items (l1 ++ l2) = connected_items l1 ++ connected_items l2.
Proof.
  induction l1 as [|x l1 IH]; simpl; [reflexivity|].
  destruct x; simpl; rewrite ?IH; reflexivity.
Qed.

Lemma type_counts_histogram (l : list (hkey * nat)) :
  type_counts (map (fun p => EntityTypeCount (fst p) (snd p)) l) = map snd l.
Proof. induction l as [|p l IH]; simpl; [|rewrite IH]; reflexivity. Qed.

Lemma connected_items_histogram (l : list (hkey * nat)) :
  connected_items (map (fun p => EntityTypeCount (fst p) (snd p)) l) = [].
Proof. induction l as [|p l IH]; simpl; auto. Qed.

Lemma type_counts_connected {A : Type} (f : A -> hkey) (g : A -> nat)
  (l : list A) :
  type_counts (map (fun p => ConnectedItem (f p) (g p)) l) = [].
Proof. induction l as [|p l IH]; simpl; auto. Qed.

Lemma connected_items_connected {A : Type} (f : A -> hkey) (g : A -> nat)
  (l : list A) :
  connected_items (map (fun p => ConnectedItem (f p) (g p)) l)
  = map (fun p => (f p, g p)) l.
Proof. induction l as [|p l IH]; simpl; [|rewrite IH]; reflexivity. Qed.

Lemma isolated_items_plain (G : Graph) (l : list hkey) :
  type_counts (map (fun node => IsolatedItem node (type_of G node)) l) = []
  /\ connected_items
       (map (fun node => IsolatedItem node (type_of G node)) l) = [].
Proof. induction l as [|p l [IH1 IH2]]; simpl; auto. Qed.

Lemma isolated_lines_plain (G : Graph) :
  type_counts (isolated_lines G) = []
  /\ connected_items (isolated_lines G) = [].
Proof.
  unfold isolated_lines. destruct (isolates G) as [|n l]; [auto|].
  generalize (n :: l). intros l'. cbn [type_counts connected_items].
  rewrite type_counts_app, connected_items_app.
  destruct (isolated_items_plain G (firstn 5 l')) as [-> ->].
  destruct (5 <? List.length l'); auto.
Qed.

(** The two readings of a full report. *)
Lemma report_readings (G : Graph) (counts : counter) (top : list (hkey * Q)) :
  Counter (map (fun '(_, a) => entity_type a) (nodes G)) = Ok counts ->
  Static.top_connected G = Ok top ->
  type_counts (fst (Static.analyze_graph G)) = map snd (most_common counts)
  /\ connected_items (fst (Static.analyze_graph G))
     = map (fun p => (fst p, degree G (fst p))) top.
Proof.
  intros Hc Ht. rewrite (analyze_graph_printed G counts top Hc Ht).
  cbn [fst].
  destruct (isolated_lines_plain G) as [Hi1 Hi2].
  split.
  - rewrite type_counts_app. simpl.
    rewrite type_counts_app, type_counts_histogram.
    rewrite type_counts_app, Hi1. simpl.
    rewrite type_counts_app, type_counts_connected. simpl.
    rewrite app_nil_r. reflexivity.
  - rewrite connected_items_app. simpl.
    rewrite connected_items_app, connected_items_histogram.
    rewrite connected_items_app, Hi2. simpl.
    rewrite connected_items_app, connected_items_connected. simpl.
    rewrite app_nil_r. reflexivity.
Qed.

Lemma counter_of_types (G : Graph) :
  (forallb hashable (map (fun '(_, a) => entity_type a) (nodes G)) = true
   /\ exists counts,
        Counter (map (fun '(_, a) => entity_type a) (nodes G)) = Ok counts
        /\ list_sum (map snd counts) = number_of_nodes G)
  \/ (forallb hashable (map (fun '(_, a) => entity_type a) (nodes G)) = false
      /\ Counter (map (fun '(_, a) => entity_type a) (nodes G))
         = Raise (TypeError "unhashable type")).
Proof.
  unfold Counter.
  destruct (mapM_as_key (map (fun '(_, a) => entity_type a) (nodes G)))
    as [(Hh & keys & -> & Hlen) | (Hh & ->)].
  - left. split; [assumption|]. eexists. split; [reflexivity|].
    rewrite count_keys_sum, Hlen, length_map. reflexivity.
  - right. auto.
Qed.

End ReportLines.

(** The static report goes through exactly when every entity type is
    hashable.  An entity type that is a list or an object stops it with
    a [TypeError] after its four opening lines. *)
Theorem analyze_graph_unhashable_type (G : Graph) :
  (snd (Static.analyze_graph G) = Ok tt
   <-> forallb hashable (map (fun '(_, a) => entity_type a) (nodes G)) = true)
  /\ (forallb hashable (map (fun '(_, a) => entity_type a) (nodes G)) = false
      -> Static.analyze_graph G
         = (opening_lines G, Raise (TypeError "unhashable type"))).
Proof.
  destruct (top_connected_ok G) as [top Ht].
  destruct (counter_of_types G) as [(Hh & counts & Hc & _) | (Hh & Hc)].
  - rewrite (analyze_graph_printed G counts top Hc Ht), Hh. simpl.
    split; [tauto | discriminate].
  - rewrite (analyze_graph_raised G _ Hc), Hh. simpl.
    split; [split; discriminate | reflexivity].
Qed.

(** An entity whose type is a list. *)
Lemma analyze_graph_unhashable_type_witness :
  exists G,
    Static.create_graph
      [[("name", JStr "Alice"); ("entityType", JList [JStr "person"]);
        ("observations", JList [])]] [] = Ok G
    /\ Static.analyze_graph G
       = ([Text "=== MEMORY GRAPH ANALYSIS ==="; TotalEntities 1;
           TotalRelationships 0; ConnectedComponents 1],
          Raise (TypeError "unhashable type")).
Proof.
  eexists. split; [reflexivity|].
  apply (analyze_graph_unhashable_type
           {| nodes := [(HStr "Alice",
                         {| entity_type := JList [JStr "person"];
                            observations := 0 |})];
              edges := [] |}).
  reflexivity.
Defined.

(** The counts of the entity-type lines of a complete report add up to
    the number of entities of the graph. *)
Theorem analyze_graph_type_counts (G : Graph) :
  snd (Static.analyze_graph G) = Ok tt ->
  list_sum (type_counts (fst (Static.analyze_graph G))) = number_of_nodes G.
Proof.
  intros Hok.
  destruct (top_connected_ok G) as [top Ht].
  destruct (counter_of_types G) as [(Hh & counts & Hc & Hsum) | (Hh & Hc)].
  - destruct (report_readings G counts top Hc Ht) as [-> _].
    rewrite <- Hsum. apply list_sum_perm, Permutation_map.
    apply sorted_reverse_permutation.
  - rewrite (analyze_graph_raised G _ Hc) in Hok. discriminate.
Qed.

(** Two persons and a place. *)
Lemma analyze_graph_type_counts_witness :
  type_counts
    (fst (Static.analyze_graph
            {| nodes := [(HStr "A", {| entity_type := JStr "person";
                                       observations := 3 |});
                         (HStr "B", {| entity_type := JStr "place";
                                       observations := 0 |});
                         (HStr "C", {| entity_type := JStr "person";
                                       observations := 1 |})];
               edges := [] |})) = [2; 1]
  /\ list_sum
       (type_counts
          (fst (Static.analyze_graph
                  {| nodes := [(HStr "A", {| entity_type := JStr "person";
                                             observations := 3 |});
                               (HStr "B", {| entity_type := JStr "place";
                                             observations := 0 |});
                               (HStr "C", {| entity_type := JStr "person";
                                             observations := 1 |})];
                     edges := [] |}))) = 3.
Proof.
  split; [reflexivity|].
  apply (analyze_graph_type_counts
           {| nodes := [(HStr "A", {| entity_type := JStr "person";
                                      observations := 3 |});
                        (HStr "B", {| entity_type := JStr "place";
                                      observations := 0 |});
                        (HStr "C", {| entity_type := JStr "person";
                                      observations := 1 |})];
              edges := [] |}).
  reflexivity.
Defined.

Section Descending.

Context {A : Type}.
Variable key : A -> Q.

Lemma insert_desc_descending (x : A) (l : list A) :
  StronglySorted (fun a b => (key b <= key a)%Q) l ->
  StronglySorted (fun a b => (key b <= key a)%Q) (insert_desc Qltb key x l).
Proof.
  intros Hs. induction Hs as [|y l Hs IH Hy]; simpl.
  - repeat constructor.
  - destruct (Qltb (key x) (key y)) eqn:Hlt.
    + constructor; [assumption|].
      apply (Forall_perm _ (x :: l));
        [apply Permutation_sym, insert_desc_perm|].
      constructor; [|assumption].
      apply Qltb_lt in Hlt. apply Qlt_le_weak. assumption.
    + apply Qltb_ge in Hlt.
      constructor; [constructor; assumption|].
      constructor; [assumption|].
      eapply Forall_impl; [|exact Hy]. intros z Hz. simpl in Hz.
      eapply Qle_trans; eassumption.
Qed.

Lemma sorted_reverse_descending (l : list A) :
  StronglySorted (fun a b => (key b <= key a)%Q) (sorted_reverse Qltb key l).
Proof.
  induction l as [|x l IH]; simpl; [constructor|].
  apply insert_desc_descending. assumption.
Qed.

End Descending.

Section Prefix.

Lemma firstn_sorted {A : Type} (R : A -> A -> Prop) (n : nat) (l : list A) :
  StronglySorted R l -> StronglySorted R (firstn n l).
Proof.
  intros Hs. revert n. induction Hs as [|x l Hs IH Hx]; intros n.
  - rewrite firstn_nil. constructor.
  - destruct n as [|n]; simpl; [constructor|].
    constructor; [apply IH|].
    rewrite Forall_forall in *. intros y Hy. apply Hx.
    eapply in_firstn. eassumption.
Qed.

Lemma firstn_shorter {A : Type} (n : nat) (l : list A) :
  List.length (firstn n l) <= List.length l.
Proof. rewrite length_firstn. lia. Qed.

Lemma map_sorted {A B : Type} (R : A -> A -> Prop) (S : B -> B -> Prop)
  (f : A -> B) (l : list A) :
  (forall x y, In x l -> In y l -> R x y -> S (f x) (f y)) ->
  StronglySorted R l -> StronglySorted S (map f l).
Proof.
  intros H Hs. induction Hs as [|x l Hs IH Hx]; simpl; [constructor|].
  constructor.
  - apply IH. intros; apply H; simpl; auto.
  - rewrite Forall_forall in *. intros y Hy.
    apply in_map_iff in Hy as (z & <- & Hz).
    apply H; simpl; auto.
Qed.

Lemma short_sorted {A : Type} (R : A -> A -> Prop) (l : list A) :
  List.length l <= 1 -> StronglySorted R l.
Proof.
  destruct l as [|x [|y l]]; simpl; intros H; [constructor | | lia].
  constructor; constructor.
Qed.

End Prefix.

(** The "most connected" lines of a complete report name nodes of the
    graph with their degrees, five of them or all the nodes when there
    are fewer, in descending order of degree. *)
Theorem analyze_graph_most_connected (G : Graph) :
  snd (Static.analyze_graph G) = Ok tt ->
  List.length (connected_items (fst (Static.analyze_graph G)))
  = Nat.min 5 (number_of_nodes G)
  /\ Forall (fun item => In (fst item) (node_keys G)
                         /\ snd item = degree G (fst item))
       (connected_items (fst (Static.analyze_graph G)))
  /\ StronglySorted (fun a b => snd b <= snd a)
       (connected_items (fst (Static.analyze_graph G))).
Proof.
  intros Hok.
  destruct (counter_of_types G) as [(Hh & counts & Hc & _) | (Hh & Hc)];
    [|rewrite (analyze_graph_raised G _ Hc) in Hok; discriminate].
  assert (exists items,
            degree_centrality G = Ok items
            /\ map fst items = node_keys G
            /\ (List.length items <= 1
                \/ exists s, (0 < s)%Q
                     /\ forall p, In p items ->
                          snd p = (inject_Z (Z.of_nat (degree G (fst p))) * s)%Q))
    as (items & Hdc & Hkeys & Hform).
  { destruct (le_lt_dec (number_of_nodes G) 1) as [Hn | Hn].
    - eexists. split; [apply degree_centrality_small; assumption|].
      rewrite map_map, map_id, length_map. split; [reflexivity|]. left.
      unfold number_of_nodes, node_keys in *. rewrite length_map. assumption.
    - eexists. split; [apply degree_centrality_large; lia|].
      rewrite map_map, map_id. split; [reflexivity|]. right.
      exists (1 / (inject_Z (Z.of_nat (number_of_nodes G)) - 1))%Q. split.
      + apply Qlt_shift_div_l; [unfold Qlt; simpl; lia|].
        rewrite Qmult_0_l. reflexivity.
      + intros p Hp. apply in_map_iff in Hp as (n & <- & _). reflexivity. }
  assert (Static.top_connected G
          = Ok (firstn 5 (sorted_reverse Qltb snd items))) as Ht
    by (unfold Static.top_connected; rewrite Hdc; reflexivity).
  destruct (report_readings G counts _ Hc Ht) as [_ ->].
  pose proof (sorted_reverse_perm snd items) as Hperm.
  assert (forall p, In p (firstn 5 (sorted_reverse Qltb snd items)) ->
                    In p items) as Hin.
  { intros p Hp. apply in_firstn in Hp.
    eapply Permutation_in; eassumption. }
  split; [|split].
  - rewrite length_map, length_firstn, (Permutation_length Hperm).
    rewrite <- (length_map fst items), Hkeys.
    unfold number_of_nodes, node_keys. rewrite length_map. reflexivity.
  - apply Forall_forall. intros item Hitem.
    apply in_map_iff in Hitem as (p & <- & Hp). simpl. split; [|reflexivity].
    rewrite <- Hkeys. apply in_map, Hin. assumption.
  - destruct Hform as [Hshort | (s & Hs & Hform)].
    + apply short_sorted. rewrite length_map.
      etransitivity; [apply firstn_shorter|].
      rewrite (Permutation_length Hperm). assumption.
    + apply (map_sorted (fun a b => (snd b <= snd a)%Q)).
      * intros x y Hx Hy Hle. simpl.
        rewrite (Hform x (Hin x Hx)), (Hform y (Hin y Hy)) in Hle.
        apply Qmult_le_r in Hle; [|assumption].
        unfold Qle in Hle. simpl in Hle. lia.
      * apply firstn_sorted, sorted_reverse_descending.
Qed.

(** Five entities in a star around the first, and two apart. *)
Lemma analyze_graph_most_connected_witness :
  exists G,
    Static.create_graph
      [entity "A" "t" []; entity "B" "t" []; entity "C" "t" [];
       entity "D" "t" []; entity "E" "t" []; entity "F" "t" [];
       entity "G" "t" []]
      [relation "B" "A" "r"; relation "C" "A" "r"; relation "D" "A" "r";
       relation "E" "A" "r"; relation "D" "E" "r"] = Ok G
    /\ connected_items (fst (Static.analyze_graph G))
       = [(HStr "A", 4); (HStr "D", 2); (HStr "E", 2); (HStr "B", 1);
          (HStr "C", 1)]
    /\ List.length (connected_items (fst (Static.analyze_graph G)))
       = Nat.min 5 (number_of_nodes G)
    /\ Forall (fun item => In (fst item) (node_keys G)
                           /\ snd item = degree G (fst item))
         (connected_items (fst (Static.analyze_graph G)))
    /\ StronglySorted (fun a b => snd b <= snd a)
         (connected_items (fst (Static.analyze_graph G))).
Proof.
  eexists. split; [reflexivity|]. split; [vm_compute; reflexivity|].
  apply analyze_graph_most_connected. vm_compute. reflexivity.
Defined.

(* ================================================================== *)
(** * Connected components *)
(* ================================================================== *)

Section Components.

Lemma reach_edgeless (G : Graph) (rounds : nat) (seen : list hkey) :
  edges G = [] -> reach G rounds seen = seen.
Proof.
  intros He. revert seen. induction rounds as [|r IH]; intros seen; simpl;
    [reflexivity|].
  assert (flat_map (neighbors G) seen = []) as ->.
  { unfold neighbors. rewrite He. induction seen; simpl; auto. }
  simpl. apply IH.
Qed.

Lemma count_components_le (G : Graph) (todo : list hkey) : forall seen,
  count_components G todo seen <= List.length todo.
Proof.
  induction todo as [|k todo IH]; intros seen; simpl; [lia|].
  destruct (mem k seen).
  - specialize (IH seen). lia.
  - specialize (IH (add_new seen (reach G (number_of_nodes G) [k]))). lia.
Qed.

Lemma count_components_edgeless (G : Graph) (todo : list hkey) :
  edges G = [] -> NoDup todo ->
  forall seen, (forall k, In k todo -> ~ In k seen) ->
  count_components G todo seen = List.length todo.
Proof.
  intros He Hnd. induction Hnd as [|k todo Hk Hnd IH]; intros seen Hdis;
    simpl; [reflexivity|].
  assert (mem k seen = false) as Hm.
  { destruct (mem k seen) eqn:E; [|reflexivity].
    apply mem_in in E. exfalso. apply (Hdis k); simpl; auto. }
  rewrite Hm, (reach_edgeless G _ _ He). simpl. rewrite Hm. f_equal.
  apply IH. intros x Hx Hin. apply in_app_or in Hin as [Hin | [<- | []]].
  - apply (Hdis x); simpl; auto.
  - contradiction.
Qed.

End Components.

(** The count of connected components is at most the number of nodes and
    at least 1 for a graph that has a node; and when no relation record
    names two nodes, every entity of the graph built is a component of
    its own. *)
Theorem components_bounds (entities relations : list dict) (G : Graph) :
  Static.create_graph entities relations = Ok G ->
  number_connected_components G <= number_of_nodes G
  /\ (1 <= number_of_nodes G -> 1 <= number_connected_components G)
  /\ ((forall r, In r relations -> known G r = false) ->
      number_connected_components G = number_of_nodes G).
Proof.
  intros H. unfold number_connected_components, number_of_nodes.
  rewrite <- (length_map fst (nodes G)). fold (node_keys G).
  split; [apply count_components_le|]. split.
  - destruct (node_keys G) as [|k keys]; simpl; [lia|]. intros _. lia.
  - intros Hnone.
    destruct (built_nodes _ _ _ H) as [Hnd _].
    apply count_components_edgeless; [|assumption | auto].
    destruct (edges G) as [|[[a b] rt] l] eqn:He; [reflexivity|]. exfalso.
    assert (has_edge G a b = true) as Hedge
      by (apply (in_edges_has_edge G a b rt); rewrite He; simpl; auto).
    apply (built_has_edge _ _ _ a b H) in Hedge as (r & Hr & Hk & _).
    rewrite (Hnone r Hr) in Hk. discriminate.
Qed.

(** Three entities and a relation to an entity that is not there. *)
Lemma components_bounds_witness :
  exists G,
    Static.create_graph
      [entity "A" "t" []; entity "B" "t" []; entity "C" "t" []]
      [relation "A" "Z" "r"] = Ok G
    /\ number_connected_components G <= number_of_nodes G
    /\ (1 <= number_of_nodes G -> 1 <= number_connected_components G)
    /\ ((forall r, In r [relation "A" "Z" "r"] -> known G r = false) ->
        number_connected_components G = number_of_nodes G).
Proof.
  eexists. split; [reflexivity|].
  apply (components_bounds
           [entity "A" "t" []; entity "B" "t" []; entity "C" "t" []]
           [relation "A" "Z" "r"]).
  reflexivity.
Defined.

(* ================================================================== *)
(** * More on the redundancy scan *)
(* ================================================================== *)

Section SimilarErrors.

Lemma all_strings (names : list json) :
  forallb is_str names = true -> exists ns, names = map JStr ns.
Proof.
  induction names as [|v names IH]; simpl; intros H.
  - exists []. reflexivity.
  - apply andb_true_iff in H as [Hv Hn]. destruct (IH Hn) as [ns ->].
    destruct v; try discriminate. exists (s :: ns). reflexivity.
Qed.

Lemma compare_names_not_str (name1 name2 : json) acc :
  is_str name1 && is_str name2 = false ->
  Static.compare_names name1 acc name2
  = Raise (AttributeError "object has no attribute 'lower'").
Proof.
  unfold Static.compare_names.
  destruct name1; simpl; try reflexivity.
  destruct name2; simpl; try reflexivity. discriminate.
Qed.

Lemma inner_loop_raises (a : string) (rest : list json) : forall acc,
  forallb is_str rest = false ->
  foldM (Static.compare_names (JStr a)) rest acc
  = Raise (AttributeError "object has no attribute 'lower'").
Proof.
  induction rest as [|v rest IH]; intros acc H; simpl in *; [discriminate|].
  destruct (is_str v) eqn:Hv.
  - destruct v; try discriminate. rewrite compare_names_strings. simpl.
    apply IH. assumption.
  - rewrite compare_names_not_str by (simpl; rewrite Hv; reflexivity).
    reflexivity.
Qed.

End SimilarErrors.

(** The scan of the names goes through when there is at most one name
    or every name is a string; with two names or more, one of them not
    a string, it raises [AttributeError]. *)
Theorem similar_pairs_not_str (names : list json) :
  (List.length names <= 1 \/ forallb is_str names = true ->
   exists pairs, Static.similar_pairs names = Ok pairs)
  /\ (2 <= List.length names -> forallb is_str names = false ->
      Static.similar_pairs names
      = Raise (AttributeError "object has no attribute 'lower'")).
Proof.
  split.
  - intros [Hlen | Hstr].
    + destruct names as [|x [|y names]]; simpl in Hlen; try lia;
        eexists; reflexivity.
    + destruct (all_strings names Hstr) as [ns ->].
      unfold Static.similar_pairs. rewrite (outer_loop ns 0 []). eauto.
  - intros Hlen Hstr. destruct names as [|x [|y rest]]; simpl in Hlen; try lia.
    unfold Static.similar_pairs. cbn [Static.similar_loop].
    destruct (is_str x) eqn:Hx.
    + destruct x; try discriminate.
      rewrite inner_loop_raises; [reflexivity|].
      simpl in Hstr. exact Hstr.
    + simpl. rewrite compare_names_not_str by (rewrite Hx; reflexivity).
      reflexivity.
Qed.

(** One name that is a number; two names, one of them a number. *)
Lemma similar_pairs_not_str_witness :
  (exists pairs, Static.similar_pairs [JInt 7] = Ok pairs)
  /\ Static.similar_pairs [JStr "Alice"; JInt 7]
     = Raise (AttributeError "object has no attribute 'lower'").
Proof.
  split.
  - apply (similar_pairs_not_str [JInt 7]). left. simpl. lia.
  - apply (similar_pairs_not_str [JStr "Alice"; JInt 7]).
    + simpl. lia.
    + reflexivity.
Defined.

Section SimilarMembers.

Lemma similar_names_sym (a b : string) :
  similar_names a b -> similar_names b a.
Proof. unfold similar_names. intros [H1 H2]. split; [congruence | tauto]. Qed.

Lemma occurs_in_empty (b : string) : occurs_in EmptyString b.
Proof. exists EmptyString, b. reflexivity. Qed.

Lemma append_empty (s : string) : (s ++ EmptyString)%string = s.
Proof. induction s as [|c s IH]; simpl; [|rewrite IH]; reflexivity. Qed.

Lemma occurs_in_self (a : string) : occurs_in a a.
Proof. exists EmptyString, EmptyString. simpl. rewrite append_empty. reflexivity. Qed.

(** The pairs of the scan, seen as pairs of names. *)
Lemma similar_pairs_members (names : list string) :
  exists pairs,
    Static.similar_pairs (map JStr names) = Ok pairs
    /\ (forall a b,
          In (JStr a, JStr b) pairs
          <-> exists i j,
                i < j < List.length names
                /\ nth i names EmptyString = a
                /\ nth j names EmptyString = b
                /\ similar_names a b)
    /\ 2 * List.length pairs
       <= List.length names * (List.length names - 1).
Proof.
  assert (StronglySorted lt (map fst (enumerate 0 names))) as Htags
    by (rewrite enumerate_tags; apply seq_increasing).
  eexists. split; [unfold Static.similar_pairs; apply (outer_loop names 0 [])|].
  simpl. split.
  - intros a b. rewrite in_map_iff. split.
    + intros ([[i j] [a' b']] & [= -> ->] & Hx).
      apply (in_scan _ Htags) in Hx as (Hi & Hj & Hij & Hf).
      apply in_enumerate in Hi as [Hi Ha], Hj as [Hj Hb].
      rewrite Nat.sub_0_r in *. apply flagged_spec in Hf.
      exists i, j. split; [lia|]. auto.
    + intros (i & j & Hij & Ha & Hb & Hs).
      exists ((i, j), (a, b)). split; [reflexivity|].
      apply (in_scan _ Htags). rewrite !in_enumerate, !Nat.sub_0_r.
      apply flagged_spec in Hs.
      split; [split; [lia | assumption]|].
      split; [split; [lia | assumption]|]. split; [lia | assumption].
  - rewrite length_map.
    assert (forall l : list (nat * string),
              2 * List.length (scan l)
              <= List.length l * (List.length l - 1)) as Hbound.
    { induction l as [|[i a] l IH]; simpl; [lia|].
      rewrite length_app, length_map.
      pose proof (filter_length_le (fun '(j, b) => flagged a b) l) as Hf.
      rewrite Nat.sub_0_r. nia. }
    specialize (Hbound (enumerate 0 names)).
    unfold enumerate in Hbound at 2 3.
    rewrite length_combine, length_seq, Nat.min_id in Hbound. exact Hbound.
Qed.

End SimilarMembers.

(** What the scan reports and what it does not.  A pair is never made of
    two equal names, so exact duplicates go unreported.  Two different
    names that are equal up to case are reported, and so is an empty
    name against every other name.  There are at most n(n-1)/2 pairs. *)
Theorem similar_pairs_reports (names : list string)
  (pairs : list (json * json)) :
  Static.similar_pairs (map JStr names) = Ok pairs ->
  (forall a b, In (JStr a, JStr b) pairs ->
               a <> b /\ In a names /\ In b names)
  /\ (forall a b, In a names -> In b names -> a <> b ->
                  lower a = lower b \/ a = EmptyString ->
                  In (JStr a, JStr b) pairs \/ In (JStr b, JStr a) pairs)
  /\ 2 * List.length pairs <= List.length names * (List.length names - 1).
Proof.
  intros H. destruct (similar_pairs_members names) as (pairs' & H' & Hin & Hb).
  assert (pairs' = pairs) as -> by congruence.
  split; [|split; [|assumption]].
  - intros a b Hp. apply Hin in Hp as (i & j & Hij & <- & <- & Hs).
    split; [apply Hs|]. split; apply nth_In; lia.
  - intros a b Ha Hb' Hne Hsim.
    assert (similar_names a b) as Hs.
    { split; [assumption|]. destruct Hsim as [Hl | ->].
      - left. rewrite Hl. apply occurs_in_self.
      - left. apply occurs_in_empty. }
    destruct (In_nth _ _ EmptyString Ha) as (i & Hi & Hia).
    destruct (In_nth _ _ EmptyString Hb') as (j & Hj & Hjb).
    destruct (Nat.lt_trichotomy i j) as [Hlt | [Heq | Hgt]].
    + left. apply Hin. exists i, j. split; [lia|]. auto.
    + subst j. congruence.
    + right. apply Hin. exists j, i. split; [lia|].
      split; [assumption|]. split; [assumption|].
      apply similar_names_sym. assumption.
Qed.

(** Alice twice, ALICE, an empty name and Bob. *)
Lemma similar_pairs_reports_witness :
  Static.similar_pairs (map JStr ["Alice"; "Alice"; "ALICE"; ""; "Bob"])
  = Ok [(JStr "Alice", JStr "ALICE"); (JStr "Alice", JStr "");
        (JStr "Alice", JStr "ALICE"); (JStr "Alice", JStr "");
        (JStr "ALICE", JStr ""); (JStr "", JStr "Bob")]
  /\ (forall a b,
        In (JStr a, JStr b)
          [(JStr "Alice", JStr "ALICE"); (JStr "Alice", JStr "");
           (JStr "Alice", JStr "ALICE"); (JStr "Alice", JStr "");
           (JStr "ALICE", JStr ""); (JStr "", JStr "Bob")] ->
        a <> b /\ In a ["Alice"; "Alice"; "ALICE"; ""; "Bob"]
        /\ In b ["Alice"; "Alice"; "ALICE"; ""; "Bob"]).
Proof.
  split; [reflexivity|].
  apply (similar_pairs_reports ["Alice"; "Alice"; "ALICE"; ""; "Bob"]).
  reflexivity.
Defined.

Section RedundancyOutput.

Lemma mapM_ok {A B : Type} (f : A -> result B) (l : list A) (ys : list B) :
  mapM f l = Ok ys -> forall x, In x l -> exists y, f x = Ok y.
Proof.
  revert ys. induction l as [|a l IH]; intros ys H x Hx; [contradiction|].
  simpl in H. apply bind_ok in H as (y & Hy & H).
  apply bind_ok in H as (ys' & Hys & _).
  destruct Hx as [<- | Hx]; [eauto | eapply IH; eassumption].
Qed.

Lemma sparse_entities_members (entities sparse : list dict) :
  Static.sparse_entities entities = Ok sparse ->
  forall e, In e sparse ->
    In e entities
    /\ exists obs n, getitem e "observations" = Ok obs /\ len obs = Ok n.
Proof.
  revert sparse. induction entities as [|x rest IH]; intros sparse H e He.
  - simpl in H. injection H as <-. contradiction.
  - simpl in H. apply bind_ok in H as (obs & Hobs & H).
    apply bind_ok in H as (n & Hn & H).
    apply bind_ok in H as (sp & Hsp & H). injection H as <-.
    assert (In e sp -> In e (x :: rest)
                       /\ exists obs n, getitem e "observations" = Ok obs
                                        /\ len obs = Ok n) as Hrest.
    { intros Hin. destruct (IH sp Hsp e Hin). simpl. auto. }
    destruct (n <=? 1); [|auto].
    destruct He as [<- | He]; [|auto].
    split; [simpl; auto | eauto].
Qed.

Lemma getitem_dict_get (e : dict) (k : string) (v : json) :
  getitem e k = Ok v -> dict_get e k = v.
Proof.
  unfold getitem, dict_get. destruct (lookup e k); congruence.
Qed.

(** The body of the loop over the sparse entities. *)
Lemma sparse_body (entities sparse : list dict) (names : list json) :
  Static.names entities = Ok names ->
  Static.sparse_entities entities = Ok sparse ->
  forall e, In e (firstn 5 sparse) ->
    bind_io (lift (getitem e "name"))
      (fun name =>
         bind_io (lift (getitem e "observations"))
           (fun obs =>
              bind_io (lift (len obs))
                (fun n => print (SparseItem name n))))
    = ([sparse_line e], Ok tt).
Proof.
  intros Hn Hs e He. apply in_firstn in He.
  destruct (sparse_entities_members _ _ Hs e He) as (Hin & obs & n & Ho & Hl).
  destruct (mapM_ok _ _ _ Hn e Hin) as [name Hname].
  simpl in Hname. rewrite Hname, bind_io_lift_ok, Ho, bind_io_lift_ok.
  rewrite Hl, bind_io_lift_ok. unfold sparse_line.
  rewrite (getitem_dict_get _ _ _ Hname), (getitem_dict_get _ _ _ Ho), Hl.
  reflexivity.
Qed.

Lemma similar_block (pairs : list (json * json)) :
  when (negb (List.length pairs =? 0))
    (bind_io
       (print (Text "Potentially similar entities (consider merging):"))
       (fun _ =>
          bind_io
            (for_each (firstn 5 pairs)
               (fun pair => print (SimilarItem (fst pair) (snd pair))))
            (fun _ =>
               when (5 <? List.length pairs)
                 (print (AndMorePairs (List.length pairs - 5))))))
  = (similar_lines pairs, Ok tt).
Proof.
  unfold similar_lines. destruct (List.length pairs =? 0); [reflexivity|].
  unfold when at 1. cbn [negb]. rewrite bind_io_print.
  rewrite (for_each_lines (fun p => SimilarItem (fst p) (snd p)))
    by reflexivity.
  rewrite bind_io_done. cbn [fst snd].
  destruct (5 <? List.length pairs); reflexivity.
Qed.

Lemma similar_block_all (pairs : list (json * json)) :
  when (negb (List.length pairs =? 0))
    (bind_io
       (print (Text "Potentially similar entities (consider merging):"))
       (fun _ =>
          for_each pairs
            (fun pair => print (SimilarItem (fst pair) (snd pair)))))
  = (similar_lines_all pairs, Ok tt).
Proof.
  unfold similar_lines_all. destruct (List.length pairs =? 0); [reflexivity|].
  unfold when. cbn [negb]. rewrite bind_io_print.
  rewrite (for_each_lines (fun p => SimilarItem (fst p) (snd p)))
    by reflexivity.
  reflexivity.
Qed.

Lemma sparse_block (entities sparse : list dict) (names : list json) :
  Static.names entities = Ok names ->
  Static.sparse_entities entities = Ok sparse ->
  when (negb (List.length sparse =? 0))
    (bind_io (print (SparseHeader (List.length sparse)))
       (fun _ =>
          bind_io
            (for_each (firstn 5 sparse)
               (fun entity =>
                  bind_io (lift (getitem entity "name"))
                    (fun name =>
                       bind_io (lift (getitem entity "observations"))
                         (fun obs =>
                            bind_io (lift (len obs))
                              (fun n => print (SparseItem name n))))))
            (fun _ =>
               when (5 <? List.length sparse)
                 (print (AndMoreEntities (List.length sparse - 5))))))
  = (sparse_lines true sparse, Ok tt).
Proof.
  intros Hn Hs. unfold sparse_lines.
  destruct (List.length sparse =? 0); [reflexivity|].
  unfold when at 1. cbn [negb]. rewrite bind_io_print.
  rewrite (for_each_lines sparse_line)
    by (apply (sparse_body entities sparse names); assumption).
  rewrite bind_io_done. cbn [fst snd andb].
  destruct (5 <? List.length sparse); reflexivity.
Qed.

Lemma sparse_block_short (entities sparse : list dict) (names : list json) :
  Static.names entities = Ok names ->
  Static.sparse_entities entities = Ok sparse ->
  when (negb (List.length sparse =? 0))
    (bind_io (print (SparseHeader (List.length sparse)))
       (fun _ =>
          for_each (firstn 5 sparse)
            (fun entity =>
               bind_io (lift (getitem entity "name"))
                 (fun name =>
                    bind_io (lift (getitem entity "observations"))
                      (fun obs =>
                         bind_io (lift (len obs))
                           (fun n => print (SparseItem name n)))))))
  = (sparse_lines false sparse, Ok tt).
Proof.
  intros Hn Hs. unfold sparse_lines.
  destruct (List.length sparse =? 0); [reflexivity|].
  unfold when. cbn [negb]. rewrite bind_io_print.
  rewrite (for_each_lines sparse_line)
    by (apply (sparse_body entities sparse names); assumption).
  cbn [fst snd andb]. rewrite app_nil_r. reflexivity.
Qed.

(** Everything the two scans print, by the outcome of their three
    computations. *)
Lemma find_redundancies_printed (entities relations : list dict) :
  Static.find_redundancies entities relations
  = match Static.names entities with
    | Raise e => ([Text "=== REDUNDANCY ANALYSIS ==="], Raise e)
    | Ok names =>
        match Static.similar_pairs names with
        | Raise e => ([Text "=== REDUNDANCY ANALYSIS ==="], Raise e)
        | Ok pairs =>
            match Static.sparse_entities entities with
            | Raise e =>
                (Text "=== REDUNDANCY ANALYSIS ===" :: similar_lines pairs,
                 Raise e)
            | Ok sparse =>
                (Text "=== REDUNDANCY ANALYSIS ===" :: similar_lines pairs
                 ++ sparse_lines true sparse, Ok tt)
            end
        end
    end.
Proof.
  unfold Static.find_redundancies. rewrite bind_io_print.
  destruct (Static.names entities) as [names|e] eqn:Hn; [|reflexivity].
  rewrite bind_io_lift_ok.
  destruct (Static.similar_pairs names) as [pairs|e]; [|reflexivity].
  rewrite bind_io_lift_ok, similar_block, bind_io_done.
  destruct (Static.sparse_entities entities) as [sparse|e] eqn:Hs.
  - rewrite bind_io_lift_ok, (sparse_block entities sparse names Hn Hs).
    reflexivity.
  - rewrite bind_io_lift_raise. cbn [fst snd]. rewrite app_nil_r.
    reflexivity.
Qed.

Lemma find_redundancies_interactive_printed (entities relations : list dict) :
  Interactive.find_redundancies entities relations
  = match Static.names entities with
    | Raise e => ([Text "=== REDUNDANCY ANALYSIS ==="], Raise e)
    | Ok names =>
        match Static.similar_pairs names with
        | Raise e => ([Text "=== REDUNDANCY ANALYSIS ==="], Raise e)
        | Ok pairs =>
            match Static.sparse_entities entities with
            | Raise e =>
                (Text "=== REDUNDANCY ANALYSIS ==="
                 :: similar_lines_all pairs, Raise e)
            | Ok sparse =>
                (Text "=== REDUNDANCY ANALYSIS ===" :: similar_lines_all pairs
                 ++ sparse_lines false sparse, Ok tt)
            end
        end
    end.
Proof.
  unfold Interactive.find_redundancies. rewrite bind_io_print.
  destruct (Static.names entities) as [names|e] eqn:Hn; [|reflexivity].
  rewrite bind_io_lift_ok.
  destruct (Static.similar_pairs names) as [pairs|e]; [|reflexivity].
  rewrite bind_io_lift_ok, similar_block_all, bind_io_done.
  destruct (Static.sparse_entities entities) as [sparse|e] eqn:Hs.
  - rewrite bind_io_lift_ok, (sparse_block_short entities sparse names Hn Hs).
    reflexivity.
  - rewrite bind_io_lift_raise. cbn [fst snd]. rewrite app_nil_r.
    reflexivity.
Qed.

End RedundancyOutput.

Section RedundancyReadings.

Lemma similar_items_app (l1 l2 : list line) :
  similar_items (l1 ++ l2) = similar_items l1 ++ similar_items l2.
Proof.
  induction l1 as [|x l1 IH]; simpl; [reflexivity|].
  destruct x; simpl; rewrite ?IH; reflexivity.
Qed.

Lemma sparse_items_app (l1 l2 : list line) :
  sparse_items (l1 ++ l2) = sparse_items l1 ++ sparse_items l2.
Proof.
  induction l1 as [|x l1 IH]; simpl; [reflexivity|].
  destruct x; simpl; rewrite ?IH; reflexivity.
Qed.

Lemma similar_items_pairs (l : list (json * json)) :
  similar_items (map (fun p => SimilarItem (fst p) (snd p)) l) = l
  /\ sparse_items (map (fun p => SimilarItem (fst p) (snd p)) l) = [].
Proof.
  induction l as [|[a b] l [IH1 IH2]]; simpl; [auto|].
  rewrite IH1. auto.
Qed.

Lemma sparse_items_entities (l : list dict) :
  similar_items (map sparse_line l) = []
  /\ List.length (sparse_items (map sparse_line l)) = List.length l.
Proof.
  induction l as [|e l [IH1 IH2]]; simpl; [auto|]. rewrite IH2. auto.
Qed.

Lemma similar_lines_items (pairs : list (json * json)) :
  similar_items (similar_lines pairs) = firstn 5 pairs
  /\ sparse_items (similar_lines pairs) = []
  /\ similar_items (similar_lines_all pairs) = pairs
  /\ sparse_items (similar_lines_all pairs) = [].
Proof.
  unfold similar_lines, similar_lines_all.
  destruct pairs as [|p pairs]; [auto|].
  generalize (p :: pairs) as l. intros l.
  destruct (List.length l =? 0) eqn:Hl.
  - apply Nat.eqb_eq, length_zero_iff_nil in Hl. subst. auto.
  - cbn [similar_items sparse_items].
    rewrite similar_items_app, sparse_items_app.
    destruct (similar_items_pairs (firstn 5 l)) as [-> ->].
    destruct (similar_items_pairs l) as [-> ->].
    destruct (5 <? List.length l); simpl; rewrite ?app_nil_r; auto.
Qed.

Lemma sparse_lines_items (more : bool) (sparse : list dict) :
  similar_items (sparse_lines more sparse) = []
  /\ sparse_items (sparse_lines more sparse)
     = sparse_items (map sparse_line (firstn 5 sparse)).
Proof.
  unfold sparse_lines. destruct (List.length sparse =? 0) eqn:Hl.
  - apply Nat.eqb_eq, length_zero_iff_nil in Hl. subst. auto.
  - cbn [similar_items sparse_items].
    rewrite similar_items_app, sparse_items_app.
    destruct (sparse_items_entities (firstn 5 sparse)) as [-> _].
    destruct (more && (5 <? List.length sparse)); simpl;
      rewrite ?app_nil_r; auto.
Qed.

End RedundancyReadings.

(** The two scripts scan alike.  Their redundancy reports end the same
    way, with the same exception if any; the static one prints the
    first five of the similar pairs that the interactive one prints in
    full; both print the same sparse entities, five at most. *)
Theorem find_redundancies_static_interactive
  (entities relations : list dict) :
  snd (Static.find_redundancies entities relations)
  = snd (Interactive.find_redundancies entities relations)
  /\ similar_items (fst (Static.find_redundancies entities relations))
     = firstn 5
         (similar_items
            (fst (Interactive.find_redundancies entities relations)))
  /\ sparse_items (fst (Static.find_redundancies entities relations))
     = sparse_items (fst (Interactive.find_redundancies entities relations))
  /\ List.length
       (sparse_items (fst (Static.find_redundancies entities relations)))
     <= 5.
Proof.
  rewrite find_redundancies_printed, find_redundancies_interactive_printed.
  destruct (Static.names entities) as [names|e];
    [|simpl; repeat split; lia].
  destruct (Static.similar_pairs names) as [pairs|e];
    [|simpl; repeat split; lia].
  destruct (similar_lines_items pairs) as (Hs1 & Hs2 & Hs3 & Hs4).
  destruct (Static.sparse_entities entities) as [sparse|e]; cbn [fst snd].
  - destruct (sparse_lines_items true sparse) as [Ht1 Ht2].
    destruct (sparse_lines_items false sparse) as [Hf1 Hf2].
    cbn [similar_items sparse_items].
    rewrite !similar_items_app, !sparse_items_app.
    rewrite Hs1, Hs2, Hs3, Hs4, Ht1, Ht2, Hf1, Hf2, !app_nil_r.
    cbn [app].
    destruct (sparse_items_entities (firstn 5 sparse)) as [_ ->].
    repeat split. apply firstn_le_length.
  - cbn [similar_items sparse_items].
    rewrite Hs1, Hs2, Hs3, Hs4. cbn [sparse_items List.length].
    repeat split. lia.
Qed.

(** The sparse-entity scan goes through exactly when the observations of
    every record have a length, be they a list, a string or an object;
    it then keeps the records whose observations have length 0 or 1, in
    order. *)
Theorem sparse_entities_sized (entities : list dict) :
  (is_ok (Static.sparse_entities entities) = true
   <-> forallb sized entities = true)
  /\ forall sparse,
       Static.sparse_entities entities = Ok sparse ->
       sparse = filter short entities.
Proof.
  induction entities as [|e rest [IHok IHeq]]; simpl.
  - split; [tauto|]. intros sparse [= <-]. reflexivity.
  - unfold sized at 1, short at 1, getitem, dict_get.
    destruct (lookup e "observations") as [obs|]; simpl;
      [|split; [split; discriminate | discriminate]].
    destruct (len obs) as [n|]; simpl;
      [|split; [split; discriminate | discriminate]].
    destruct (Static.sparse_entities rest) as [sp|] eqn:Hsp; simpl.
    + split; [tauto|]. intros sparse [= <-].
      rewrite (IHeq sp eq_refl). reflexivity.
    + split; [|discriminate]. rewrite <- IHok. tauto.
Qed.

(** Observations that are a string, a list and an object. *)
Lemma sparse_entities_sized_witness :
  Static.sparse_entities
    [[("name", JStr "A"); ("observations", JStr "x")];
     [("name", JStr "B"); ("observations", JList [JStr "x"; JStr "y"])];
     [("name", JStr "C"); ("observations", JDict [])]]
  = Ok [[("name", JStr "A"); ("observations", JStr "x")];
        [("name", JStr "C"); ("observations", JDict [])]].
Proof.
  destruct (sparse_entities_sized
              [[("name", JStr "A"); ("observations", JStr "x")];
               [("name", JStr "B");
                ("observations", JList [JStr "x"; JStr "y"])];
               [("name", JStr "C"); ("observations", JDict [])]])
    as [[_ Hok] Heq].
  specialize (Hok eq_refl).
  destruct (Static.sparse_entities _) as [sparse|] eqn:Hs; [|discriminate].
  rewrite (Heq sparse eq_refl). reflexivity.
Defined.

(* ================================================================== *)
(** * More on the loader *)
(* ================================================================== *)

Section LoaderMore.

Variable decoder : string -> json + failure.

Lemma rstrip_idempotent (s : string) : rstrip (rstrip s) = rstrip s.
Proof.
  induction s as [|c s IH]; simpl; [reflexivity|].
  destruct (rstrip s) as [|c' r] eqn:Hr.
  - destruct (is_space c) eqn:Hc; simpl; [reflexivity|]. rewrite Hc.
    reflexivity.
  - change (rstrip (String c (String c' r)) = String c (String c' r)).
    simpl. simpl in IH. rewrite IH. reflexivity.
Qed.

Lemma lstrip_head (c : ascii) (r : string) :
  is_space c = false -> lstrip (String c r) = String c r.
Proof. intros H. simpl. rewrite H. reflexivity. Qed.

Lemma strip_idempotent (s : string) : strip (strip s) = strip s.
Proof.
  unfold strip. destruct (blank s) eqn:Hb.
  - rewrite (lstrip_blank s Hb). reflexivity.
  - destruct (lstrip_not_blank s Hb) as (c & r & -> & Hc).
    destruct (rstrip_head c r Hc) as [r' Hr]. rewrite Hr.
    rewrite (lstrip_head c r' Hc), <- Hr. apply rstrip_idempotent.
Qed.

Lemma blank_strip (s : string) : blank (strip s) = blank s.
Proof.
  pose proof (truthy_strip s) as H1. pose proof (truthy_strip (strip s)) as H2.
  rewrite strip_idempotent, H1 in H2.
  destruct (blank s), (blank (strip s)); simpl in *; congruence.
Qed.

Lemma load_lines_strip lines : forall es rs,
  Static.load_lines decoder (map strip lines) es rs
  = Static.load_lines decoder lines es rs.
Proof.
  induction lines as [|line rest IH]; intros es rs; simpl; [reflexivity|].
  rewrite strip_idempotent.
  destruct (truthy (strip line)); [|apply IH].
  destruct (json_loads decoder (strip line)) as [[]|]; simpl;
    try reflexivity.
  destruct (eq_str (dict_get d "type") "entity"); [apply IH|].
  destruct (eq_str (dict_get d "type") "relation"); apply IH.
Qed.

Lemma load_lines_no_blank lines : forall es rs,
  Static.load_lines decoder (filter (fun l => negb (blank l)) lines) es rs
  = Static.load_lines decoder lines es rs.
Proof.
  induction lines as [|line rest IH]; intros es rs; [reflexivity|].
  cbn [filter]. destruct (blank line) eqn:Hb; cbn [negb].
  - rewrite load_lines_blank by assumption. apply IH.
  - simpl. rewrite truthy_strip, Hb. simpl.
    destruct (json_loads decoder (strip line)) as [[]|]; simpl;
      try reflexivity.
    destruct (eq_str (dict_get d "type") "entity"); [apply IH|].
    destruct (eq_str (dict_get d "type") "relation"); apply IH.
Qed.

Lemma load_lines_accumulate lines : forall es rs,
  Static.load_lines decoder lines es rs
  = match Static.load_lines decoder lines [] [] with
    | Ok (e, r) => Ok (es ++ e, rs ++ r)
    | Raise x => Raise x
    end.
Proof.
  induction lines as [|line rest IH]; intros es rs; simpl.
  - rewrite !app_nil_r. reflexivity.
  - destruct (truthy (strip line)); [|apply IH].
    destruct (json_loads decoder (strip line)) as [[]|]; simpl;
      try reflexivity.
    destruct (eq_str (dict_get d "type") "entity").
    + rewrite (IH (es ++ [d])), (IH [d]).
      destruct (Static.load_lines decoder rest [] []) as [[e r]|];
        [rewrite <- app_assoc|]; reflexivity.
    + destruct (eq_str (dict_get d "type") "relation"); [|apply IH].
      rewrite (IH es (rs ++ [d])), (IH [] [d]).
      destruct (Static.load_lines decoder rest [] []) as [[e r]|];
        [rewrite <- app_assoc|]; reflexivity.
Qed.

Lemma load_lines_app l1 l2 : forall es rs,
  Static.load_lines decoder (l1 ++ l2) es rs
  = match Static.load_lines decoder l1 es rs with
    | Ok (e, r) => Static.load_lines decoder l2 e r
    | Raise x => Raise x
    end.
Proof.
  induction l1 as [|line rest IH]; intros es rs; simpl; [reflexivity|].
  destruct (truthy (strip line)); [|apply IH].
  destruct (json_loads decoder (strip line)) as [[]|]; simpl;
    try reflexivity.
  destruct (eq_str (dict_get d "type") "entity"); [apply IH|].
  destruct (eq_str (dict_get d "type") "relation"); apply IH.
Qed.

Lemma filter_exclusive {A : Type} (f g : A -> bool) (l : list A) :
  (forall x, f x = true -> g x = false) ->
  List.length (filter f l) + List.length (filter g l) <= List.length l.
Proof.
  intros H. induction l as [|x l IH]; simpl; [lia|].
  destruct (f x) eqn:Hf; [rewrite (H x Hf)|destruct (g x)]; simpl; lia.
Qed.

Lemma objects_count (lines : list string) :
  List.length (objects decoder lines)
  <= List.length (filter (fun l => negb (blank l)) lines).
Proof.
  unfold objects.
  induction lines as [|line rest IH]; simpl; [lia|].
  rewrite length_app.
  destruct (blank line); simpl; [exact IH|].
  destruct (decoder (strip line)) as [[]|]; simpl;
    first [ apply le_n_S; exact IH | apply le_S; exact IH ].
Qed.

End LoaderMore.

Section LoaderExtra.

Variable decoder : string -> json + failure.

Lemma has_type_exclusive (d : dict) :
  has_type "entity" d = true -> has_type "relation" d = false.
Proof.
  unfold has_type. destruct (lookup d "type") as [[]|]; try discriminate.
  intros H. apply String.eqb_eq in H. subst. reflexivity.
Qed.

(** The loader returns exactly when every line is blank or a JSON
    object; the records returned are entities and relations by their
    type, and they are no more than the non-blank lines. *)
Theorem load_memory_file_ok (lines : list string) :
  ((exists entities relations,
      Static.load_memory_file decoder (Ok lines) = Ok (entities, relations))
   <-> Forall (loadable decoder) lines)
  /\ forall entities relations,
       Static.load_memory_file decoder (Ok lines) = Ok (entities, relations) ->
       Forall (fun d => has_type "entity" d = true) entities
       /\ Forall (fun d => has_type "relation" d = true) relations
       /\ List.length entities + List.length relations
          <= List.length (filter (fun l => negb (blank l)) lines).
Proof.
  assert (Forall (loadable decoder) lines ->
          Static.load_memory_file decoder (Ok lines)
          = Ok (filter (has_type "entity") (objects decoder lines),
                filter (has_type "relation") (objects decoder lines)))
    as Hload.
  { intros Hall. unfold Static.load_memory_file. simpl.
    rewrite load_lines_loadable by assumption. reflexivity. }
  assert ((exists entities relations,
             Static.load_memory_file decoder (Ok lines)
             = Ok (entities, relations))
          -> Forall (loadable decoder) lines) as Hconv.
  { intros (es & rs & H).
    destruct (first_unloadable decoder lines)
      as [Hall | (pre & line & post & -> & Hpre & Hb & Hd)]; [assumption|].
    exfalso. unfold Static.load_memory_file in H. simpl in H.
    rewrite load_lines_stops in H by assumption.
    destruct (decoder (strip line)) as [[]|[msg pos|e]]; try discriminate.
    eapply Hd. reflexivity. }
  split.
  - split; [exact Hconv|]. intros Hall. rewrite (Hload Hall). eauto.
  - intros es rs H. assert (Forall (loadable decoder) lines) as Hall by eauto.
    rewrite (Hload Hall) in H. injection H as <- <-.
    split; [|split].
    + apply Forall_forall. intros d Hd. apply filter_In in Hd. tauto.
    + apply Forall_forall. intros d Hd. apply filter_In in Hd. tauto.
    + etransitivity; [|apply objects_count].
      apply filter_exclusive. apply has_type_exclusive.
Qed.

(** White space does not count: the loader gives the same on the lines
    stripped and on the lines less the blank ones, be it records or an
    exception. *)
Theorem load_memory_file_white_space (lines : list string) :
  Static.load_memory_file decoder (Ok (map strip lines))
  = Static.load_memory_file decoder (Ok lines)
  /\ Static.load_memory_file decoder
       (Ok (filter (fun l => negb (blank l)) lines))
     = Static.load_memory_file decoder (Ok lines).
Proof.
  unfold Static.load_memory_file. simpl.
  split; [apply load_lines_strip | apply load_lines_no_blank].
Qed.

(** Loading one file after another: the records of the first, then
    those of the second; the exception of the first that fails. *)
Theorem load_memory_file_append (lines1 lines2 : list string) :
  Static.load_memory_file decoder (Ok (lines1 ++ lines2))
  = match Static.load_memory_file decoder (Ok lines1) with
    | Raise e => Raise e
    | Ok (e1, r1) =>
        match Static.load_memory_file decoder (Ok lines2) with
        | Raise e => Raise e
        | Ok (e2, r2) => Ok (e1 ++ e2, r1 ++ r2)
        end
    end.
Proof.
  unfold Static.load_memory_file. simpl. rewrite load_lines_app.
  destruct (Static.load_memory_file decoder (Ok lines1)) as [[e1 r1]|] eqn:H1;
    unfold Static.load_memory_file in H1; simpl in H1; rewrite H1;
    [|reflexivity].
  apply load_lines_accumulate.
Qed.

End LoaderExtra.

(** A file of three lines. *)
Lemma load_memory_file_ok_witness :
  (exists entities relations,
     Static.load_memory_file table_decoder
       (Ok [text_line (object_text alice_fields); nl;
            text_line (object_text knows_fields)])
     = Ok (entities, relations))
  /\ Forall (fun d => has_type "entity" d = true) [object_value alice_fields]
  /\ Forall (fun d => has_type "relation" d = true)
       [object_value knows_fields]
  /\ 1 + 1 <= 2.
Proof.
  destruct (load_memory_file_ok table_decoder
              [text_line (object_text alice_fields); nl;
               text_line (object_text knows_fields)]) as [[_ Hok] Hwf].
  split.
  - apply Hok.
    repeat (apply Forall_cons;
            [first [ left; reflexivity
                   | right; eexists; vm_compute; reflexivity ] |]).
    apply Forall_nil.
  - apply (Hwf [object_value alice_fields] [object_value knows_fields]).
    vm_compute. reflexivity.
Defined.

(* ================================================================== *)
(** * The interactive script *)
(* ================================================================== *)

Section Labels.

Lemma length_append (a b : string) :
  String.length (a ++ b) = String.length a + String.length b.
Proof. induction a as [|c a IH]; simpl; [|rewrite IH]; reflexivity. Qed.

Lemma length_substring (n : nat) : forall s,
  String.length (substring 0 n s) = Nat.min n (String.length s).
Proof.
  induction n as [|n IH]; intros [|c s]; simpl; try reflexivity.
  rewrite IH. reflexivity.
Qed.

Lemma substring_append (a b : string) :
  substring 0 (String.length a) (a ++ b) = a.
Proof.
  induction a as [|c a IH]; simpl.
  - destruct b; reflexivity.
  - rewrite IH. reflexivity.
Qed.

Lemma substring_after (a b : string) (m : nat) :
  substring (String.length a) m (a ++ b) = substring 0 m b.
Proof. induction a as [|c a IH]; simpl; [reflexivity | exact IH]. Qed.

Lemma cut_label (n : nat) (s : string) :
  n <= String.length s ->
  String.length (substring 0 n s ++ "...") = n + 3
  /\ substring 0 n (substring 0 n s ++ "...") = substring 0 n s
  /\ substring n 3 (substring 0 n s ++ "...") = "...".
Proof.
  intros H.
  assert (String.length (substring 0 n s) = n) as Hlen
    by (rewrite length_substring; lia).
  split; [|split].
  - rewrite length_append, Hlen. reflexivity.
  - rewrite <- Hlen at 1. apply substring_append.
  - rewrite <- Hlen at 1. rewrite substring_after. reflexivity.
Qed.

End Labels.

(** Labels are cut to size.  A node label is the name when the name has
    at most 20 characters, and otherwise its first 17 characters and
    three dots, 20 characters in all; an edge label likewise with 12, 9
    and 12. *)
Theorem labels_cut (name : string) :
  (String.length (Interactive.node_label name)
   = Nat.min (String.length name) 20
   /\ substring 0 17 (Interactive.node_label name) = substring 0 17 name
   /\ (Interactive.node_label name = name <-> String.length name <= 20)
   /\ (20 < String.length name ->
       substring 17 3 (Interactive.node_label name) = "..."))
  /\ (String.length (Interactive.edge_label name)
      = Nat.min (String.length name) 12
      /\ substring 0 9 (Interactive.edge_label name) = substring 0 9 name
      /\ (Interactive.edge_label name = name <-> String.length name <= 12)
      /\ (12 < String.length name ->
          substring 9 3 (Interactive.edge_label name) = "...")).
Proof.
  unfold Interactive.node_label, Interactive.edge_label. split.
  - destruct (20 <? String.length name) eqn:H.
    + apply Nat.ltb_lt in H.
      destruct (cut_label 17 name) as (Hl & Hs & Hd); [lia|].
      split; [rewrite Hl; lia|]. split; [assumption|].
      split; [|intros _; exact Hd].
      split; [|lia]. intros Heq. rewrite Heq in Hl. lia.
    + apply Nat.ltb_ge in H. split; [lia|]. split; [reflexivity|].
      split; [tauto | lia].
  - destruct (12 <? String.length name) eqn:H.
    + apply Nat.ltb_lt in H.
      destruct (cut_label 9 name) as (Hl & Hs & Hd); [lia|].
      split; [rewrite Hl; lia|]. split; [assumption|].
      split; [|intros _; exact Hd].
      split; [|lia]. intros Heq. rewrite Heq in Hl. lia.
    + apply Nat.ltb_ge in H. split; [lia|]. split; [reflexivity|].
      split; [tauto | lia].
Qed.

(** A name of 26 characters and a relation type of 17. *)
Lemma labels_cut_witness :
  Interactive.node_label "Distributed Systems Design"
  <> "Distributed Systems Design"
  /\ String.length (Interactive.node_label "Distributed Systems Design") = 20
  /\ substring 0 17 (Interactive.node_label "Distributed Systems Design")
     = "Distributed Syste"
  /\ substring 17 3 (Interactive.node_label "Distributed Systems Design")
     = "..."
  /\ String.length (Interactive.edge_label "collaborates_with") = 12
  /\ substring 0 9 (Interactive.edge_label "collaborates_with") = "collabora"
  /\ substring 9 3 (Interactive.edge_label "collaborates_with") = "...".
Proof.
  destruct (labels_cut "Distributed Systems Design")
    as [(Hl & Hs & Hn & Hd) _].
  destruct (labels_cut "collaborates_with") as [_ (Hl' & Hs' & _ & Hd')].
  split; [intros Heq; apply Hn in Heq; vm_compute in Heq; lia|].
  split; [exact Hl|]. split; [exact Hs|].
  split; [apply Hd; vm_compute; lia|].
  split; [exact Hl'|]. split; [exact Hs'|].
  apply Hd'. vm_compute. lia.
Defined.

Section Counters.

Lemma count_of_incr (c : counter) (k k' : hkey) :
  count_of (incr c k) k'
  = if hkey_eqb k k' then Some (S (Interactive.get_count c k'))
    else count_of c k'.
Proof.
  unfold Interactive.get_count.
  induction c as [|[k0 n] c IH]; simpl.
  - destruct (hkey_eqb k k'); reflexivity.
  - destruct (hkey_eqb k0 k) eqn:E0; simpl.
    + apply hkey_eqb_eq in E0. subst k0.
      destruct (hkey_eqb k k'); reflexivity.
    + destruct (hkey_eqb k0 k') eqn:E1.
      * apply hkey_eqb_eq in E1. subst k0. rewrite hkey_eqb_sym, E0.
        reflexivity.
      * apply IH.
Qed.

Lemma get_count_incr (c : counter) (k k' : hkey) :
  Interactive.get_count (incr c k) k'
  = Interactive.get_count c k' + (if hkey_eqb k k' then 1 else 0).
Proof.
  unfold Interactive.get_count at 1. rewrite count_of_incr.
  destruct (hkey_eqb k k'); [lia|].
  unfold Interactive.get_count. lia.
Qed.

Lemma get_count_fold (keys : list hkey) (k : hkey) : forall c,
  Interactive.get_count (fold_left incr keys c) k
  = Interactive.get_count c k
    + List.length (filter (fun k' => hkey_eqb k' k) keys).
Proof.
  induction keys as [|x keys IH]; intros c; simpl; [lia|].
  rewrite IH, get_count_incr. destruct (hkey_eqb x k); simpl; lia.
Qed.

Lemma get_count_keys (keys : list hkey) (k : hkey) :
  Interactive.get_count (count_keys keys) k
  = List.length (filter (fun k' => hkey_eqb k' k) keys).
Proof. unfold count_keys. rewrite get_count_fold. reflexivity. Qed.

(** A counter counts from 1. *)
Lemma incr_positive (c : counter) (k : hkey) :
  Forall (fun p => 1 <= snd p) c -> Forall (fun p => 1 <= snd p) (incr c k).
Proof.
  intros H. induction H as [|[k0 n] c Hp H IH]; simpl.
  - repeat constructor.
  - destruct (hkey_eqb k0 k); constructor; simpl in *; auto; lia.
Qed.

Lemma count_keys_positive (keys : list hkey) :
  Forall (fun p => 1 <= snd p) (count_keys keys).
Proof.
  unfold count_keys.
  assert (forall c, Forall (fun p => 1 <= snd p) c ->
                    Forall (fun p => 1 <= snd p) (fold_left incr keys c)) as H.
  { induction keys as [|k keys IH]; intros c Hc; simpl; [assumption|].
    apply IH, incr_positive. assumption. }
  apply H. constructor.
Qed.

Lemma count_of_none (c : counter) (k : hkey) :
  Forall (fun p => 1 <= snd p) c ->
  (count_of c k = None <-> Interactive.get_count c k = 0).
Proof.
  unfold Interactive.get_count. intros H.
  induction H as [|[k0 n] c Hp H IH]; simpl; [tauto|].
  destruct (hkey_eqb k0 k); [|assumption]. simpl in Hp.
  split; [discriminate | lia].
Qed.

(** The first loop of [total_connections]. *)
Lemma first_loop (fc tc : counter) : forall total,
  fold_left (fun total '(entity, n) =>
               total ++ [(entity, n + Interactive.get_count tc entity)])
            fc total
  = total
    ++ map (fun p => (fst p, snd p + Interactive.get_count tc (fst p))) fc.
Proof.
  induction fc as [|[e n] fc IH]; intros total; simpl.
  - rewrite app_nil_r. reflexivity.
  - rewrite IH, <- app_assoc. reflexivity.
Qed.

Lemma count_of_app (c1 c2 : counter) (k : hkey) :
  count_of (c1 ++ c2) k
  = match count_of c1 k with
    | Some n => Some n
    | None => count_of c2 k
    end.
Proof.
  induction c1 as [|[k0 n] c1 IH]; simpl; [reflexivity|].
  destruct (hkey_eqb k0 k); [reflexivity | assumption].
Qed.

Lemma count_of_first (fc tc : counter) (k : hkey) :
  count_of (map (fun p => (fst p, snd p + Interactive.get_count tc (fst p)))
                fc) k
  = match count_of fc k with
    | Some n => Some (n + Interactive.get_count tc k)
    | None => None
    end.
Proof.
  induction fc as [|[k0 n] fc IH]; simpl; [reflexivity|].
  destruct (hkey_eqb k0 k) eqn:E; [|assumption].
  apply hkey_eqb_eq in E. subst. reflexivity.
Qed.

(** The second loop of [total_connections]. *)
Lemma second_loop (tc : counter) (k : hkey) : forall total,
  count_of
    (fold_left (fun total '(entity, n) =>
                  match count_of total entity with
                  | Some _ => total
                  | None => total ++ [(entity, n)]
                  end) tc total) k
  = match count_of total k with
    | Some n => Some n
    | None => count_of tc k
    end.
Proof.
  induction tc as [|[e n] tc IH]; intros total; simpl.
  - destruct (count_of total k); reflexivity.
  - rewrite IH. destruct (count_of total e) eqn:He.
    + destruct (count_of total k) eqn:Hk; [reflexivity|].
      destruct (hkey_eqb e k) eqn:E; [|reflexivity].
      apply hkey_eqb_eq in E. subst. congruence.
    + rewrite count_of_app. simpl.
      destruct (count_of total k); [reflexivity|].
      destruct (hkey_eqb e k); reflexivity.
Qed.

Lemma get_count_total (fc tc : counter) (k : hkey) :
  Interactive.get_count (Interactive.total_connections fc tc) k
  = Interactive.get_count fc k + Interactive.get_count tc k.
Proof.
  unfold Interactive.total_connections.
  unfold Interactive.get_count at 1.
  rewrite second_loop, first_loop. simpl. rewrite count_of_first.
  unfold Interactive.get_count.
  destruct (count_of fc k); [reflexivity|].
  destruct (count_of tc k); reflexivity.
Qed.

End Counters.

Section Connections.

Lemma field_keys (field : string) (rs : list dict) : forall vals keys k,
  mapM (fun r => getitem r field) rs = Ok vals ->
  mapM as_key vals = Ok keys ->
  List.length (filter (fun k' => hkey_eqb k' k) keys)
  = List.length
      (filter (fun r => match match lookup r field with
                              | Some v =>
                                  match as_key v with
                                  | Ok k' => Some k'
                                  | Raise _ => None
                                  end
                              | None => None
                              end with
                        | Some k' => hkey_eqb k' k
                        | None => false
                        end) rs).
Proof.
  induction rs as [|r rs IH]; intros vals keys k Hv Hk.
  - simpl in Hv. injection Hv as <-. simpl in Hk. injection Hk as <-.
    reflexivity.
  - simpl in Hv. apply bind_ok in Hv as (v & Hr & Hv).
    apply bind_ok in Hv as (vals' & Hvals & Hv). injection Hv as <-.
    simpl in Hk. apply bind_ok in Hk as (k0 & Hk0 & Hk).
    apply bind_ok in Hk as (keys' & Hkeys & Hk). injection Hk as <-.
    unfold getitem in Hr. simpl.
    destruct (lookup r field) as [v'|]; [|discriminate].
    injection Hr as ->. rewrite Hk0.
    destruct (hkey_eqb k0 k); simpl; rewrite (IH vals' keys' k Hvals Hkeys);
      reflexivity.
Qed.

Lemma connections_ok (rs : list dict) :
  Forall (fun r => endpoints r <> None) rs ->
  exists total, connections rs = Ok total.
Proof.
  intros Hall. unfold connections, Counter.
  assert (exists fv fk tv tk,
            mapM (fun r => getitem r "from") rs = Ok fv
            /\ mapM as_key fv = Ok fk
            /\ mapM (fun r => getitem r "to") rs = Ok tv
            /\ mapM as_key tv = Ok tk)
    as (fv & fk & tv & tk & -> & Hfk & -> & Htk).
  { induction Hall as [|r rs Hr Hall (fv & fk & tv & tk & H1 & H2 & H3 & H4)].
    - exists [], [], [], []. auto.
    - unfold endpoints in Hr. simpl. unfold getitem at 1 3.
      destruct (lookup r "from") as [f|]; [|congruence].
      destruct (lookup r "to") as [t|]; [|congruence].
      destruct (as_key f) as [u|] eqn:Hu; [|congruence].
      destruct (as_key t) as [v|] eqn:Hv; [|congruence].
      exists (f :: fv), (u :: fk), (t :: tv), (v :: tk).
      simpl. rewrite H1, H2, H3, H4, Hu, Hv. auto. }
  simpl. rewrite Hfk. simpl. rewrite Htk. simpl. eauto.
Qed.

Lemma connections_counts (rs : list dict) (total : list (hkey * nat)) :
  connections rs = Ok total ->
  forall k,
    Interactive.get_count total k = from_count rs k + to_count rs k.
Proof.
  unfold connections, Counter. intros H k.
  apply bind_ok in H as (fv & Hfv & H).
  apply bind_ok in H as (fc & Hfc & H).
  apply bind_ok in Hfc as (fk & Hfk & Hfc). injection Hfc as <-.
  apply bind_ok in H as (tv & Htv & H).
  apply bind_ok in H as (tc & Htc & H).
  apply bind_ok in Htc as (tk & Htk & Htc). injection Htc as <-.
  injection H as <-.
  rewrite get_count_total, !get_count_keys.
  rewrite (field_keys "from" rs fv fk k Hfv Hfk).
  rewrite (field_keys "to" rs tv tk k Htv Htk). reflexivity.
Qed.

Lemma most_connected_of_connections (rs : list dict) :
  Interactive.most_connected rs
  = bind (connections rs)
      (fun total => Ok (firstn 5 (sorted_reverse Nat.ltb snd total))).
Proof.
  unfold Interactive.most_connected, connections.
  destruct (mapM (fun r => getitem r "from") rs); simpl; [|reflexivity].
  destruct (Counter a); simpl; [|reflexivity].
  destruct (mapM (fun r => getitem r "to") rs); simpl; [|reflexivity].
  destruct (Counter a1); reflexivity.
Qed.

Lemma count_of_keys (c : counter) (k : hkey) :
  count_of c k = None <-> ~ In k (map fst c).
Proof.
  induction c as [|[k0 n] c IH]; simpl; [tauto|].
  destruct (hkey_eqb k0 k) eqn:E.
  - apply hkey_eqb_eq in E. subst. split; [discriminate | tauto].
  - apply hkey_eqb_neq in E. rewrite IH. tauto.
Qed.

Lemma count_of_in (c : counter) (k : hkey) (n : nat) :
  NoDup (map fst c) -> In (k, n) c -> count_of c k = Some n.
Proof.
  induction c as [|[k0 m] c IH]; simpl; [contradiction|].
  intros Hnd [[= -> ->] | Hin].
  - rewrite hkey_eqb_refl. reflexivity.
  - apply NoDup_cons_iff in Hnd as [Hnot Hnd].
    destruct (hkey_eqb k0 k) eqn:E; [|auto].
    apply hkey_eqb_eq in E. subst. exfalso. apply Hnot.
    change k with (fst (k, n)). apply in_map. assumption.
Qed.

Lemma incr_keys (c : counter) (k : hkey) :
  map fst (incr c k)
  = if existsb (fun k' => hkey_eqb k' k) (map fst c) then map fst c
    else map fst c ++ [k].
Proof.
  induction c as [|[k0 n] c IH]; simpl; [reflexivity|].
  destruct (hkey_eqb k0 k); simpl; [reflexivity|].
  rewrite IH. destruct (existsb _ (map fst c)); reflexivity.
Qed.

Lemma count_keys_nodup (keys : list hkey) :
  NoDup (map fst (count_keys keys)).
Proof.
  unfold count_keys.
  assert (forall c, NoDup (map fst c) ->
                    NoDup (map fst (fold_left incr keys c))) as H.
  { induction keys as [|k keys IH]; intros c Hc; simpl; [assumption|].
    apply IH. rewrite incr_keys.
    destruct (existsb (fun k' => hkey_eqb k' k) (map fst c)) eqn:E;
      [assumption|].
    apply NoDup_append; [assumption | repeat constructor; auto |].
    intros x Hx [<- | []]. apply mem_in in Hx. congruence. }
  apply H. constructor.
Qed.

(** The dictionary of the two loops: no key twice, counts from 1. *)
Lemma total_connections_dict (fc tc : counter) :
  NoDup (map fst fc) ->
  Forall (fun p => 1 <= snd p) fc ->
  Forall (fun p => 1 <= snd p) tc ->
  NoDup (map fst (Interactive.total_connections fc tc))
  /\ Forall (fun p => 1 <= snd p) (Interactive.total_connections fc tc).
Proof.
  intros Hnd Hfc Htc. unfold Interactive.total_connections.
  rewrite first_loop. simpl.
  assert (NoDup (map fst (map (fun p => (fst p,
                                         snd p
                                         + Interactive.get_count tc (fst p)))
                              fc))
          /\ Forall (fun p => 1 <= snd p)
               (map (fun p => (fst p,
                               snd p + Interactive.get_count tc (fst p))) fc))
    as Hfirst.
  { rewrite map_map. simpl. split; [assumption|].
    apply Forall_forall. intros p Hp.
    apply in_map_iff in Hp as (q & <- & Hq). simpl.
    rewrite Forall_forall in Hfc. specialize (Hfc q Hq). lia. }
  revert Hfirst.
  generalize (map (fun p => (fst p, snd p + Interactive.get_count tc (fst p)))
                  fc) as total.
  induction Htc as [|[e n] tc He Htc IH]; intros total [Hn Hp]; simpl;
    [auto|].
  apply IH. destruct (count_of total e) eqn:Hc; [auto|].
  apply count_of_keys in Hc. rewrite map_app. split.
  - apply NoDup_append; [assumption | repeat constructor; auto |].
    simpl. intros x Hx [<- | []]. contradiction.
  - apply Forall_app. split; [assumption|]. repeat constructor. assumption.
Qed.

End Connections.


(** The connection count of the interactive report for an entity is the
    number of relation records that have it as 'from' plus the number
    that have it as 'to', whether or not the names are entities; the
    names listed are five at most, and each is named by a record. *)
Theorem print_analysis_counts (relations : list dict)
  (top : list (hkey * nat)) :
  Interactive.most_connected relations = Ok top ->
  List.length top <= 5
  /\ forall k n, In (k, n) top ->
       n = from_count relations k + to_count relations k /\ 1 <= n.
Proof.
  rewrite most_connected_of_connections. intros H.
  apply bind_ok in H as (total & Htotal & H).
  assert (top = firstn 5 (sorted_reverse Nat.ltb snd total)) as ->
    by congruence.
  clear H. split; [apply firstn_le_length|].
  intros k n Hin. apply in_firstn in Hin.
  apply (Permutation_in _ (sorted_reverse_permutation Nat.ltb snd total))
    in Hin.
  pose proof (connections_counts relations total Htotal k) as Hcount.
  unfold connections, Counter in Htotal.
  apply bind_ok in Htotal as (fv & _ & Htotal).
  apply bind_ok in Htotal as (fc & Hfc & Htotal).
  apply bind_ok in Hfc as (fk & _ & Hfc). injection Hfc as <-.
  apply bind_ok in Htotal as (tv & _ & Htotal).
  apply bind_ok in Htotal as (tc & Htc & Htotal).
  apply bind_ok in Htc as (tk & _ & Htc). injection Htc as <-.
  injection Htotal as <-.
  destruct (total_connections_dict (count_keys fk) (count_keys tk))
    as [Hnd Hpos];
    [apply count_keys_nodup | apply count_keys_positive
     | apply count_keys_positive |].
  rewrite Forall_forall in Hpos. specialize (Hpos _ Hin). simpl in Hpos.
  split; [|assumption].
  rewrite <- Hcount. unfold Interactive.get_count.
  rewrite (count_of_in _ k n Hnd Hin). reflexivity.
Qed.

(** Alice twice as 'from', once as 'to'; Zed is no entity. *)
Lemma print_analysis_counts_witness :
  Interactive.most_connected
    [relation "Alice" "Bob" "knows"; relation "Alice" "Zed" "knows";
     relation "Bob" "Alice" "likes"]
  = Ok [(HStr "Alice", 3); (HStr "Bob", 2); (HStr "Zed", 1)]
  /\ List.length [(HStr "Alice", 3); (HStr "Bob", 2); (HStr "Zed", 1)] <= 5
  /\ forall k n,
       In (k, n) [(HStr "Alice", 3); (HStr "Bob", 2); (HStr "Zed", 1)] ->
       n = from_count
             [relation "Alice" "Bob" "knows"; relation "Alice" "Zed" "knows";
              relation "Bob" "Alice" "likes"] k
           + to_count
               [relation "Alice" "Bob" "knows"; relation "Alice" "Zed" "knows";
                relation "Bob" "Alice" "likes"] k
       /\ 1 <= n.
Proof.
  split; [reflexivity|].
  apply (print_analysis_counts
           [relation "Alice" "Bob" "knows"; relation "Alice" "Zed" "knows";
            relation "Bob" "Alice" "likes"]).
  reflexivity.
Defined.

Section Agreement.

Lemma set_edge_new l u v rt :
  existsb (fun '(a, b, _) => same_edge a b u v) l = false ->
  set_edge l u v rt = l ++ [(u, v, rt)].
Proof.
  induction l as [|[[a b] x] l IH]; simpl; [reflexivity|].
  destruct (same_edge a b u v); simpl; [discriminate|].
  intros H. rewrite IH by assumption. reflexivity.
Qed.

Lemma endpoints_keys (r : dict) (u v : hkey) :
  endpoints r = Some (u, v) -> from_key r = Some u /\ to_key r = Some v.
Proof.
  unfold endpoints, from_key, to_key.
  destruct (lookup r "from") as [f|]; [|discriminate].
  destruct (lookup r "to") as [t|]; [|discriminate].
  destruct (as_key f); [|discriminate].
  destruct (as_key t); [|discriminate].
  intros [= -> ->]. auto.
Qed.

(** The degree read off the pairs of the edges. *)
Lemma degree_of_pairs (G : Graph) (k : hkey) :
  degree G k
  = list_sum (map (fun p => (if hkey_eqb (fst p) k then 1 else 0)
                            + (if hkey_eqb (snd p) k then 1 else 0))
                  (map fst (edges G))).
Proof.
  unfold degree. rewrite map_map. f_equal. apply map_ext.
  intros [[a b] rt]. reflexivity.
Qed.

(** When every record joins two nodes not joined before, the edge loop
    appends one edge per record, in order. *)
Lemma add_relations_edges rs : forall G G',
  foldM Static.add_relation rs G = Ok G' ->
  Forall (fun r => known G r = true /\ fresh G r = true) rs ->
  ForallOrdPairs (fun r1 r2 => same_link r1 r2 = false) rs ->
  map fst (edges G')
  = map fst (edges G)
    ++ flat_map (fun r => match endpoints r with
                          | Some p => [p]
                          | None => []
                          end) rs.
Proof.
  induction rs as [|r rs IH]; intros G G' H Hall Hpairs; simpl in H.
  - injection H as <-. simpl. rewrite app_nil_r. reflexivity.
  - apply bind_ok in H as (G1 & H1 & H2).
    inversion Hall as [|? ? [Hk Hf] Hrest]; subst.
    inversion Hpairs as [|? ? Hr Hpairs']; subst.
    destruct (add_relation_ok _ _ _ H1)
      as [(_ & u & v & rt & He & ->) | (Hk' & _)]; [|congruence].
    assert (has_edge G u v = false) as Hedge.
    { unfold fresh in Hf. rewrite He in Hf.
      apply negb_true_iff in Hf. assumption. }
    rewrite (IH _ _ H2).
    + simpl. rewrite He. unfold has_edge in Hedge.
      rewrite (set_edge_new _ _ _ rt Hedge), map_app, <- app_assoc.
      reflexivity.
    + rewrite Forall_forall in *. intros r' Hin.
      destruct (Hrest r' Hin) as [Hk' Hf']. specialize (Hr r' Hin).
      rewrite (known_nodes G) by reflexivity. split; [assumption|].
      rewrite fresh_add_edge by (eapply known_endpoints; eassumption).
      rewrite Hf'. simpl. unfold same_link in Hr. rewrite He in Hr.
      destruct (endpoints r') as [[x y]|]; [|reflexivity].
      rewrite Hr. reflexivity.
    + assumption.
Qed.

Lemma counts_of_pairs (rs : list dict) (k : hkey) :
  Forall (fun r => endpoints r <> None) rs ->
  list_sum (map (fun p => (if hkey_eqb (fst p) k then 1 else 0)
                          + (if hkey_eqb (snd p) k then 1 else 0))
                (flat_map (fun r => match endpoints r with
                                    | Some p => [p]
                                    | None => []
                                    end) rs))
  = from_count rs k + to_count rs k.
Proof.
  unfold from_count, to_count.
  intros Hall. induction Hall as [|r rs Hr Hall IH]; simpl; [reflexivity|].
  destruct (endpoints r) as [[u v]|] eqn:He; [|congruence].
  destruct (endpoints_keys r u v He) as [-> ->]. simpl.
  rewrite IH.
  destruct (hkey_eqb u k), (hkey_eqb v k); simpl; lia.
Qed.

End Agreement.

(** Where the two reports agree.  When every relation record names two
    entities and no two records join the same two entities, the
    connection count of the interactive script for a name is the degree
    of its node in the graph of the static script. *)
Theorem connections_agree_with_degree
  (entities relations : list dict) (G : Graph) :
  Static.create_graph entities relations = Ok G ->
  Forall (fun r => known G r = true) relations ->
  ForallOrdPairs (fun r1 r2 => same_link r1 r2 = false) relations ->
  exists total,
    connections relations = Ok total
    /\ forall k, Interactive.get_count total k = degree G k.
Proof.
  intros H Hknown Hpairs.
  assert (Forall (fun r => endpoints r <> None) relations) as Hends.
  { eapply Forall_impl; [|exact Hknown]. intros r Hr. simpl in Hr.
    exact (known_endpoints G r Hr). }
  destruct (connections_ok relations Hends) as [total Htotal].
  exists total. split; [assumption|]. intros k.
  rewrite (connections_counts relations total Htotal k).
  unfold Static.create_graph in H.
  apply bind_ok in H as (G0 & Hnodes & Hedges).
  pose proof (add_entities_edges _ _ _ Hnodes) as He0. simpl in He0.
  pose proof (add_relations_nodes _ _ _ Hedges) as Hn.
  rewrite degree_of_pairs, (add_relations_edges _ _ _ Hedges).
  - rewrite He0. simpl. symmetry. apply counts_of_pairs. assumption.
  - eapply Forall_impl; [|exact Hknown]. simpl. intros r Hr.
    rewrite (known_nodes G0) in Hr by assumption. split; [assumption|].
    unfold fresh, has_edge. rewrite He0.
    destruct (endpoints r) as [[u v]|]; reflexivity.
  - assumption.
Qed.

(** Three entities, a relation and a self-relation. *)
Lemma connections_agree_with_degree_witness :
  exists G total,
    Static.create_graph
      [entity "Alice" "person" []; entity "Bob" "person" [];
       entity "Carol" "person" []]
      [relation "Alice" "Bob" "knows"; relation "Alice" "Alice" "is"] = Ok G
    /\ connections
         [relation "Alice" "Bob" "knows"; relation "Alice" "Alice" "is"]
       = Ok total
    /\ forall k, Interactive.get_count total k = degree G k.
Proof.
  destruct (connections_agree_with_degree
              [entity "Alice" "person" []; entity "Bob" "person" [];
               entity "Carol" "person" []]
              [relation "Alice" "Bob" "knows"; relation "Alice" "Alice" "is"]
              _ eq_refl) as (total & H).
  - repeat constructor.
  - repeat constructor.
  - eexists. exists total. split; [reflexivity | exact H].
Defined.

(* ================================================================== *)
(** * The whole run *)
(* ================================================================== *)

Section Main.

Variable decoder : string -> json + failure.
Variable savefig show : Graph -> result unit.

Lemma main_of_body (file : result (list string)) :
  Static.main decoder savefig show file
  = match Static.main_body decoder savefig show file with
    | (out, Ok _) => out
    | (out, Raise e) => out ++ error_lines e
    end.
Proof.
  unfold Static.main.
  destruct (Static.main_body decoder savefig show file) as [out [u|e]];
    [reflexivity|].
  destruct e; reflexivity.
Qed.

(** Nothing is printed before the graph is built. *)
Lemma main_early file e :
  Static.load_memory_file decoder file = Raise e
  \/ (exists es rs, Static.load_memory_file decoder file = Ok (es, rs)
                    /\ Static.create_graph es rs = Raise e) ->
  Static.main decoder savefig show file = error_lines e.
Proof.
  intros [H | (es & rs & Hl & Hg)]; rewrite main_of_body;
    unfold Static.main_body.
  - rewrite H. reflexivity.
  - rewrite Hl, bind_io_lift_ok, Hg. reflexivity.
Qed.

Lemma visualize_graph_printed (G : Graph) (output_file : string) :
  Static.visualize_graph savefig show G output_file
  = match savefig G with
    | Raise e => ([], Raise e)
    | Ok _ =>
        match show G with
        | Raise e => ([Saved output_file], Raise e)
        | Ok _ => ([Saved output_file], Ok tt)
        end
    end.
Proof.
  unfold Static.visualize_graph.
  destruct (savefig G) as [[]|e]; [|reflexivity].
  rewrite bind_io_lift_ok, bind_io_print.
  destruct (show G) as [[]|e]; reflexivity.
Qed.

(** The run once the graph is built and the two reports are through. *)
Lemma main_late file es rs G out1 out2 :
  Static.load_memory_file decoder file = Ok (es, rs) ->
  Static.create_graph es rs = Ok G ->
  Static.analyze_graph G = (out1, Ok tt) ->
  Static.find_redundancies es rs = (out2, Ok tt) ->
  Static.main decoder savefig show file
  = out1 ++ out2
    ++ Text "Creating static visualization..."
    :: match savefig G with
       | Raise e => error_lines e
       | Ok _ =>
           Saved "memory_graph.png"
           :: match show G with
              | Raise e => error_lines e
              | Ok _ => closing_lines
              end
       end.
Proof.
  intros Hl Hg Ha Hf. rewrite main_of_body. unfold Static.main_body.
  rewrite Hl, bind_io_lift_ok, Hg, bind_io_lift_ok, Ha, bind_io_done.
  rewrite Hf, bind_io_done, bind_io_print.
  rewrite visualize_graph_printed.
  destruct (savefig G) as [[]|e].
  - destruct (show G) as [[]|e].
    + rewrite bind_io_done, !bind_io_print. cbn [fst snd print app].
      reflexivity.
    + rewrite bind_io_raised. cbn [fst snd app].
      rewrite <- ?app_assoc. reflexivity.
  - rewrite bind_io_raised. cbn [fst snd app].
    rewrite <- ?app_assoc. reflexivity.
Qed.

End Main.

Section MainSupport.

Lemma set_attrs_from l k a k' a' :
  In (k, a) (set_attrs l k' a') -> (k, a) = (k', a') \/ In (k, a) l.
Proof.
  induction l as [|[k0 a0] l IH]; simpl.
  - intros [H | []]. left. congruence.
  - destruct (hkey_eqb k0 k') eqn:E; simpl.
    + apply hkey_eqb_eq in E. subst.
      intros [H | H]; [left; congruence | auto].
    + intros [H | H]; [auto | destruct (IH H); auto].
Qed.

Lemma add_entities_attrs es : forall G G' k a,
  foldM Static.add_entity es G = Ok G' ->
  In (k, a) (nodes G') ->
  In (k, a) (nodes G) \/ exists e, In e es /\ attrs_of e = Some a.
Proof.
  induction es as [|e es IH]; intros G G' k a H Hin; simpl in H.
  - injection H as <-. auto.
  - apply bind_ok in H as (G1 & H1 & H2).
    destruct (IH _ _ k a H2 Hin) as [Hin1 | (e' & He' & Ha')];
      [|right; exists e'; simpl; auto].
    destruct (add_entity_ok _ _ _ H1) as (k' & a' & _ & Ha & Hn & _).
    rewrite Hn in Hin1. apply set_attrs_from in Hin1 as [[= -> ->] | Hin1];
      [|auto].
    right. exists e. simpl. auto.
Qed.

Lemma plain_well_formed (e : dict) : plain_entity e -> well_formed_entity e.
Proof.
  intros ((name & Hn) & (ty & Ht & _) & obs & Ho). repeat split.
  - exists (JStr name), (HStr name). repeat split; [assumption | discriminate].
  - congruence.
  - exists (JList obs), (List.length obs). auto.
Qed.

Lemma plain_types (es rs : list dict) (G : Graph) :
  Forall plain_entity es ->
  Static.create_graph es rs = Ok G ->
  forallb hashable (map (fun '(_, a) => entity_type a) (nodes G)) = true.
Proof.
  intros Hall H. unfold Static.create_graph in H.
  apply bind_ok in H as (G0 & Hnodes & Hedges).
  rewrite (add_relations_nodes _ _ _ Hedges).
  apply forallb_forall. intros ty Hty.
  apply in_map_iff in Hty as ([k a] & <- & Hin).
  destruct (add_entities_attrs _ _ _ k a Hnodes Hin) as [[] | (e & He & Ha)].
  rewrite Forall_forall in Hall.
  destruct (Hall e He) as (_ & (ty & Ht & Hh) & obs & Ho).
  unfold attrs_of in Ha. rewrite Ht, Ho in Ha. simpl in Ha.
  injection Ha as <-. assumption.
Qed.

Lemma plain_names (es : list dict) :
  Forall plain_entity es ->
  exists ns, Static.names es = Ok (map JStr ns).
Proof.
  unfold Static.names. intros Hall.
  induction Hall as [|e es ((name & Hn) & _) Hall [ns IH]].
  - exists []. reflexivity.
  - exists (name :: ns). simpl. unfold getitem at 1. rewrite Hn. simpl.
    rewrite IH. reflexivity.
Qed.

Lemma plain_sparse (es : list dict) :
  Forall plain_entity es ->
  exists sparse, Static.sparse_entities es = Ok sparse.
Proof.
  intros Hall.
  induction Hall as [|e es (_ & _ & obs & Ho) Hall [sp IH]].
  - exists []. reflexivity.
  - simpl. unfold getitem. rewrite Ho. simpl. rewrite IH. simpl. eauto.
Qed.

Lemma plain_redundancies (es rs : list dict) :
  Forall plain_entity es ->
  exists out, Static.find_redundancies es rs = (out, Ok tt).
Proof.
  intros Hall. rewrite find_redundancies_printed.
  destruct (plain_names es Hall) as [ns ->].
  unfold Static.similar_pairs. rewrite (outer_loop ns 0 []).
  destruct (plain_sparse es Hall) as [sp ->]. eauto.
Qed.

Lemma hashable_report (G : Graph) :
  forallb hashable (map (fun '(_, a) => entity_type a) (nodes G)) = true ->
  exists out, Static.analyze_graph G = (out, Ok tt).
Proof.
  intros Hh. destruct (top_connected_ok G) as [top Ht].
  destruct (counter_of_types G) as [(_ & counts & Hc & _) | (Hh' & _)];
    [|congruence].
  rewrite (analyze_graph_printed G counts top Hc Ht). eauto.
Qed.

End MainSupport.

Section MainTheorems.

Variable decoder : string -> json + failure.
Variable savefig show : Graph -> result unit.

(** No graph, no report: when the loader raises, or the builder on the
    records loaded, [main] prints nothing but the lines of its handler
    for that exception. *)
Theorem main_without_graph (file : result (list string)) (e : exn) :
  Static.load_memory_file decoder file = Raise e
  \/ (exists es rs, Static.load_memory_file decoder file = Ok (es, rs)
                    /\ Static.create_graph es rs = Raise e) ->
  Static.main decoder savefig show file = error_lines e.
Proof. apply main_early. Qed.

(** A file of blank lines and of complete records, entities with a
    string for a name, a hashable type and a list of observations,
    gives the whole report when the picture is drawn: the analysis,
    the redundancies, and the closing lines, with no error line. *)
Theorem main_complete (lines : list string) :
  Forall (loadable decoder) lines ->
  Forall plain_entity (filter (has_type "entity") (objects decoder lines)) ->
  Forall well_formed_relation
    (filter (has_type "relation") (objects decoder lines)) ->
  (forall G, savefig G = Ok tt /\ show G = Ok tt) ->
  exists G out1 out2,
    Static.create_graph
      (filter (has_type "entity") (objects decoder lines))
      (filter (has_type "relation") (objects decoder lines)) = Ok G
    /\ Static.analyze_graph G = (out1, Ok tt)
    /\ Static.find_redundancies
         (filter (has_type "entity") (objects decoder lines))
         (filter (has_type "relation") (objects decoder lines))
       = (out2, Ok tt)
    /\ Static.main decoder savefig show (Ok lines)
       = out1 ++ out2
         ++ Text "Creating static visualization..."
         :: Saved "memory_graph.png" :: closing_lines.
Proof.
  intros Hlines Hes Hrs Hdraw.
  assert (Static.load_memory_file decoder (Ok lines)
          = Ok (filter (has_type "entity") (objects decoder lines),
                filter (has_type "relation") (objects decoder lines)))
    as Hload.
  { unfold Static.load_memory_file. simpl.
    rewrite load_lines_loadable by assumption. reflexivity. }
  destruct (create_graph_total _ _
              (Forall_impl _ plain_well_formed Hes) Hrs) as [G HG].
  destruct (hashable_report G (plain_types _ _ G Hes HG)) as [out1 H1].
  destruct (plain_redundancies _
              (filter (has_type "relation") (objects decoder lines)) Hes)
    as [out2 H2].
  exists G, out1, out2. repeat split; try assumption.
  rewrite (main_late decoder savefig show _ _ _ G out1 out2 Hload HG H1 H2).
  destruct (Hdraw G) as [-> ->]. reflexivity.
Qed.

(** The handler for a missing file catches more than a missing memory
    file: when saving the picture raises [FileNotFoundError], after both
    reports are printed, [main] says that the memory file was not
    found. *)
Theorem main_missing_output
  (file : result (list string)) (es rs : list dict) (G : Graph)
  (out1 out2 : list line) :
  Static.load_memory_file decoder file = Ok (es, rs) ->
  Static.create_graph es rs = Ok G ->
  Static.analyze_graph G = (out1, Ok tt) ->
  Static.find_redundancies es rs = (out2, Ok tt) ->
  savefig G = Raise FileNotFoundError ->
  Static.main decoder savefig show file
  = out1 ++ out2
    ++ [Text "Creating static visualization...";
        NotFound "memory.json";
        Text "Please update the memory_file path in the script."].
Proof.
  intros Hl Hg Ha Hf Hs.
  rewrite (main_late decoder savefig show _ _ _ G out1 out2 Hl Hg Ha Hf), Hs.
  reflexivity.
Qed.

End MainTheorems.

Lemma main_without_graph_witness :
  Static.main table_decoder sample_render sample_render (Ok bad_file)
  = error_lines (JSONDecodeError "Expecting value" "oops" 0).
Proof.
  apply (main_without_graph table_decoder sample_render sample_render
           (Ok bad_file) (JSONDecodeError "Expecting value" "oops" 0)).
  left. vm_compute. reflexivity.
Defined.

Lemma main_complete_witness :
  exists G out1 out2,
    Static.create_graph
      (filter (has_type "entity")
         (objects bob_decoder [text_line bob_text; nl]))
      (filter (has_type "relation")
         (objects bob_decoder [text_line bob_text; nl])) = Ok G
    /\ Static.analyze_graph G = (out1, Ok tt)
    /\ Static.find_redundancies
         (filter (has_type "entity")
            (objects bob_decoder [text_line bob_text; nl]))
         (filter (has_type "relation")
            (objects bob_decoder [text_line bob_text; nl]))
       = (out2, Ok tt)
    /\ Static.main bob_decoder sample_render sample_render
         (Ok [text_line bob_text; nl])
       = out1 ++ out2
         ++ Text "Creating static visualization..."
         :: Saved "memory_graph.png" :: closing_lines.
Proof.
  apply (main_complete bob_decoder sample_render sample_render
           [text_line bob_text; nl]).
  - apply Forall_cons; [right; eexists; vm_compute; reflexivity |].
    apply Forall_cons; [left; reflexivity | apply Forall_nil].
  - replace (filter (has_type "entity")
               (objects bob_decoder [text_line bob_text; nl]))
      with [entity "Bob" "person" ["a friend"]] by (vm_compute; reflexivity).
    apply Forall_cons; [|apply Forall_nil].
    split; [eexists; reflexivity |].
    split; [eexists; split; reflexivity | eexists; reflexivity].
  - replace (filter (has_type "relation")
               (objects bob_decoder [text_line bob_text; nl]))
      with (@nil dict) by (vm_compute; reflexivity).
    apply Forall_nil.
  - intros G. split; reflexivity.
Defined.

Lemma main_missing_output_witness :
  Static.main bob_decoder lost_render sample_render (Ok [text_line bob_text])
  = fst (Static.analyze_graph
           {| nodes := [(HStr "Bob",
                         {| entity_type := JStr "person";
                            observations := 1 |})];
              edges := [] |})
    ++ fst (Static.find_redundancies [entity "Bob" "person" ["a friend"]] [])
    ++ [Text "Creating static visualization...";
        NotFound "memory.json";
        Text "Please update the memory_file path in the script."].
Proof.
  apply (main_missing_output bob_decoder lost_render sample_render
           (Ok [text_line bob_text])
           [entity "Bob" "person" ["a friend"]] []
           {| nodes := [(HStr "Bob",
                         {| entity_type := JStr "person";
                            observations := 1 |})];
              edges := [] |}).
  - vm_compute. reflexivity.
  - vm_compute. reflexivity.
  - vm_compute. reflexivity.
  - vm_compute. reflexivity.
  - reflexivity.
Defined.
